(** * CPU_Analysis: the statistical analysis pipeline of [data_analysis.py]

    A shallow embedding of the analysis functions of
    [src/app/CPU_Analysis/data_analysis.py] and the properties that the
    specification states about them.

    Conventions of the embedding.
    - A Python/NumPy [float] is an exact rational or NaN ([float := option Q],
      [None] is NaN); infinities and rounding are not modelled.
    - A pandas [DataFrame] is an index (row labels) and an ordered list of
      named columns; a column ([Series]) is float64, integer, datetime64 or an
      object column of calendar dates.  DataFrames are mutable Python objects: they
      live in a store and the functions receive a reference.
    - The functions run in a state-and-exception monad over that store.
    - Reductions of pandas ([mean], [quantile], ...) are defined on exact
      rationals; the square root used by [std] and the SciPy normality tests
      are parameters of the development. *)

From Stdlib Require Import QArith Qround Lqa ZArith Lia.
From stdpp Require Import base list sorting strings.

Local Open Scope string_scope.
Local Open Scope list_scope.

(** ** Floats with NaN *)

Definition float : Type := option Q.
Definition NaN : float := None.

Definition isnan (x : float) : bool :=
  match x with None => true | Some _ => false end.

Definition fadd (x y : float) : float :=
  match x, y with Some a, Some b => Some (a + b)%Q | _, _ => NaN end.
Definition fsub (x y : float) : float :=
  match x, y with Some a, Some b => Some (a - b)%Q | _, _ => NaN end.
Definition fmul (x y : float) : float :=
  match x, y with Some a, Some b => Some (a * b)%Q | _, _ => NaN end.

(** Comparisons with NaN are false, as in IEEE 754. *)
Definition fgt (x y : float) : bool :=
  match x, y with Some a, Some b => negb (Qle_bool a b) | _, _ => false end.
Definition fge (x y : float) : bool :=
  match x, y with Some a, Some b => Qle_bool b a | _, _ => false end.

(** ** Exceptions and the store monad *)

Inductive exn : Type :=
| ValueError | KeyError | ZeroDivisionError | TypeError | AttributeError.

Inductive result (A : Type) : Type :=
| Ok (a : A)
| Raise (e : exn).
Arguments Ok {A} a.
Arguments Raise {A} e.

(** ** Series and DataFrames *)

(** A datetime64 value is a number of seconds since the epoch; [None] is NaT.
    A calendar date is a number of days since the epoch. *)
Inductive Series : Type :=
| Floats (xs : list float)
| Ints (zs : list (option Z))
| Stamps (ts : list (option Z))
| Dates (ds : list (option Z)).

Record DataFrame : Type := mkDF {
  index : list nat;
  columns : list (string * Series)
}.

(** [len(df)] *)
Definition df_len (df : DataFrame) : nat := length (index df).

(** [df.columns] as a list of names *)
Definition names (df : DataFrame) : list string := (columns df).*1.

(** [name in df.columns] *)
Definition has_column (df : DataFrame) (name : string) : bool :=
  bool_decide (name ∈ names df).

Fixpoint assoc {A} (k : string) (l : list (string * A)) : option A :=
  match l with
  | [] => None
  | (k', v) :: l' => if String.eqb k k' then Some v else assoc k l'
  end.

(** [d[k] = v] on an insertion-ordered dict: an existing key keeps its place. *)
Fixpoint dict_set {A} (k : string) (v : A) (l : list (string * A))
  : list (string * A) :=
  match l with
  | [] => [(k, v)]
  | (k', v') :: l' =>
      if String.eqb k k' then (k, v) :: l' else (k', v') :: dict_set k v l'
  end.

(** [df[name]]: KeyError for a missing column *)
Definition getitem (df : DataFrame) (name : string) : result Series :=
  match assoc name (columns df) with
  | Some s => Ok s
  | None => Raise KeyError
  end.

(** [df[name] = s] *)
Definition setitem (df : DataFrame) (name : string) (s : Series) : DataFrame :=
  mkDF (index df) (dict_set name s (columns df)).

(** Boolean-mask selection. *)
Fixpoint select {A} (mask : list bool) (xs : list A) : list A :=
  match mask, xs with
  | b :: mask', x :: xs' => if b then x :: select mask' xs' else select mask' xs'
  | _, _ => []
  end.

Definition select_series (mask : list bool) (s : Series) : Series :=
  match s with
  | Floats xs => Floats (select mask xs)
  | Ints zs => Ints (select mask zs)
  | Stamps ts => Stamps (select mask ts)
  | Dates ds => Dates (select mask ds)
  end.

(** [df[mask]] *)
Definition df_filter (df : DataFrame) (mask : list bool) : DataFrame :=
  mkDF (select mask (index df))
       (map (fun '(n, s) => (n, select_series mask s)) (columns df)).

(** A float64 column as a list; comparing or reducing a column of another
    dtype is outside the model's data (the specification's metric fields are
    numeric) and is reported as [TypeError]. *)
Definition as_floats (s : Series) : result (list float) :=
  match s with
  | Floats xs => Ok xs
  | Ints zs => Ok (map (option_map inject_Z) zs)
  | _ => Raise TypeError
  end.

(** [Series.dropna()] *)
Definition dropna_floats (xs : list float) : list Q :=
  omap (fun x => x) xs.

Definition dropna (s : Series) : Series :=
  match s with
  | Floats xs => Floats (map Some (dropna_floats xs))
  | Ints zs => Ints (map Some (omap (fun x => x) zs))
  | Stamps ts => Stamps (map Some (omap (fun x => x) ts))
  | Dates ds => Dates (map Some (omap (fun x => x) ds))
  end.

Definition series_len (s : Series) : nat :=
  match s with
  | Floats xs => length xs
  | Ints zs => length zs
  | Stamps ts => length ts
  | Dates ds => length ds
  end.

(** ** The store *)

Abbreviation loc := nat (only parsing).
Abbreviation heap := (list DataFrame) (only parsing).

Definition M (A : Type) : Type := heap -> result A * heap.

Definition ret {A} (a : A) : M A := fun h => (Ok a, h).
Definition raise {A} (e : exn) : M A := fun h => (Raise e, h).
Definition bind {A B} (m : M A) (k : A -> M B) : M B :=
  fun h => match m h with
           | (Ok a, h') => k a h'
           | (Raise e, h') => (Raise e, h')
           end.
Definition lift {A} (r : result A) : M A := fun h => (r, h).

Declare Scope py_scope.
Delimit Scope py_scope with py.
Notation "x <- m ;; k" := (bind m (fun x => k))
  (at level 100, m at next level, right associativity) : py_scope.
Notation "m ;;; k" := (bind m (fun _ => k))
  (at level 100, right associativity) : py_scope.

(** Dereference a DataFrame reference.  The references handed to the
    functions are live; a dangling one, which cannot arise in Python, is
    reported as KeyError. *)
Definition deref (l : loc) : M DataFrame :=
  fun h => match h !! l with
           | Some df => (Ok df, h)
           | None => (Raise KeyError, h)
           end.

(** A new object. *)
Definition alloc (df : DataFrame) : M loc :=
  fun h => (Ok (length h), h ++ [df]).

(** In-place update of the object at [l]. *)
Definition modify (l : loc) (f : DataFrame -> DataFrame) : M unit :=
  fun h => match h !! l with
           | Some df => (Ok tt, <[l := f df]> h)
           | None => (Raise KeyError, h)
           end.

(** [df.copy()] *)
Definition df_copy (l : loc) : M loc :=
  (df <- deref l ;; alloc df)%py.

(** [for x in xs: acc = body(acc, x)] *)
Fixpoint for_each {A B} (xs : list A) (acc : B) (body : B -> A -> M B) : M B :=
  match xs with
  | [] => ret acc
  | x :: xs' => (acc' <- body acc x ;; for_each xs' acc' body)%py
  end.

(** ** Reductions of a float64 column (pandas, [skipna=True]) *)

#[global] Instance Qle_dec (x y : Q) : Decision (x <= y)%Q.
Proof.
  destruct (Qlt_le_dec y x) as [H | H].
  - right. apply Qlt_not_le, H.
  - left. exact H.
Defined.

Definition Qsum (xs : list Q) : Q := foldr Qplus 0%Q xs.

Definition Qlen (xs : list Q) : Q := inject_Z (Z.of_nat (length xs)).

Definition mean_of (xs : list Q) : float :=
  match xs with
  | [] => NaN
  | _ => Some (Qsum xs / Qlen xs)%Q
  end.

(** [Series.mean()] *)
Definition mean (xs : list float) : float := mean_of (dropna_floats xs).

Definition sort (xs : list Q) : list Q := merge_sort Qle xs.

(** [Series.median()] *)
Definition median (xs : list float) : float :=
  let s := sort (dropna_floats xs) in
  let n := length s in
  match s with
  | [] => NaN
  | x0 :: _ =>
      if Nat.even n
      then Some ((nth (n / 2 - 1) s x0 + nth (n / 2) s x0) / 2)%Q
      else Some (nth (n / 2) s x0)
  end.

Fixpoint Qmaximum (x : Q) (xs : list Q) : Q :=
  match xs with
  | [] => x
  | y :: ys => Qmaximum (if Qle_bool x y then y else x) ys
  end.

Fixpoint Qminimum (x : Q) (xs : list Q) : Q :=
  match xs with
  | [] => x
  | y :: ys => Qminimum (if Qle_bool y x then y else x) ys
  end.

(** [Series.max()], [Series.min()] *)
Definition smax (xs : list float) : float :=
  match dropna_floats xs with [] => NaN | x :: ys => Some (Qmaximum x ys) end.
Definition smin (xs : list float) : float :=
  match dropna_floats xs with [] => NaN | x :: ys => Some (Qminimum x ys) end.

(** [Series.count()] *)
Definition count (xs : list float) : nat := length (dropna_floats xs).

(** [Series.quantile(q)] with the default linear interpolation: the value at
    the virtual index [q * (n - 1)] of the sorted non-null sample. *)
Definition interpolate (s : list Q) (x0 : Q) (q : Q) : Q :=
  let n := length s in
  let pos := (q * inject_Z (Z.of_nat (n - 1)))%Q in
  let i := Z.to_nat (Qfloor pos) in
  let frac := (pos - inject_Z (Qfloor pos))%Q in
  let lo := nth i s x0 in
  let hi := nth (Nat.min (i + 1) (n - 1)) s x0 in
  (lo + (hi - lo) * frac)%Q.

Definition quantile_sorted (s : list Q) (q : Q) : float :=
  match s with
  | [] => NaN
  | x0 :: _ => Some (interpolate s x0 q)
  end.

Definition quantile (xs : list float) (q : Q) : float :=
  quantile_sorted (sort (dropna_floats xs)) q.

(** Sample variance with [ddof=1]; NaN below two observations. *)
Definition variance (xs : list Q) : float :=
  match xs with
  | [] | [_] => NaN
  | _ =>
      let m := (Qsum xs / Qlen xs)%Q in
      Some (Qsum (map (fun x => (x - m) * (x - m))%Q xs)
            / inject_Z (Z.of_nat (length xs - 1)))%Q
  end.

(** [DataFrame.round(2)]: round half to even on the scaled value. *)
Definition rint (y : Q) : Z :=
  let f := Qfloor y in
  let d := (y - inject_Z f)%Q in
  if Qle_bool d (1 # 2)
  then (if Qle_bool (1 # 2) d then (if Z.even f then f else f + 1)%Z else f)
  else (f + 1)%Z.

Definition round2 (x : float) : float :=
  match x with
  | None => NaN
  | Some q => Some (inject_Z (rint (q * 100)) / 100)%Q
  end.

(** ** Datetime accessors *)

Definition hour_of (t : Z) : Z := ((t / 3600) mod 24)%Z.
Definition date_of (t : Z) : Z := (t / 86400)%Z.
(** Monday is 0; day 0 of the epoch was a Thursday. *)
Definition dayofweek_of (t : Z) : Z := ((date_of t + 3) mod 7)%Z.

(** The [.dt] accessor exists on datetime columns only. *)
Definition dt (s : Series) : result (list (option Z)) :=
  match s with
  | Stamps ts => Ok ts
  | _ => Raise AttributeError
  end.

Definition dt_hour (ts : list (option Z)) : Series := Ints (map (option_map hour_of) ts).
Definition dt_dayofweek (ts : list (option Z)) : Series :=
  Ints (map (option_map dayofweek_of) ts).
Definition dt_date (ts : list (option Z)) : Series :=
  Dates (map (option_map date_of) ts).

(** Values of a key column.  The source groups and counts by [Hour] and
    [Date] only, which it has just assigned as integer and date columns; a
    float64 key column is not reached and is left outside the model. *)
Definition key_values (s : Series) : result (list (option Z)) :=
  match s with
  | Ints zs => Ok zs
  | Stamps ts => Ok ts
  | Dates ds => Ok ds
  | Floats _ => Raise TypeError
  end.

(** Distinct non-null values ([dropna=True]). *)
Definition distinct (ks : list (option Z)) : list Z :=
  remove_dups (omap (fun x => x) ks).

(** ** Result records *)

Record DescStats : Type := mkStats {
  st_mean : float; st_median : float; st_std : float;
  st_min : float; st_max : float; st_q1 : float; st_q3 : float;
  st_count : nat
}.

Record Distribution : Type := mkDist {
  shapiro_statistic : float; shapiro_p_value : float;
  ks_statistic : float; ks_p_value : float;
  skewness : float; kurtosis : float;
  is_normal : bool
}.

Record Agg : Type := mkAgg { agg_mean : float; agg_max : float; agg_std : float }.

(** A grouped table: one row per group key, one [Agg] per selected column. *)
Definition GroupTable : Type := list (Z * list (string * Agg)).

Record Threshold : Type := mkThreshold {
  warning : float; critical : float; method : string
}.

Record Anomaly : Type := mkAnomaly {
  warning_count : nat; critical_count : nat;
  warning_data : loc; critical_data : loc;
  warning_percentage : float; critical_percentage : float
}.

Definition metrics : list string :=
  ["CPU_Usage"; "Memory_Usage"; "Network_Usage"; "Temperature"].

(** [a / b] on Python integers *)
Definition py_div (a b : nat) : result float :=
  match b with
  | O => Raise ZeroDivisionError
  | S _ => Ok (Some (inject_Z (Z.of_nat a) / inject_Z (Z.of_nat b))%Q)
  end.

(** ** Reading and writing through a reference *)

Definition df_columns (df : loc) : M (list string) :=
  (d <- deref df ;; ret (names d))%py.

Definition len (df : loc) : M nat :=
  (d <- deref df ;; ret (df_len d))%py.

Definition col (df : loc) (name : string) : M Series :=
  (d <- deref df ;; lift (getitem d name))%py.

Definition set_col (df : loc) (name : string) (s : Series) : M unit :=
  modify df (fun d => setitem d name s).

(** [df[df[name] > threshold].copy()] *)
Definition rows_above (df : loc) (name : string) (threshold : float) : M loc :=
  (s <- col df name ;;
   xs <- lift (as_floats s) ;;
   d <- deref df ;;
   alloc (df_filter d (map (fun x => fgt x threshold) xs)))%py.

Section Analysis.

(** The square root of NumPy, on exact rationals. *)
Variable sqrtQ : Q -> Q.

(** [scipy.stats.shapiro], [scipy.stats.kstest(data, 'norm', args=(m, s))],
    [scipy.stats.skew] and [scipy.stats.kurtosis] on a non-null sample. *)
Variable shapiro : list Q -> float * float.
Variable kstest : list Q -> float -> float -> float * float.
Variable skew : list Q -> float.
Variable kurtosis_of : list Q -> float.

(** [Series.std()] *)
Definition std (xs : list float) : float :=
  match variance (dropna_floats xs) with
  | None => NaN
  | Some v => Some (sqrtQ v)
  end.

Definition calculate_descriptive_statistics (df : loc)
  : M (list (string * DescStats)) :=
  for_each metrics [] (fun stats_dict metric =>
    cols <- df_columns df ;;
    if bool_decide (metric ∈ cols) then
      s <- col df metric ;;
      x <- lift (as_floats s) ;;
      ret (dict_set metric
             {| st_mean := mean x; st_median := median x; st_std := std x;
                st_min := smin x; st_max := smax x;
                st_q1 := quantile x (1 # 4); st_q3 := quantile x (3 # 4);
                st_count := count x |} stats_dict)
    else ret stats_dict)%py.

Definition analyze_data_distribution (df : loc)
  : M (list (string * Distribution)) :=
  for_each metrics [] (fun distribution_results metric =>
    cols <- df_columns df ;;
    if bool_decide (metric ∈ cols) then
      s <- col df metric ;;
      x <- lift (as_floats (dropna s)) ;;
      let data := dropna_floats x in
      let shapiro_res :=
        if (length data <=? 5000)%nat then shapiro data else (NaN, NaN) in
      let shapiro_stat := fst shapiro_res in
      let shapiro_p := snd shapiro_res in
      let ks_res := kstest data (mean x) (std x) in
      let ks_stat := fst ks_res in
      let ks_p := snd ks_res in
      let skewness := skew data in
      let kurtosis_val := kurtosis_of data in
      ret (dict_set metric
             {| shapiro_statistic := shapiro_stat;
                shapiro_p_value := shapiro_p;
                ks_statistic := ks_stat;
                ks_p_value := ks_p;
                skewness := skewness;
                kurtosis := kurtosis_val;
                is_normal :=
                  if negb (isnan shapiro_p)
                  then fgt shapiro_p (Some (5 # 100))
                  else fgt ks_p (Some (5 # 100)) |} distribution_results)
    else ret distribution_results)%py.

(** [.agg(['mean', 'max', 'std']).round(2)] of one column within one group *)
Definition agg_group (keys : list (option Z)) (k : Z) (xs : list float) : Agg :=
  let g := select (map (fun ko => bool_decide (ko = Some k)) keys) xs in
  {| agg_mean := round2 (mean g);
     agg_max := round2 (smax g);
     agg_std := round2 (std g) |}.

(** [df.groupby(by_)[cols].agg(['mean', 'max', 'std']).round(2)]: selecting
    a column that the table lacks is a KeyError; null keys are dropped and
    the groups come in key order. *)
Definition groupby_agg (df : loc) (by_ : string) (cols : list string)
  : M GroupTable :=
  (key <- col df by_ ;;
   keys <- lift (key_values key) ;;
   present <- df_columns df ;;
   if negb (forallb (fun c => bool_decide (c ∈ present)) cols)
   then raise KeyError
   else
     selected <- for_each cols [] (fun acc c =>
                   s <- col df c ;;
                   xs <- lift (as_floats s) ;;
                   ret (acc ++ [(c, xs)])) ;;
     ret (map (fun k => (k, map (fun '(c, xs) => (c, agg_group keys k xs)) selected))
              (merge_sort Z.le (distinct keys))))%py.

Definition analyze_time_patterns (df : loc)
  : M (list (string * GroupTable)) :=
  (cols <- df_columns df ;;
   if negb (bool_decide ("Time" ∈ cols)) then raise ValueError
   else
     df <- df_copy df ;;
     t <- col df "Time" ;; ts <- lift (dt t) ;;
     set_col df "Hour" (dt_hour ts) ;;;
     t <- col df "Time" ;; ts <- lift (dt t) ;;
     set_col df "DayOfWeek" (dt_dayofweek ts) ;;;
     t <- col df "Time" ;; ts <- lift (dt t) ;;
     set_col df "Date" (dt_date ts) ;;;
     let time_patterns := [] in
     hourly_stats <- groupby_agg df "Hour" metrics ;;
     let time_patterns := dict_set "hourly" hourly_stats time_patterns in
     date <- col df "Date" ;;
     dates <- lift (key_values date) ;;
     if (1 <? length (distinct dates))%nat then
       daily_stats <- groupby_agg df "Date" metrics ;;
       ret (dict_set "daily" daily_stats time_patterns)
     else ret time_patterns)%py.

Definition calculate_alertness_thresholds (df : loc) (method : string)
  : M (list (string * Threshold)) :=
  for_each metrics [] (fun thresholds metric =>
    cols <- df_columns df ;;
    if bool_decide (metric ∈ cols) then
      s <- col df metric ;;
      let data := dropna s in
      if String.eqb method "percentile" then
        x <- lift (as_floats data) ;;
        ret (dict_set metric
               {| warning := quantile x (90 # 100);
                  critical := quantile x (95 # 100);
                  method := "percentile" |} thresholds)
      else if String.eqb method "std" then
        x <- lift (as_floats data) ;;
        let mean_val := mean x in
        let std_val := std x in
        ret (dict_set metric
               {| warning := fadd mean_val (fmul (Some 2%Q) std_val);
                  critical := fadd mean_val (fmul (Some 3%Q) std_val);
                  method := "standard_deviation" |} thresholds)
      else if String.eqb method "iqr" then
        x <- lift (as_floats data) ;;
        let q1 := quantile x (25 # 100) in
        let q3 := quantile x (75 # 100) in
        let iqr := fsub q3 q1 in
        ret (dict_set metric
               {| warning := fadd q3 (fmul (Some (15 # 10)) iqr);
                  critical := fadd q3 (fmul (Some 3%Q) iqr);
                  method := "iqr" |} thresholds)
      else ret thresholds
    else ret thresholds)%py.

End Analysis.

(** One iteration of the loop of [detect_anomalies]. *)
Definition detect_metric (df : loc) (anomalies : list (string * Anomaly))
           (item : string * Threshold) : M (list (string * Anomaly)) :=
  (let metric := fst item in
   let threshold_values := snd item in
   cols <- df_columns df ;;
   if bool_decide (metric ∈ cols) then
     let warning_threshold := warning threshold_values in
     let critical_threshold := critical threshold_values in
     warning_anomalies <- rows_above df metric warning_threshold ;;
     critical_anomalies <- rows_above df metric critical_threshold ;;
     nw <- len warning_anomalies ;;
     nc <- len critical_anomalies ;;
     n <- len df ;;
     pw <- lift (py_div nw n) ;;
     pc <- lift (py_div nc n) ;;
     ret (dict_set metric
            {| warning_count := nw;
               critical_count := nc;
               warning_data := warning_anomalies;
               critical_data := critical_anomalies;
               warning_percentage := fmul pw (Some 100%Q);
               critical_percentage := fmul pc (Some 100%Q) |} anomalies)
   else ret anomalies)%py.

Definition detect_anomalies (df : loc) (thresholds : list (string * Threshold))
  : M (list (string * Anomaly)) :=
  for_each thresholds [] (detect_metric df).

(** * Definitions used to state and prove the properties *)

(** ** Reasoning about the store monad *)

(** [wp m h Q]: running [m] from the store [h] ends in a result and a store
    that satisfy [Q]. *)
Definition wp {A} (m : M A) (h : heap) (Q : result A -> heap -> Prop) : Prop :=
  Q (m h).1 (m h).2.

(** Computations that only read the store. *)
Definition readonly {A} (m : M A) : Prop := forall h, (m h).2 = h.

(** Computations that leave the first [n] objects of the store alone. *)
Definition keeps (n : nat) {A} (m : M A) : Prop :=
  forall h, n <= length h ->
    take n (m h).2 = take n h /\ length h <= length (m h).2.

(** Computations whose exceptions all satisfy [P]. *)
Definition raises_only (P : exn -> Prop) {A} (m : M A) : Prop :=
  forall h e h', m h = (Raise e, h') -> P e.

(** ** Loops written as folds *)

(** What one iteration does with the entry computed for [k]: store it, skip
    the key, or propagate the exception. *)
Definition store {V} (k : string) (acc : list (string * V))
           (r : result (option V)) : result (list (string * V)) :=
  match r with
  | Ok (Some v) => Ok (dict_set k v acc)
  | Ok None => Ok acc
  | Raise e => Raise e
  end.

Fixpoint fold_entries {V} (entry : string -> result (option V))
         (keys : list string) (acc : list (string * V))
  : result (list (string * V)) :=
  match keys with
  | [] => Ok acc
  | k :: ks =>
      match store k acc (entry k) with
      | Ok acc' => fold_entries entry ks acc'
      | Raise e => Raise e
      end
  end.

(** A loop whose body only reads the store, as a fold over its items. *)
Fixpoint fold_result {A B} (step : B -> A -> result B) (xs : list A) (acc : B)
  : result B :=
  match xs with
  | [] => Ok acc
  | x :: xs' =>
      match step acc x with
      | Ok acc' => fold_result step xs' acc'
      | Raise e => Raise e
      end
  end.

(** ** The entry of one metric column *)

(** The record that the calculator stores for a column whose non-null data
    is [x], if the method is one of the three it knows. *)
Definition threshold_of (sqrtQ : Q -> Q) (method : string) (x : list float)
  : option Threshold :=
  if String.eqb method "percentile" then
    Some {| warning := quantile x (90 # 100);
            critical := quantile x (95 # 100);
            method := "percentile" |}
  else if String.eqb method "std" then
    Some {| warning := fadd (mean x) (fmul (Some 2%Q) (std sqrtQ x));
            critical := fadd (mean x) (fmul (Some 3%Q) (std sqrtQ x));
            method := "standard_deviation" |}
  else if String.eqb method "iqr" then
    Some {| warning := fadd (quantile x (75 # 100))
                            (fmul (Some (15 # 10))
                                  (fsub (quantile x (75 # 100)) (quantile x (25 # 100))));
            critical := fadd (quantile x (75 # 100))
                             (fmul (Some 3%Q)
                                   (fsub (quantile x (75 # 100)) (quantile x (25 # 100))));
            method := "iqr" |}
  else None.

Definition known_method (method : string) : bool :=
  String.eqb method "percentile" || String.eqb method "std"
  || String.eqb method "iqr".

Definition threshold_entry (sqrtQ : Q -> Q) (d : DataFrame) (method metric : string)
  : result (option Threshold) :=
  match getitem d metric with
  | Raise _ => Ok None
  | Ok s =>
      if known_method method then
        match as_floats (dropna s) with
        | Ok x => Ok (threshold_of sqrtQ method x)
        | Raise e => Raise e
        end
      else Ok None
  end.

(** The record of descriptive statistics of a column whose values are [x]. *)
Definition descriptive_of (sqrtQ : Q -> Q) (x : list float) : DescStats :=
  {| st_mean := mean x; st_median := median x; st_std := std sqrtQ x;
     st_min := smin x; st_max := smax x;
     st_q1 := quantile x (1 # 4); st_q3 := quantile x (3 # 4);
     st_count := count x |}.

Definition descriptive_entry (sqrtQ : Q -> Q) (d : DataFrame) (metric : string)
  : result (option DescStats) :=
  match getitem d metric with
  | Raise _ => Ok None
  | Ok s =>
      match as_floats s with
      | Ok x => Ok (Some (descriptive_of sqrtQ x))
      | Raise e => Raise e
      end
  end.

Section DistributionRecord.

Variable sqrtQ : Q -> Q.
Variable shapiro : list Q -> float * float.
Variable kstest : list Q -> float -> float -> float * float.
Variable skew : list Q -> float.
Variable kurtosis_of : list Q -> float.

(** The record stored for a column whose values without nulls are [x]. *)
Definition distribution_of (x : list float) : Distribution :=
  let data := dropna_floats x in
  let shapiro_res :=
    if (length data <=? 5000)%nat then shapiro data else (NaN, NaN) in
  let ks_res := kstest data (mean x) (std sqrtQ x) in
  {| shapiro_statistic := fst shapiro_res;
     shapiro_p_value := snd shapiro_res;
     ks_statistic := fst ks_res;
     ks_p_value := snd ks_res;
     skewness := skew data;
     kurtosis := kurtosis_of data;
     is_normal :=
       if negb (isnan (snd shapiro_res))
       then fgt (snd shapiro_res) (Some (5 # 100))
       else fgt (snd ks_res) (Some (5 # 100)) |}.

Definition distribution_entry (d : DataFrame) (metric : string)
  : result (option Distribution) :=
  match getitem d metric with
  | Raise _ => Ok None
  | Ok s =>
      match as_floats (dropna s) with
      | Ok x => Ok (Some (distribution_of x))
      | Raise e => Raise e
      end
  end.

End DistributionRecord.

(** A threshold pair that cannot select a row as critical without selecting
    it as warning: the critical cutoff is NaN, or both are numbers in
    order. *)
Definition ordered (t : Threshold) : Prop :=
  critical t = NaN \/
  exists w c, warning t = Some w /\ critical t = Some c /\ (w <= c)%Q.

(** ** Tables with numeric metric columns *)

Definition is_numeric (s : Series) : bool :=
  match s with Floats _ | Ints _ => true | _ => false end.

(** The metric columns that the table has are float64 or integer columns. *)
Definition numeric_metrics (d : DataFrame) : bool :=
  forallb (fun m => match getitem d m with
                    | Ok s => is_numeric s
                    | Raise _ => true
                    end) metrics.

(** The table has the four metric columns. *)
Definition has_all_metrics (d : DataFrame) : bool :=
  forallb (has_column d) metrics.

(** [df[name]] as numbers. *)
Definition numeric_col (d : DataFrame) (name : string) : result (list float) :=
  match getitem d name with
  | Ok s => as_floats s
  | Raise e => Raise e
  end.

(** ** The row sets of the anomaly detector *)

(** The mask [df[name] > threshold] and the rows it selects. *)
Definition gt_mask (xs : list float) (threshold : float) : list bool :=
  map (fun x => fgt x threshold) xs.

Definition above (d : DataFrame) (xs : list float) (threshold : float) : DataFrame :=
  df_filter d (gt_mask xs threshold).

(** The record stored for a metric whose two row sets were allocated at
    [lw] and [lc]. *)
Definition anomaly_record (d dw dc : DataFrame) (lw lc : loc) : result Anomaly :=
  match py_div (df_len dw) (df_len d) with
  | Raise e => Raise e
  | Ok pw =>
      match py_div (df_len dc) (df_len d) with
      | Raise e => Raise e
      | Ok pc =>
          Ok {| warning_count := df_len dw;
                critical_count := df_len dc;
                warning_data := lw;
                critical_data := lc;
                warning_percentage := fmul pw (Some 100%Q);
                critical_percentage := fmul pc (Some 100%Q) |}
      end
  end.

(** The two row sets of an entry, as they stand in the store [h]: both are
    selections from the table [d] by [column > cutoff], and every position
    selected by the critical cutoff is selected by the warning cutoff. *)
Definition nested_rows (d : DataFrame) (h : heap) (a : Anomaly) : Prop :=
  exists xs w c,
    h !! warning_data a = Some (above d xs w) /\
    h !! critical_data a = Some (above d xs c) /\
    forall x, fgt x c = true -> fgt x w = true.

(** The copy of the table after the three derived columns are assigned. *)
Definition with_time_columns (d : DataFrame) (ts : list (option Z)) : DataFrame :=
  setitem (setitem (setitem d "Hour" (dt_hour ts))
                   "DayOfWeek" (dt_dayofweek ts))
          "Date" (dt_date ts).

(** ** Tables to run the definitions on *)

(** A rational approximation of the square root (four decimals, rounded
    down). *)
Definition sqrt_approx (q : Q) : Q :=
  (inject_Z (Z.sqrt (Qnum q * Zpos (Qden q) * 100000000))
   / inject_Z (Zpos (Qden q) * 10000))%Q.

Definition num (z : Z) : float := Some (inject_Z z).

(** Five readings over two calendar days, all four metrics. *)
Definition server_table : DataFrame :=
  mkDF [0; 1; 2; 3; 4]%nat
       [("Time", Stamps [Some 0; Some 3600; Some 7200; Some 90000; Some 93600]%Z);
        ("CPU_Usage", Floats [num 70; num 80; num 90; num 95; num 99]);
        ("Memory_Usage", Floats [num 8; num 9; num 12; num 16; num 10]);
        ("Network_Usage", Floats [num 120; num 150; num 180; num 200; num 90]);
        ("Temperature", Floats [num 40; num 42; NaN; num 55; num 47])].

(** Three readings on one calendar day. *)
Definition single_day_table : DataFrame :=
  mkDF [0; 1; 2]%nat
       [("Time", Stamps [Some 0; Some 3600; Some 7200]%Z);
        ("CPU_Usage", Floats [num 70; num 80; num 90]);
        ("Memory_Usage", Floats [num 8; num 9; num 12]);
        ("Network_Usage", Floats [num 120; num 150; num 180]);
        ("Temperature", Floats [num 40; num 42; num 41])].

(** A table with a timestamp and the CPU metric only. *)
Definition cpu_only_table : DataFrame :=
  mkDF [0; 1; 2]%nat
       [("Time", Stamps [Some 0; Some 3600; Some 90000]%Z);
        ("CPU_Usage", Floats [num 70; num 80; num 90])].

(** A table with its columns and no row. *)
Definition empty_table : DataFrame :=
  mkDF [] [("Time", Stamps []); ("CPU_Usage", Floats [])].

(** One reading. *)
Definition single_row_table : DataFrame :=
  mkDF [0]%nat [("Time", Stamps [Some 0%Z]); ("CPU_Usage", Floats [num 50])].

(** A table whose timestamp column is named [dteday]. *)
Definition dteday_table : DataFrame :=
  mkDF [0; 1]%nat
       [("dteday", Stamps [Some 0; Some 86400]%Z);
        ("CPU_Usage", Floats [num 70; num 80]);
        ("Memory_Usage", Floats [num 8; num 9]);
        ("Network_Usage", Floats [num 120; num 150]);
        ("Temperature", Floats [num 40; num 42])].

(** Stand-ins for the SciPy tests, to run the distribution analyzer. *)
Definition sample_shapiro (data : list Q) : float * float :=
  (Some (98 # 100), Some (40 # 100)).
Definition sample_kstest (data : list Q) (m s : float) : float * float :=
  (Some (15 # 100), Some (80 # 100)).
Definition sample_moment (data : list Q) : float := Some 0%Q.

(** A Shapiro-Wilk test that has no result for a sample of fewer than three
    values and returns NaN for it. *)
Definition small_sample_shapiro (data : list Q) : float * float :=
  if (length data <? 3)%nat then (NaN, NaN)
  else (Some (98 # 100), Some (40 # 100)).

(** The thresholds of [server_table] by percentiles, and a threshold map
    that also names a column the table lacks. *)
Definition server_thresholds : list (string * Threshold) :=
  Eval vm_compute in
    match (calculate_alertness_thresholds sqrt_approx 0 "percentile" [server_table]).1 with
    | Ok ths => ths
    | Raise _ => []
    end.

Definition mixed_thresholds : list (string * Threshold) :=
  [("CPU_Usage", mkThreshold (num 85) (num 96) "percentile");
   ("Disk_Usage", mkThreshold (num 85) (num 96) "percentile")].

(** ** Well-formed tables *)

(** Every column has one value per row. *)
Definition well_formed (d : DataFrame) : bool :=
  forallb (fun c => Nat.eqb (series_len c.2) (df_len d)) (columns d).

(** ** Entries and data of the per-metric stages *)

(** An entry function produces a value for the key. *)
Definition produces {V} (r : result (option V)) : bool :=
  match r with Ok (Some _) => true | _ => false end.

(** The data of a column are too few for the method: no non-null value, or
    fewer than two for the std method (sample standard deviation). *)
Definition insufficient (sel : string) (xs : list float) : bool :=
  if String.eqb sel "std" then (count xs <? 2)%nat else (count xs =? 0)%nat.

(** ** The recommendation generator *)

(** A recommendation is one of nine messages.  The model keeps which message
    it is and the number (or the hours) that the message formats, not its
    text. *)
Inductive Recommendation : Type :=
| HighCpuUsage (x : float)
| ModerateCpuUsage (x : float)
| CpuSpikes (x : float)
| MemoryConcern (x : float)
| MemoryVariability (x : float)
| NetworkSaturation
| HighNetworkUsage (x : float)
| PeakHoursIdentified (peak_hours : list Z)
| TemperatureAlert (x : float).

(** A grouped table as the DataFrame that it is: the first level of its
    column labels, and its rows.  The tables that [analyze_time_patterns]
    builds select the four metrics, which are their labels also when they
    have no row. *)
Record GroupFrame : Type := mkFrame {
  level0 : list string;
  rows : GroupTable
}.

(** [frame[(c, 'mean')]]: the means of column [c], indexed by group key. *)
Definition mean_column (frame : GroupFrame) (c : string)
  : result (list (Z * float)) :=
  if forallb (fun row => bool_decide (c ∈ row.2.*1)) (rows frame)
  then Ok (map (fun row => (row.1, match assoc c row.2 with
                                   | Some a => agg_mean a
                                   | None => NaN
                                   end)) (rows frame))
  else Raise KeyError.

Section Recommendations.

(** [Series.nlargest(n)] of pandas, on a Series given by its (label, value)
    pairs. *)
Variable nlargest : nat -> list (Z * float) -> list (Z * float).

Definition generate_optimization_recommendations
    (stats_dict : list (string * DescStats))
    (anomalies : list (string * Anomaly))
    (time_patterns : list (string * GroupFrame))
  : result (list Recommendation) :=
  let recommendations := [] in
  (* CPU Analysis *)
  let recommendations :=
    match assoc "CPU_Usage" stats_dict with
    | Some cpu_stats =>
        let cpu_anomalies := assoc "CPU_Usage" anomalies in
        let recommendations :=
          if fgt (st_mean cpu_stats) (Some 75%Q)
          then recommendations ++ [HighCpuUsage (st_mean cpu_stats)]
          else if fgt (st_mean cpu_stats) (Some 60%Q)
          then recommendations ++ [ModerateCpuUsage (st_mean cpu_stats)]
          else recommendations in
        let critical := match cpu_anomalies with
                        | Some a => critical_percentage a
                        | None => Some 0%Q
                        end in
        if fgt critical (Some 5%Q)
        then recommendations ++ [CpuSpikes critical]
        else recommendations
    | None => recommendations
    end in
  (* Memory Analysis *)
  let recommendations :=
    match assoc "Memory_Usage" stats_dict with
    | Some mem_stats =>
        let recommendations :=
          if fgt (st_max mem_stats) (Some 15%Q)
          then recommendations ++ [MemoryConcern (st_max mem_stats)]
          else recommendations in
        if fgt (st_std mem_stats) (Some 2%Q)
        then recommendations ++ [MemoryVariability (st_std mem_stats)]
        else recommendations
    | None => recommendations
    end in
  (* Network Analysis *)
  let recommendations :=
    match assoc "Network_Usage" stats_dict with
    | Some net_stats =>
        let recommendations :=
          if fge (st_max net_stats) (Some 200%Q)
          then recommendations ++ [NetworkSaturation]
          else recommendations in
        if fgt (st_mean net_stats) (Some 150%Q)
        then recommendations ++ [HighNetworkUsage (st_mean net_stats)]
        else recommendations
    | None => recommendations
    end in
  (* Time-based recommendations *)
  match
    match assoc "hourly" time_patterns with
    | Some hourly_data =>
        if bool_decide ("CPU_Usage" ∈ level0 hourly_data) then
          match mean_column hourly_data "CPU_Usage" with
          | Ok means =>
              let peak_hours := (nlargest 3 means).*1 in
              Ok (recommendations ++ [PeakHoursIdentified peak_hours])
          | Raise e => Raise e
          end
        else Ok recommendations
    | None => Ok recommendations
    end
  with
  | Raise e => Raise e
  | Ok recommendations =>
      (* Temperature recommendations *)
      Ok match assoc "Temperature" stats_dict with
         | Some temp_stats =>
             if fgt (st_max temp_stats) (Some 50%Q)
             then recommendations ++ [TemperatureAlert (st_max temp_stats)]
             else recommendations
         | None => recommendations
         end
  end.

End Recommendations.

(** The place of a message in the fixed sequence of the rules. *)
Definition slot (r : Recommendation) : nat :=
  match r with
  | HighCpuUsage _ | ModerateCpuUsage _ => 0
  | CpuSpikes _ => 1
  | MemoryConcern _ => 2
  | MemoryVariability _ => 3
  | NetworkSaturation => 4
  | HighNetworkUsage _ => 5
  | PeakHoursIdentified _ => 6
  | TemperatureAlert _ => 7
  end.

(** The tables of the time-pattern aggregator as DataFrames. *)
Definition frames (time_patterns : list (string * GroupTable))
  : list (string * GroupFrame) :=
  map (fun '(name, table) => (name, mkFrame metrics table)) time_patterns.

(** The rules of the generator one by one: what each block of the source
    contributes to the list. *)
Definition cpu_rules (stats_dict : list (string * DescStats))
    (anomalies : list (string * Anomaly)) : list Recommendation :=
  match assoc "CPU_Usage" stats_dict with
  | Some cpu_stats =>
      (if fgt (st_mean cpu_stats) (Some 75%Q) then [HighCpuUsage (st_mean cpu_stats)]
       else if fgt (st_mean cpu_stats) (Some 60%Q)
            then [ModerateCpuUsage (st_mean cpu_stats)]
            else [])
      ++ (let critical := match assoc "CPU_Usage" anomalies with
                          | Some a => critical_percentage a
                          | None => Some 0%Q
                          end in
          if fgt critical (Some 5%Q) then [CpuSpikes critical] else [])
  | None => []
  end.

Definition memory_rules (stats_dict : list (string * DescStats))
  : list Recommendation :=
  match assoc "Memory_Usage" stats_dict with
  | Some mem_stats =>
      (if fgt (st_max mem_stats) (Some 15%Q) then [MemoryConcern (st_max mem_stats)]
       else [])
      ++ (if fgt (st_std mem_stats) (Some 2%Q)
          then [MemoryVariability (st_std mem_stats)] else [])
  | None => []
  end.

Definition network_rules (stats_dict : list (string * DescStats))
  : list Recommendation :=
  match assoc "Network_Usage" stats_dict with
  | Some net_stats =>
      (if fge (st_max net_stats) (Some 200%Q) then [NetworkSaturation] else [])
      ++ (if fgt (st_mean net_stats) (Some 150%Q)
          then [HighNetworkUsage (st_mean net_stats)] else [])
  | None => []
  end.

Definition peak_rule (nlargest : nat -> list (Z * float) -> list (Z * float))
    (time_patterns : list (string * GroupFrame))
  : result (list Recommendation) :=
  match assoc "hourly" time_patterns with
  | Some hourly_data =>
      if bool_decide ("CPU_Usage" ∈ level0 hourly_data) then
        match mean_column hourly_data "CPU_Usage" with
        | Ok means => Ok [PeakHoursIdentified (nlargest 3 means).*1]
        | Raise e => Raise e
        end
      else Ok []
  | None => Ok []
  end.

Definition temperature_rules (stats_dict : list (string * DescStats))
  : list Recommendation :=
  match assoc "Temperature" stats_dict with
  | Some temp_stats =>
      if fgt (st_max temp_stats) (Some 50%Q)
      then [TemperatureAlert (st_max temp_stats)] else []
  | None => []
  end.

(** A stand-in for [Series.nlargest], to run the generator: the non-null
    entries in descending order of their value, the first [n] of them. *)
Definition sample_nlargest (n : nat) (series : list (Z * float)) : list (Z * float) :=
  take n (@merge_sort (Z * float) (fun a b => fge a.2 b.2 = true)
                      (fun a b => bool_eq_dec (fge a.2 b.2) true)
                      (List.filter (fun a => negb (isnan a.2)) series)).

(** Statistics to run the generator on. *)
Definition sample_stats : list (string * DescStats) :=
  [("CPU_Usage", mkStats (num 80) (num 80) (num 10) (num 70) (num 99)
                         (num 75) (num 95) 5);
   ("Temperature", mkStats (num 46) (num 45) (num 6) (num 40) (num 55)
                           (num 42) (num 47) 4)].

(** * Properties *)

(** ** Rules for the store monad *)

Lemma wp_run {A} (m : M A) h Q r h' :
  wp m h Q -> m h = (r, h') -> Q r h'.
Proof. unfold wp. intros HQ E. rewrite E in HQ. exact HQ. Qed.

Lemma wp_mono {A} (m : M A) h (Q Q' : result A -> heap -> Prop) :
  wp m h Q -> (forall r h', Q r h' -> Q' r h') -> wp m h Q'.
Proof. unfold wp. auto. Qed.

Lemma wp_ret {A} (a : A) h Q : Q (Ok a) h -> wp (ret a) h Q.
Proof. auto. Qed.

Lemma wp_raise {A} e h (Q : result A -> heap -> Prop) :
  Q (Raise e) h -> wp (raise e) h Q.
Proof. auto. Qed.

Lemma wp_lift {A} (r : result A) h Q : Q r h -> wp (lift r) h Q.
Proof. auto. Qed.

Lemma wp_bind {A B} (m : M A) (k : A -> M B) h Q :
  wp m h (fun r h' => match r with
                      | Ok a => wp (k a) h' Q
                      | Raise e => Q (Raise e) h'
                      end) ->
  wp (bind m k) h Q.
Proof.
  unfold wp, bind. destruct (m h) as [[a | e] h']; simpl; auto.
Qed.

Lemma wp_deref l h Q :
  (forall d, h !! l = Some d -> Q (Ok d) h) ->
  (h !! l = None -> Q (Raise KeyError) h) ->
  wp (deref l) h Q.
Proof.
  unfold wp, deref. intros H1 H2. destruct (h !! l) eqn:E; simpl; auto.
Qed.

Lemma wp_deref_live l h d Q :
  h !! l = Some d -> Q (Ok d) h -> wp (deref l) h Q.
Proof. unfold wp, deref. intros ->. auto. Qed.

Lemma wp_df_columns l h d Q :
  h !! l = Some d -> Q (Ok (names d)) h -> wp (df_columns l) h Q.
Proof.
  intros Hl HQ. apply wp_bind, (wp_deref_live _ _ d); [done |]. by apply wp_ret.
Qed.

Lemma wp_len l h d Q :
  h !! l = Some d -> Q (Ok (df_len d)) h -> wp (len l) h Q.
Proof.
  intros Hl HQ. apply wp_bind, (wp_deref_live _ _ d); [done |]. by apply wp_ret.
Qed.

Lemma wp_col l name h d Q :
  h !! l = Some d -> Q (getitem d name) h -> wp (col l name) h Q.
Proof.
  intros Hl HQ. apply wp_bind, (wp_deref_live _ _ d); [done |]. by apply wp_lift.
Qed.

Lemma wp_alloc d h Q : Q (Ok (length h)) (h ++ [d]) -> wp (alloc d) h Q.
Proof. auto. Qed.

Lemma wp_modify l f h d Q :
  h !! l = Some d -> Q (Ok tt) (<[l := f d]> h) -> wp (modify l f) h Q.
Proof. unfold wp, modify. intros ->. auto. Qed.

(** The loop rule: an invariant over the items already visited. *)
Lemma wp_for_each {A B} (I : list A -> B -> heap -> Prop)
      (xs : list A) (body : B -> A -> M B) (Q : result B -> heap -> Prop) :
  forall done acc h,
    I done acc h ->
    (forall done' x acc h,
        I done' acc h ->
        wp (body acc x) h (fun r h' => match r with
                                       | Ok acc' => I (done' ++ [x]) acc' h'
                                       | Raise e => Q (Raise e) h'
                                       end)) ->
    (forall acc h, I (done ++ xs) acc h -> Q (Ok acc) h) ->
    wp (for_each xs acc body) h Q.
Proof.
  induction xs as [| x xs IH]; intros done acc h HI Hbody Hend.
  - apply wp_ret, Hend. by rewrite app_nil_r.
  - simpl. apply wp_bind. eapply wp_mono; [apply (Hbody done x acc h HI) |].
    intros [acc' | e] h' H'; [| exact H'].
    apply (IH (done ++ [x])); [exact H' | exact Hbody |].
    intros acc'' h''. rewrite <- app_assoc. apply Hend.
Qed.

(** ** Computations that only read the store *)

Lemma readonly_ret {A} (a : A) : readonly (ret a).
Proof. done. Qed.
Lemma readonly_raise {A} e : readonly (@raise A e).
Proof. done. Qed.
Lemma readonly_lift {A} (r : result A) : readonly (lift r).
Proof. done. Qed.
Lemma readonly_deref l : readonly (deref l).
Proof. intros h. unfold deref. by destruct (h !! l). Qed.

Lemma readonly_bind {A B} (m : M A) (k : A -> M B) :
  readonly m -> (forall a, readonly (k a)) -> readonly (bind m k).
Proof.
  intros Hm Hk h. unfold bind. specialize (Hm h).
  destruct (m h) as [[a | e] h']; simpl in *; subst; [apply Hk | done].
Qed.

Lemma readonly_for_each {A B} (xs : list A) (body : B -> A -> M B) acc :
  (forall acc x, readonly (body acc x)) -> readonly (for_each xs acc body).
Proof.
  intros Hb. revert acc. induction xs as [| x xs IH]; intros acc; simpl.
  - apply readonly_ret.
  - apply readonly_bind; [apply Hb | intros a; apply IH].
Qed.

Lemma readonly_if {A} (b : bool) (m1 m2 : M A) :
  readonly m1 -> readonly m2 -> readonly (if b then m1 else m2).
Proof. by destruct b. Qed.

Lemma readonly_df_columns l : readonly (df_columns l).
Proof. apply readonly_bind; [apply readonly_deref | intros; apply readonly_ret]. Qed.
Lemma readonly_len l : readonly (len l).
Proof. apply readonly_bind; [apply readonly_deref | intros; apply readonly_ret]. Qed.
Lemma readonly_col l name : readonly (col l name).
Proof. apply readonly_bind; [apply readonly_deref | intros; apply readonly_lift]. Qed.

Create HintDb readonly.
#[global] Hint Resolve readonly_ret readonly_raise readonly_lift readonly_deref
  readonly_df_columns readonly_len readonly_col : readonly.

Ltac readonly_tac :=
  repeat first
    [ apply readonly_for_each; intros
    | apply readonly_bind; [| intros]
    | apply readonly_if
    | solve [auto with readonly] ].

Lemma readonly_descriptive sqrtQ df :
  readonly (calculate_descriptive_statistics sqrtQ df).
Proof. unfold calculate_descriptive_statistics. readonly_tac. Qed.

Lemma readonly_distribution sqrtQ shapiro kstest skew kurt df :
  readonly (analyze_data_distribution sqrtQ shapiro kstest skew kurt df).
Proof. unfold analyze_data_distribution. readonly_tac. Qed.

Lemma readonly_thresholds sqrtQ df method :
  readonly (calculate_alertness_thresholds sqrtQ df method).
Proof. unfold calculate_alertness_thresholds. readonly_tac. Qed.

Lemma readonly_groupby sqrtQ df by_ cols :
  readonly (groupby_agg sqrtQ df by_ cols).
Proof. unfold groupby_agg. readonly_tac. Qed.

(** ** Computations that leave the first [n] objects of the store alone *)

Lemma keeps_readonly {A} n (m : M A) : readonly m -> keeps n m.
Proof. intros Hm h _. rewrite Hm. split; [done | lia]. Qed.

Lemma keeps_alloc n d : keeps n (alloc d).
Proof.
  intros h Hn. simpl. split.
  - by rewrite take_app_le.
  - rewrite length_app. lia.
Qed.

Lemma keeps_modify n l f : n <= l -> keeps n (modify l f).
Proof.
  intros Hl h Hn. unfold modify. destruct (h !! l); simpl; [| split; [done | lia]].
  split; [by apply take_insert_ge | by rewrite length_insert].
Qed.

(** The continuation may rely on the value having been returned from a store
    of at least [n] objects. *)
Lemma keeps_bind {A B} n (m : M A) (k : A -> M B) :
  keeps n m ->
  (forall a, (exists h h', n <= length h /\ m h = (Ok a, h')) -> keeps n (k a)) ->
  keeps n (bind m k).
Proof.
  intros Hm Hk h Hn. unfold bind. destruct (Hm h Hn) as [Ht Hlen].
  destruct (m h) as [[a | e] h'] eqn:E; simpl in *; [| done].
  destruct (Hk a (ex_intro _ h (ex_intro _ h' (conj Hn E))) h') as [Ht' Hlen'];
    [lia |].
  split; [congruence | lia].
Qed.

Lemma keeps_for_each {A B} n (xs : list A) (body : B -> A -> M B) acc :
  (forall acc x, keeps n (body acc x)) -> keeps n (for_each xs acc body).
Proof.
  intros Hb. revert acc. induction xs as [| x xs IH]; intros acc; simpl.
  - apply keeps_readonly, readonly_ret.
  - apply keeps_bind; [apply Hb | intros a _; apply IH].
Qed.

Lemma keeps_if {A} n (b : bool) (m1 m2 : M A) :
  keeps n m1 -> keeps n m2 -> keeps n (if b then m1 else m2).
Proof. by destruct b. Qed.

Lemma keeps_df_copy n l : keeps n (df_copy l).
Proof.
  apply keeps_bind; [apply keeps_readonly, readonly_deref |].
  intros; apply keeps_alloc.
Qed.

Lemma df_copy_fresh l h l' h' : df_copy l h = (Ok l', h') -> l' = length h.
Proof.
  unfold df_copy, bind, deref, alloc. destruct (h !! l); simpl; congruence.
Qed.

Lemma keeps_rows_above n df name threshold :
  keeps n (rows_above df name threshold).
Proof.
  unfold rows_above.
  repeat (apply keeps_bind; [apply keeps_readonly; auto with readonly | intros ? _]).
  apply keeps_alloc.
Qed.

Lemma keeps_detect_anomalies n df thresholds :
  keeps n (detect_anomalies df thresholds).
Proof.
  unfold detect_anomalies. apply keeps_for_each. intros acc [metric t].
  unfold detect_metric; simpl.
  apply keeps_bind; [apply keeps_readonly; auto with readonly | intros cols _].
  apply keeps_if; [| apply keeps_readonly, readonly_ret].
  do 2 (apply keeps_bind; [apply keeps_rows_above | intros ? _]).
  repeat (apply keeps_bind; [apply keeps_readonly; auto with readonly | intros ? _]).
  apply keeps_readonly, readonly_ret.
Qed.

Lemma keeps_time_patterns n sqrtQ df :
  keeps n (analyze_time_patterns sqrtQ df).
Proof.
  unfold analyze_time_patterns.
  apply keeps_bind; [apply keeps_readonly; auto with readonly | intros cols _].
  apply keeps_if; [apply keeps_readonly, readonly_raise |].
  apply keeps_bind; [apply keeps_df_copy |].
  intros l (h & h' & Hn & Hl). apply df_copy_fresh in Hl. subst l.
  do 3 (apply keeps_bind; [apply keeps_readonly; auto with readonly | intros ? _];
        apply keeps_bind; [apply keeps_readonly; auto with readonly | intros ? _];
        apply keeps_bind; [apply keeps_modify; lia | intros ? _]).
  apply keeps_bind; [apply keeps_readonly, readonly_groupby | intros ? _].
  apply keeps_bind; [apply keeps_readonly; auto with readonly | intros ? _].
  apply keeps_bind; [apply keeps_readonly; auto with readonly | intros ? _].
  apply keeps_if; [| apply keeps_readonly, readonly_ret].
  apply keeps_bind; [apply keeps_readonly, readonly_groupby | intros ? _].
  apply keeps_readonly, readonly_ret.
Qed.

Lemma keeps_unchanged {A} (m : M A) h :
  keeps (length h) m -> take (length h) (m h).2 = h.
Proof.
  intros Hm. destruct (Hm h) as [Ht _]; [done |]. by rewrite Ht, firstn_all.
Qed.

(** C9.  No analysis component mutates the source observation table: every
    DataFrame of the store before a call of the descriptive statistics, the
    distribution analysis, the time-pattern aggregation, the threshold
    calculation or the anomaly detection (the argument among them) is the
    same object with the same contents after the call, whether the call
    returns or raises; what the time-pattern aggregator and the anomaly
    detector write goes to objects allocated after them. *)
Theorem analysis_components_do_not_mutate_the_table :
  forall sqrtQ shapiro kstest skew kurt (df : loc) (method : string)
         (thresholds : list (string * Threshold)) (h : heap),
    take (length h) (calculate_descriptive_statistics sqrtQ df h).2 = h /\
    take (length h)
         (analyze_data_distribution sqrtQ shapiro kstest skew kurt df h).2 = h /\
    take (length h) (analyze_time_patterns sqrtQ df h).2 = h /\
    take (length h) (calculate_alertness_thresholds sqrtQ df method h).2 = h /\
    take (length h) (detect_anomalies df thresholds h).2 = h.
Proof.
  intros. repeat split; apply keeps_unchanged.
  - apply keeps_readonly, readonly_descriptive.
  - apply keeps_readonly, readonly_distribution.
  - apply keeps_time_patterns.
  - apply keeps_readonly, readonly_thresholds.
  - apply keeps_detect_anomalies.
Qed.

(** ** Dictionaries and column lookup *)

Lemma assoc_Some_elem {A} k (l : list (string * A)) v :
  assoc k l = Some v -> k ∈ l.*1.
Proof.
  induction l as [| [k' v'] l IH]; simpl; [done |].
  destruct (String.eqb_spec k k') as [-> | Hne]; intros H.
  - apply list_elem_of_here.
  - apply list_elem_of_further, IH, H.
Qed.

Lemma assoc_elem_Some {A} k (l : list (string * A)) :
  k ∈ l.*1 -> is_Some (assoc k l).
Proof.
  induction l as [| [k' v'] l IH]; simpl; intros H.
  - by apply elem_of_nil in H.
  - destruct (String.eqb_spec k k') as [-> | Hne]; [by eexists |].
    apply IH. apply elem_of_cons in H as [H | H]; [done | exact H].
Qed.

Lemma assoc_is_Some {A} k (l : list (string * A)) :
  is_Some (assoc k l) <-> k ∈ l.*1.
Proof.
  split; [intros [v Hv]; by eapply assoc_Some_elem | apply assoc_elem_Some].
Qed.

Lemma assoc_dict_set_eq {A} k (v : A) l : assoc k (dict_set k v l) = Some v.
Proof.
  induction l as [| [k' v'] l IH]; simpl.
  - by rewrite String.eqb_refl.
  - destruct (String.eqb_spec k k') as [-> | Hne]; simpl.
    + by rewrite String.eqb_refl.
    + by destruct (String.eqb_spec k k').
Qed.

Lemma assoc_dict_set_ne {A} k k' (v : A) l :
  k <> k' -> assoc k' (dict_set k v l) = assoc k' l.
Proof.
  intros Hne. induction l as [| [k0 v0] l IH]; simpl.
  - destruct (String.eqb_spec k' k); congruence.
  - destruct (String.eqb_spec k k0) as [-> | Hne0]; simpl.
    + destruct (String.eqb_spec k' k0); congruence.
    + destruct (String.eqb_spec k' k0); congruence.
Qed.

Lemma assoc_dict_set {A} k k' (v : A) l :
  assoc k' (dict_set k v l) = if decide (k = k') then Some v else assoc k' l.
Proof.
  case_decide as H; [subst; apply assoc_dict_set_eq | by apply assoc_dict_set_ne].
Qed.

Lemma elem_of_dict_set {A} k (v : A) l m :
  m ∈ (dict_set k v l).*1 <-> m = k \/ m ∈ l.*1.
Proof.
  rewrite <- !assoc_is_Some, assoc_dict_set. case_decide as H.
  - subst. split; [auto | intros _; by eexists].
  - split; [auto | intros [-> | Hm]; [done | exact Hm]].
Qed.

(** Every value stored in a dictionary built by [dict_set] was put there. *)
Lemma Forall_dict_set {A} (P : string -> A -> Prop) k v (l : list (string * A)) :
  P k v -> Forall (fun it => P it.1 it.2) l ->
  Forall (fun it => P it.1 it.2) (dict_set k v l).
Proof.
  intros Hv. induction 1 as [| [k' v'] l Hx Hl IH]; simpl.
  - by repeat constructor.
  - destruct (String.eqb k k'); constructor; auto.
Qed.

Lemma Forall_assoc {A} (P : string -> A -> Prop) (l : list (string * A)) k v :
  Forall (fun it => P it.1 it.2) l -> assoc k l = Some v -> P k v.
Proof.
  induction 1 as [| [k' v'] l Hx Hl IH]; simpl; [done |].
  destruct (String.eqb_spec k k') as [-> | Hne]; [| exact IH].
  intros [= <-]. exact Hx.
Qed.

Lemma getitem_Ok_elem d name s : getitem d name = Ok s -> name ∈ names d.
Proof.
  unfold getitem, names. destruct (assoc name (columns d)) eqn:E; [| done].
  intros _. by eapply assoc_Some_elem.
Qed.

Lemma elem_getitem_Ok d name : name ∈ names d -> exists s, getitem d name = Ok s.
Proof.
  intros H. apply assoc_elem_Some in H as [s Hs]. exists s.
  unfold getitem. by rewrite Hs.
Qed.

Lemma not_elem_getitem d name : name ∉ names d -> getitem d name = Raise KeyError.
Proof.
  intros H. unfold getitem. destruct (assoc name (columns d)) eqn:E; [| done].
  exfalso. apply H. by eapply assoc_Some_elem.
Qed.

Lemma wp_eq {A} (m : M A) h r0 h0 :
  wp m h (fun r h' => r = r0 /\ h' = h0) -> m h = (r0, h0).
Proof. unfold wp. destruct (m h); simpl. intros [-> ->]. done. Qed.

(** C6.  For a method selector that is none of percentile, std and iqr the
    threshold calculator returns the empty threshold map, raises nothing and
    leaves the store as it was, whatever the table holds. *)
Theorem unknown_method_yields_no_thresholds :
  forall sqrtQ (df : loc) (method : string) (h : heap) (d : DataFrame),
    h !! df = Some d ->
    method <> "percentile" -> method <> "std" -> method <> "iqr" ->
    calculate_alertness_thresholds sqrtQ df method h = (Ok [], h).
Proof.
  intros sqrtQ df method h d Hd Hp Hs Hi. apply wp_eq.
  unfold calculate_alertness_thresholds.
  apply (wp_for_each (fun _ acc h' => acc = [] /\ h' = h) _ _ _ []);
    [done | | by intros ? ? [-> ->]].
  intros _ metric acc h' [-> ->].
  apply wp_bind, (wp_df_columns _ _ d); [done |].
  case_bool_decide as Hm; [| by apply wp_ret].
  apply wp_bind, (wp_col _ _ _ d); [done |].
  destruct (elem_getitem_Ok d metric Hm) as [s ->].
  destruct (String.eqb_spec method "percentile"); [done |].
  destruct (String.eqb_spec method "std"); [done |].
  destruct (String.eqb_spec method "iqr"); [done |].
  by apply wp_ret.
Qed.

(** ** Order statistics *)

#[local] Instance Qle_total : Total Qle.
Proof.
  intros x y. destruct (Qlt_le_dec x y) as [H | H]; [left | right]; [| done].
  by apply Qlt_le_weak.
Qed.

#[local] Instance Qle_transitive : Transitive Qle := Qle_trans.

Lemma sort_sorted xs : StronglySorted Qle (sort xs).
Proof. apply StronglySorted_merge_sort; apply _. Qed.

Lemma sort_length xs : length (sort xs) = length xs.
Proof. apply Permutation_length, merge_sort_Permutation. Qed.

Lemma sorted_nth s x0 :
  StronglySorted Qle s ->
  forall a b, (a <= b)%nat -> (b < length s)%nat -> (nth a s x0 <= nth b s x0)%Q.
Proof.
  induction 1 as [| x l Hl IH Hx]; intros a b Hab Hb; simpl in *; [lia |].
  destruct a as [| a], b as [| b]; try lia.
  - apply Qle_refl.
  - rewrite Forall_forall in Hx. apply Hx, list_elem_of_In, nth_In. lia.
  - apply IH; lia.
Qed.

Lemma interpolate_mono s x0 q q' :
  StronglySorted Qle s -> (1 <= length s)%nat ->
  (0 <= q)%Q -> (q <= q')%Q -> (q' <= 1)%Q ->
  (interpolate s x0 q <= interpolate s x0 q')%Q.
Proof.
  intros Hs Hn H0 Hqq H1. unfold interpolate.
  set (n := length s) in *.
  set (N := Z.of_nat (n - 1)).
  assert (HN : (0 <= inject_Z N)%Q).
  { change 0%Q with (inject_Z 0). rewrite <- Zle_Qle. lia. }
  set (pos := (q * inject_Z N)%Q). set (pos' := (q' * inject_Z N)%Q).
  assert (Hpp : (pos <= pos')%Q) by (subst pos pos'; nra).
  assert (Hp0 : (0 <= pos)%Q) by (subst pos; nra).
  assert (Hp1 : (pos' <= inject_Z N)%Q) by (subst pos'; nra).
  assert (Hff : (Qfloor pos <= Qfloor pos')%Z) by (apply Qfloor_resp_le, Hpp).
  assert (Hf0 : (0 <= Qfloor pos)%Z).
  { change 0%Z with (Qfloor 0). apply Qfloor_resp_le, Hp0. }
  assert (Hf1 : (Qfloor pos' <= N)%Z).
  { rewrite <- (Qfloor_Z N). apply Qfloor_resp_le, Hp1. }
  pose proof (Qfloor_le pos) as Hfl. pose proof (Qlt_floor pos) as Hfu.
  pose proof (Qfloor_le pos') as Hfl'. pose proof (Qlt_floor pos') as Hfu'.
  rewrite inject_Z_plus in Hfu, Hfu'.
  set (i := Z.to_nat (Qfloor pos)). set (i' := Z.to_nat (Qfloor pos')).
  assert (Hii : (i <= i')%nat) by (subst i i'; lia).
  assert (Hi' : (i' <= n - 1)%nat) by (subst i' N; lia).
  pose proof (sorted_nth s x0 Hs i (Nat.min (i + 1) (n - 1))) as Hlohi.
  pose proof (sorted_nth s x0 Hs i' (Nat.min (i' + 1) (n - 1))) as Hlohi'.
  fold n in Hlohi, Hlohi'.
  specialize (Hlohi ltac:(lia) ltac:(lia)).
  specialize (Hlohi' ltac:(lia) ltac:(lia)).
  destruct (decide (Qfloor pos = Qfloor pos')) as [Heq | Hne].
  - subst i i'. rewrite <- Heq in *.
    set (lo := nth (Z.to_nat (Qfloor pos)) s x0) in *.
    set (hi := nth (Nat.min (Z.to_nat (Qfloor pos) + 1) (n - 1)) s x0) in *.
    set (F := inject_Z (Qfloor pos)) in *. change (inject_Z 1) with 1%Q in *.
    nra.
  - assert (Hstep : (i + 1 <= i')%nat) by (subst i i'; lia).
    pose proof (sorted_nth s x0 Hs (Nat.min (i + 1) (n - 1)) i') as Hmid.
    fold n in Hmid. specialize (Hmid ltac:(lia) ltac:(lia)).
    set (lo := nth i s x0) in *.
    set (hi := nth (Nat.min (i + 1) (n - 1)) s x0) in *.
    set (lo' := nth i' s x0) in *.
    set (hi' := nth (Nat.min (i' + 1) (n - 1)) s x0) in *.
    set (F := inject_Z (Qfloor pos)) in *. set (F' := inject_Z (Qfloor pos')) in *.
    change (inject_Z 1) with 1%Q in *.
    nra.
Qed.

Lemma quantile_ordered x q q' :
  (0 <= q)%Q -> (q <= q')%Q -> (q' <= 1)%Q ->
  (quantile x q = NaN /\ quantile x q' = NaN) \/
  (exists v v', quantile x q = Some v /\ quantile x q' = Some v' /\ (v <= v')%Q).
Proof.
  intros H0 Hqq H1. unfold quantile, quantile_sorted.
  pose proof (sort_sorted (dropna_floats x)) as Hs.
  destruct (sort (dropna_floats x)) as [| x0 s'] eqn:E; [by left |].
  right. do 2 eexists. repeat split.
  apply interpolate_mono; simpl; auto; lia.
Qed.

Lemma quantile_is_Some x q : (1 <= count x)%nat -> is_Some (quantile x q).
Proof.
  unfold count, quantile, quantile_sorted. rewrite <- (sort_length (dropna_floats x)).
  destruct (sort (dropna_floats x)); simpl; [lia | by eexists].
Qed.

Lemma mean_is_Some x : (1 <= count x)%nat -> is_Some (mean x).
Proof.
  unfold count, mean, mean_of. destruct (dropna_floats x); simpl; [lia | by eexists].
Qed.

Lemma std_is_Some sqrtQ x : (2 <= count x)%nat -> is_Some (std sqrtQ x).
Proof.
  unfold count, std, variance.
  destruct (dropna_floats x) as [| a [| b l]]; simpl; [lia | lia | by eexists].
Qed.

Lemma std_nonneg sqrtQ x v :
  (forall q, 0 <= sqrtQ q)%Q -> std sqrtQ x = Some v -> (0 <= v)%Q.
Proof.
  intros Hs. unfold std. destruct (variance (dropna_floats x)); [| done].
  intros [= <-]. apply Hs.
Qed.

(** ** Loops that fill a dictionary, one key at a time *)

Lemma per_key_loop {V} (body : list (string * V) -> string -> M (list (string * V)))
      (entry : string -> result (option V)) (h : heap) :
  (forall acc k, body acc k h = (store k acc (entry k), h)) ->
  forall keys acc, for_each keys acc body h = (fold_entries entry keys acc, h).
Proof.
  intros Hb. induction keys as [| k ks IH]; intros acc; simpl; [done |].
  unfold bind. rewrite Hb. destruct (store k acc (entry k)); [apply IH | done].
Qed.

Lemma fold_entries_Ok {V} (entry : string -> result (option V)) keys :
  forall acc res,
    fold_entries entry keys acc = Ok res ->
    forall k, assoc k res =
              if bool_decide (k ∈ keys)
              then match entry k with
                   | Ok (Some v) => Some v
                   | _ => assoc k acc
                   end
              else assoc k acc.
Proof.
  induction keys as [| k0 ks IH]; intros acc res; cbn [fold_entries].
  - intros [= <-] k. by rewrite bool_decide_eq_false_2 by apply not_elem_of_nil.
  - destruct (store k0 acc (entry k0)) as [acc' |] eqn:E; [| done].
    intros Hres k. rewrite (IH _ _ Hres k).
    assert (Hacc' : assoc k acc' =
                    if decide (k0 = k)
                    then match entry k with Ok (Some v) => Some v | _ => assoc k acc end
                    else assoc k acc).
    { unfold store in E. case_decide as Hk.
      - subst k0. destruct (entry k) as [[v |] |]; simplify_eq; [| done].
        apply assoc_dict_set_eq.
      - destruct (entry k0) as [[v |] |]; simplify_eq; [| done].
        by apply assoc_dict_set_ne. }
    rewrite Hacc'. clear Hacc'.
    destruct (decide (k0 = k)) as [-> | Hne].
    + rewrite (bool_decide_eq_true_2 (k ∈ k :: ks)) by apply list_elem_of_here.
      case_bool_decide; [| done]. by destruct (entry k) as [[v |] |].
    + case_bool_decide as Hin.
      * by rewrite bool_decide_eq_true_2 by by apply list_elem_of_further.
      * rewrite bool_decide_eq_false_2; [done |].
        intros [? | ?]%elem_of_cons; [congruence | done].
Qed.

Lemma fold_entries_Raise {V} (entry : string -> result (option V)) keys :
  forall acc e,
    fold_entries entry keys acc = Raise e ->
    exists k, k ∈ keys /\ entry k = Raise e.
Proof.
  induction keys as [| k0 ks IH]; intros acc e; simpl; [done |].
  destruct (entry k0) as [[v |] | e0] eqn:E; simpl.
  - intros (k & Hk & He)%IH. exists k. split; [by apply list_elem_of_further | done].
  - intros (k & Hk & He)%IH. exists k. split; [by apply list_elem_of_further | done].
  - intros [= <-]. exists k0. split; [apply list_elem_of_here | done].
Qed.

(** ** The threshold calculator, one column at a time *)

Lemma df_columns_run df h d :
  h !! df = Some d -> df_columns df h = (Ok (names d), h).
Proof. intros Hd. unfold df_columns, bind, deref. by rewrite Hd. Qed.

Lemma len_run df h d : h !! df = Some d -> len df h = (Ok (df_len d), h).
Proof. intros Hd. unfold len, bind, deref. by rewrite Hd. Qed.

Lemma col_run df name h d :
  h !! df = Some d -> col df name h = (getitem d name, h).
Proof. intros Hd. unfold col, bind, deref. by rewrite Hd. Qed.

(** Run the reads of a computation against the table [d] of [Hd]. *)
Lemma bind_unfold {A B} (m : M A) (k : A -> M B) h :
  bind m k h = match m h with
               | (Ok a, h') => k a h'
               | (Raise e, h') => (Raise e, h')
               end.
Proof. done. Qed.
Lemma ret_unfold {A} (a : A) h : ret a h = (Ok a, h).
Proof. done. Qed.
Lemma lift_unfold {A} (r : result A) h : lift r h = (r, h).
Proof. done. Qed.
Lemma raise_unfold {A} e h : @raise A e h = (Raise e, h).
Proof. done. Qed.

Ltac run_reads Hd :=
  repeat first
    [ rewrite bind_unfold
    | rewrite ret_unfold
    | rewrite lift_unfold
    | rewrite raise_unfold
    | rewrite (df_columns_run _ _ _ Hd)
    | rewrite (col_run _ _ _ _ Hd)
    | rewrite (len_run _ _ _ Hd)
    | progress cbv beta iota ].

Lemma thresholds_run sqrtQ df method h d :
  h !! df = Some d ->
  calculate_alertness_thresholds sqrtQ df method h
  = (fold_entries (threshold_entry sqrtQ d method) metrics [], h).
Proof.
  intros Hd. unfold calculate_alertness_thresholds. apply per_key_loop.
  intros acc k. run_reads Hd.
  unfold threshold_entry, known_method, threshold_of. case_bool_decide as Hk.
  - run_reads Hd. destruct (elem_getitem_Ok d k Hk) as [s ->].
    destruct (String.eqb method "percentile"); simpl;
      [by destruct (as_floats (dropna s)) |].
    destruct (String.eqb method "std"); simpl;
      [by destruct (as_floats (dropna s)) |].
    destruct (String.eqb method "iqr"); simpl;
      [by destruct (as_floats (dropna s)) | done].
  - by rewrite (not_elem_getitem d k Hk).
Qed.

Lemma threshold_of_ordered sqrtQ method x t :
  (forall q, 0 <= sqrtQ q)%Q ->
  threshold_of sqrtQ method x = Some t -> ordered t.
Proof.
  intros Hs. unfold threshold_of, ordered.
  destruct (String.eqb method "percentile").
  { intros [= <-]; simpl.
    destruct (quantile_ordered x (90 # 100) (95 # 100)) as [[_ ->] | (v & v' & -> & -> & Hv)];
      [done | done | done | by left | right; eauto]. }
  destruct (String.eqb method "std").
  { intros [= <-]; simpl.
    destruct (mean x) as [m |]; [| by left].
    destruct (std sqrtQ x) as [s |] eqn:Es; [| by left].
    apply std_nonneg in Es; [| done].
    right. do 2 eexists. repeat split. lra. }
  destruct (String.eqb method "iqr"); [| done].
  intros [= <-]; simpl.
  destruct (quantile_ordered x (25 # 100) (75 # 100)) as [[_ ->] | (v & v' & -> & -> & Hv)];
    [done | done | done | by left |].
  right. do 2 eexists. repeat split. simpl. lra.
Qed.

Lemma threshold_of_critical_ge_warning sqrtQ method x t :
  (forall q, 0 <= sqrtQ q)%Q ->
  threshold_of sqrtQ method x = Some t ->
  (1 <= count x)%nat -> (method = "std" -> (2 <= count x)%nat) ->
  fge (critical t) (warning t) = true.
Proof.
  intros Hs Ht H1 H2. pose proof (threshold_of_ordered _ _ _ _ Hs Ht) as Ho.
  assert (Hc : is_Some (critical t)).
  { revert Ht. unfold threshold_of.
    destruct (String.eqb_spec method "percentile").
    { intros [= <-]; simpl. by apply quantile_is_Some. }
    destruct (String.eqb_spec method "std") as [Hm |].
    { intros [= <-]; simpl.
      destruct (mean_is_Some x H1) as [m ->].
      destruct (std_is_Some sqrtQ x (H2 Hm)) as [s ->]. by eexists. }
    destruct (String.eqb_spec method "iqr"); [| done].
    intros [= <-]; simpl.
    destruct (quantile_is_Some x (75 # 100) H1) as [a ->].
    destruct (quantile_is_Some x (25 # 100) H1) as [b ->]. by eexists. }
  destruct Ho as [Hn | (w & c & Hw & Hcr & Hle)].
  - rewrite Hn in Hc. by destruct Hc.
  - rewrite Hw, Hcr. simpl. by apply Qle_bool_iff.
Qed.

Lemma numeric_metrics_as_floats d k s :
  numeric_metrics d = true -> k ∈ metrics -> getitem d k = Ok s ->
  (exists x, as_floats s = Ok x) /\ (exists x, as_floats (dropna s) = Ok x).
Proof.
  unfold numeric_metrics. rewrite forallb_forall. intros Hn Hk Hs.
  specialize (Hn k). rewrite Hs in Hn. apply list_elem_of_In in Hk.
  specialize (Hn Hk). destruct s; simpl in *; try done; eauto.
Qed.

Lemma known_method_threshold sqrtQ method x :
  known_method method = true -> is_Some (threshold_of sqrtQ method x).
Proof.
  unfold known_method, threshold_of.
  destruct (String.eqb method "percentile"); [by eexists |].
  destruct (String.eqb method "std"); [by eexists |].
  destruct (String.eqb method "iqr"); [by eexists | done].
Qed.

Lemma pair_fst_eq {A B} (a a' : A) (b b' : B) : (a, b) = (a', b') -> a = a'.
Proof. congruence. Qed.

Lemma thresholds_returns sqrtQ df method h d :
  h !! df = Some d -> numeric_metrics d = true ->
  exists ths, calculate_alertness_thresholds sqrtQ df method h = (Ok ths, h).
Proof.
  intros Hd Hn. rewrite (thresholds_run _ _ _ _ _ Hd).
  destruct (fold_entries _ metrics []) as [ths | e] eqn:E; [by eexists |].
  apply fold_entries_Raise in E as (k & Hk & He). exfalso.
  unfold threshold_entry in He. destruct (getitem d k) as [s |] eqn:Es; [| done].
  destruct (numeric_metrics_as_floats d k s Hn Hk Es) as [_ [x Hx]].
  rewrite Hx in He. by destruct (known_method method).
Qed.

(** C3, amended.  For each metric column of the table and each of the three
    methods, the calculator returns, and in its entry for the metric the
    critical cutoff is at least the warning cutoff, if the column has at
    least one non-null value and, for the std method, at least two (the
    sample standard deviation of a single value is NaN).  The square root is
    only assumed to be non-negative. *)
Theorem critical_at_least_warning :
  forall sqrtQ (df : loc) (method : string) (h : heap) (d : DataFrame)
         (metric : string) (s : Series) (data : list float),
    (forall q, 0 <= sqrtQ q)%Q ->
    h !! df = Some d ->
    numeric_metrics d = true ->
    metric ∈ metrics ->
    known_method method = true ->
    getitem d metric = Ok s ->
    as_floats (dropna s) = Ok data ->
    (1 <= count data)%nat ->
    (method = "std" -> (2 <= count data)%nat) ->
    exists ths t,
      calculate_alertness_thresholds sqrtQ df method h = (Ok ths, h) /\
      assoc metric ths = Some t /\
      fge (critical t) (warning t) = true.
Proof.
  intros sqrtQ df method h d metric s data Hs Hd Hn Hm Hk Hcol Hdata H1 H2.
  destruct (thresholds_returns sqrtQ df method h d Hd Hn) as [ths Hrun].
  pose proof Hrun as Hfold. rewrite (thresholds_run _ _ _ _ _ Hd) in Hfold.
  apply pair_fst_eq in Hfold.
  pose proof (fold_entries_Ok _ _ _ _ Hfold metric) as Ha.
  rewrite bool_decide_eq_true_2 in Ha by done.
  unfold threshold_entry in Ha. rewrite Hcol, Hk, Hdata in Ha.
  destruct (known_method_threshold sqrtQ method data Hk) as [t Ht].
  rewrite Ht in Ha. exists ths, t. repeat split; [done | done |].
  by eapply threshold_of_critical_ge_warning.
Qed.

(** ** The anomaly detector, one threshold entry at a time *)

Lemma rows_above_run df name threshold h d :
  h !! df = Some d ->
  rows_above df name threshold h =
  match numeric_col d name with
  | Ok xs => (Ok (length h), h ++ [above d xs threshold])
  | Raise e => (Raise e, h)
  end.
Proof.
  intros Hd. unfold rows_above, numeric_col. run_reads Hd.
  destruct (getitem d name) as [s |]; [| done]. run_reads Hd.
  destruct (as_floats s) as [xs |]; [| done]. run_reads Hd.
  unfold deref. by rewrite Hd.
Qed.

Lemma detect_metric_run df acc metric t h d :
  h !! df = Some d ->
  detect_metric df acc (metric, t) h =
  if bool_decide (metric ∈ names d) then
    match numeric_col d metric with
    | Raise e => (Raise e, h)
    | Ok xs =>
        let dw := above d xs (warning t) in
        let dc := above d xs (critical t) in
        (match anomaly_record d dw dc (length h) (S (length h)) with
         | Ok a => Ok (dict_set metric a acc)
         | Raise e => Raise e
         end, h ++ [dw; dc])
    end
  else (Ok acc, h).
Proof.
  intros Hd. unfold detect_metric. cbn [fst snd]. run_reads Hd.
  case_bool_decide as Hm; [| done].
  run_reads Hd. rewrite (rows_above_run _ _ _ _ _ Hd).
  destruct (numeric_col d metric) as [xs |] eqn:Ex; [| done].
  cbv zeta.
  set (dw := above d xs (warning t)). set (dc := above d xs (critical t)).
  assert (Hd1 : (h ++ [dw]) !! df = Some d) by by apply lookup_app_l_Some.
  run_reads Hd1. rewrite (rows_above_run _ _ _ _ _ Hd1), Ex. fold dc.
  assert (Hh : (h ++ [dw]) ++ [dc] = h ++ [dw; dc]) by by rewrite <- app_assoc.
  assert (Hlen : length (h ++ [dw]) = S (length h)).
  { rewrite length_app. simpl. lia. }
  rewrite Hh, Hlen.
  assert (Hw : (h ++ [dw; dc]) !! length h = Some dw).
  { by rewrite lookup_app_r, Nat.sub_diag by lia. }
  assert (Hc : (h ++ [dw; dc]) !! S (length h) = Some dc).
  { rewrite lookup_app_r by lia. by replace (S (length h) - length h) with 1 by lia. }
  assert (Hd2 : (h ++ [dw; dc]) !! df = Some d) by by apply lookup_app_l_Some.
  run_reads Hw. run_reads Hc. run_reads Hd2.
  unfold anomaly_record.
  destruct (py_div (df_len dw) (df_len d)); run_reads Hd2; [| done].
  destruct (py_div (df_len dc) (df_len d)); by run_reads Hd2.
Qed.

Lemma detect_loop_ignores_absent df d ths :
  forall acc h,
    h !! df = Some d ->
    for_each ths acc (detect_metric df) h
    = for_each (filter (fun it => it.1 ∈ names d) ths) acc (detect_metric df) h.
Proof.
  induction ths as [| [metric t] ths IH]; intros acc h Hd; [done |].
  rewrite filter_cons. cbn [fst]. case_decide as Hm; cbn [for_each]; unfold bind.
  - rewrite (detect_metric_run _ _ _ _ _ _ Hd), bool_decide_eq_true_2 by done.
    destruct (numeric_col d metric) as [xs |]; [| done]. cbv zeta.
    destruct (anomaly_record _ _ _ _ _) as [a |]; [| done].
    apply IH. by apply lookup_app_l_Some.
  - rewrite (detect_metric_run _ _ _ _ _ _ Hd), bool_decide_eq_false_2 by done.
    by apply IH.
Qed.

Lemma detect_loop_keys df d ths :
  forall acc h an h',
    h !! df = Some d ->
    for_each ths acc (detect_metric df) h = (Ok an, h') ->
    forall m, m ∈ an.*1 <-> m ∈ acc.*1 \/ (m ∈ ths.*1 /\ m ∈ names d).
Proof.
  induction ths as [| [metric t] ths IH]; intros acc h an h' Hd; cbn [for_each].
  - intros [= <- <-] m. rewrite fmap_nil, elem_of_nil. tauto.
  - unfold bind. rewrite (detect_metric_run _ _ _ _ _ _ Hd).
    case_bool_decide as Hm.
    + destruct (numeric_col d metric) as [xs |]; [| done]. cbv zeta.
      destruct (anomaly_record _ _ _ _ _) as [a |]; [| done].
      intros Hrun m. rewrite (IH _ _ _ _ (lookup_app_l_Some _ _ _ _ Hd) Hrun m).
      rewrite elem_of_dict_set, fmap_cons, elem_of_cons. cbn [fst].
      intuition (subst; auto).
    + intros Hrun m. rewrite (IH _ _ _ _ Hd Hrun m), fmap_cons, elem_of_cons.
      cbn [fst]. intuition (subst; auto; done).
Qed.

Lemma detect_loop_returns df d ths :
  (0 < df_len d)%nat ->
  (forall m, m ∈ ths.*1 -> m ∈ names d -> exists xs, numeric_col d m = Ok xs) ->
  forall acc h,
    h !! df = Some d ->
    exists an h', for_each ths acc (detect_metric df) h = (Ok an, h').
Proof.
  intros Hlen. induction ths as [| [metric t] ths IH]; intros Hnum acc h Hd;
    cbn [for_each]; [by do 2 eexists |].
  assert (Hnum' : forall m, m ∈ ths.*1 -> m ∈ names d ->
                            exists xs, numeric_col d m = Ok xs).
  { intros m Hm. apply Hnum. rewrite fmap_cons. by apply list_elem_of_further. }
  unfold bind. rewrite (detect_metric_run _ _ _ _ _ _ Hd).
  case_bool_decide as Hm; [| by apply IH].
  destruct (Hnum metric) as [xs ->]; [rewrite fmap_cons; apply list_elem_of_here | done |].
  cbv zeta. unfold anomaly_record, py_div.
  destruct (df_len d); [lia |].
  apply IH; [done |]. by apply lookup_app_l_Some.
Qed.

(** ** Rows selected by two cutoffs *)

Lemma select_sublist {A} (f g : float -> bool) (xs : list float) :
  (forall x, f x = true -> g x = true) ->
  forall l : list A, sublist (select (map f xs) l) (select (map g xs) l).
Proof.
  intros Hfg. induction xs as [| x xs IH]; intros l; simpl; [done |].
  destruct l as [| y l]; [done |].
  destruct (f x) eqn:Ef.
  - rewrite (Hfg x Ef). by apply sublist_skip.
  - destruct (g x); [by apply sublist_cons | done].
Qed.

Lemma fgt_ordered t x :
  ordered t -> fgt x (critical t) = true -> fgt x (warning t) = true.
Proof.
  intros [Hc | (w & c & Hw & Hc & Hle)]; rewrite Hc.
  - by destruct x.
  - rewrite Hw. destruct x as [q |]; simpl; [| done].
    rewrite !negb_true_iff, <- !not_true_iff_false, !Qle_bool_iff. lra.
Qed.

Lemma nested_rows_extend d h k a : nested_rows d h a -> nested_rows d (h ++ k) a.
Proof.
  intros (xs & w & c & Hw & Hc & Hwc). exists xs, w, c.
  repeat split; [by apply lookup_app_l_Some | by apply lookup_app_l_Some | done].
Qed.

Lemma detect_loop_nested df d ths :
  Forall (fun it => ordered it.2) ths ->
  forall acc h an h',
    h !! df = Some d ->
    Forall (fun it => nested_rows d h it.2) acc ->
    for_each ths acc (detect_metric df) h = (Ok an, h') ->
    Forall (fun it => nested_rows d h' it.2) an.
Proof.
  induction 1 as [| [metric t] ths Ht Hths IH]; intros acc h an h' Hd Hacc;
    cbn [for_each].
  - by intros [= <- <-].
  - unfold bind. rewrite (detect_metric_run _ _ _ _ _ _ Hd).
    case_bool_decide as Hm; [| by apply IH].
    destruct (numeric_col d metric) as [xs |]; [| done]. cbv zeta.
    destruct (anomaly_record _ _ _ _ _) as [a |] eqn:Ea; [| done].
    apply IH; [by apply lookup_app_l_Some |].
    apply (Forall_dict_set (fun _ a => nested_rows d (h ++ _) a)).
    + exists xs, (warning t), (critical t).
      unfold anomaly_record in Ea.
      destruct (py_div _ _); [| done]. destruct (py_div _ _); [| done].
      injection Ea as <-. cbn [warning_data critical_data].
      repeat split.
      * by rewrite lookup_app_r, Nat.sub_diag by lia.
      * rewrite lookup_app_r by lia.
        by replace (S (length h) - length h)%nat with 1%nat by lia.
      * intros x. by apply fgt_ordered.
    + eapply Forall_impl; [exact Hacc |]. intros it. apply nested_rows_extend.
Qed.

Lemma fold_entries_Forall {V} (P : V -> Prop) (entry : string -> result (option V)) keys :
  (forall k v, entry k = Ok (Some v) -> P v) ->
  forall acc res,
    Forall (fun it => P it.2) acc ->
    fold_entries entry keys acc = Ok res ->
    Forall (fun it => P it.2) res.
Proof.
  intros He. induction keys as [| k ks IH]; intros acc res Hacc; cbn [fold_entries].
  - by intros [= <-].
  - destruct (entry k) as [[v |] |] eqn:E; cbn [store]; [| by apply IH | done].
    apply IH. apply (Forall_dict_set (fun _ => P)); [by eapply He | done].
Qed.

Lemma thresholds_dangling sqrtQ df method (h : heap) :
  h !! df = None ->
  calculate_alertness_thresholds sqrtQ df method h = (Raise KeyError, h).
Proof.
  intros Hd. unfold calculate_alertness_thresholds, metrics. cbn [for_each].
  unfold bind at 1. unfold bind at 1. unfold df_columns, bind, deref.
  by rewrite Hd.
Qed.

Lemma thresholds_ordered sqrtQ df method h ths h' :
  (forall q, 0 <= sqrtQ q)%Q ->
  calculate_alertness_thresholds sqrtQ df method h = (Ok ths, h') ->
  Forall (fun it => ordered it.2) ths.
Proof.
  intros Hs Hrun. destruct (h !! df) as [d |] eqn:Hd.
  - rewrite (thresholds_run _ _ _ _ _ Hd) in Hrun. apply pair_fst_eq in Hrun.
    eapply fold_entries_Forall; [| apply Forall_nil_2 | exact Hrun].
    intros k v. unfold threshold_entry.
    destruct (getitem d k) as [s |]; [| done].
    destruct (known_method method); [| done].
    destruct (as_floats (dropna s)) as [x |]; [| done].
    intros [= Hv]. by eapply threshold_of_ordered.
  - by rewrite (thresholds_dangling _ _ _ _ Hd) in Hrun.
Qed.

(** C4.  For every threshold map that the threshold calculator returned (for
    any table and method) and every table handed to the anomaly detector
    with it: in each anomaly entry the warning set and the critical set are
    selections of rows of the table by [column > cutoff]; every row position
    selected into the critical set is selected into the warning set, and the
    row labels of the critical set are a sublist of those of the warning
    set. *)
Theorem critical_anomalies_within_warning_anomalies :
  forall sqrtQ (df0 : loc) (method : string) (h0 h1 : heap)
         (thresholds : list (string * Threshold))
         (df : loc) (h h' : heap) (d : DataFrame)
         (anomalies : list (string * Anomaly)) (metric : string) (a : Anomaly),
    (forall q, 0 <= sqrtQ q)%Q ->
    calculate_alertness_thresholds sqrtQ df0 method h0 = (Ok thresholds, h1) ->
    h !! df = Some d ->
    detect_anomalies df thresholds h = (Ok anomalies, h') ->
    assoc metric anomalies = Some a ->
    exists xs w c,
      h' !! warning_data a = Some (above d xs w) /\
      h' !! critical_data a = Some (above d xs c) /\
      (forall i, gt_mask xs c !! i = Some true -> gt_mask xs w !! i = Some true) /\
      sublist (index (above d xs c)) (index (above d xs w)).
Proof.
  intros sqrtQ df0 method h0 h1 ths df h h' d an metric a Hs Hcalc Hd Hrun Ha.
  pose proof (thresholds_ordered _ _ _ _ _ _ Hs Hcalc) as Hord.
  pose proof (detect_loop_nested df d ths Hord [] h an h' Hd (Forall_nil_2 _) Hrun)
    as Hnested.
  pose proof (Forall_assoc (fun _ a => nested_rows d h' a) an metric a Hnested Ha)
    as (xs & w & c & Hw & Hc & Hwc).
  exists xs, w, c. repeat split; [done | done | |].
  - intros i. unfold gt_mask. rewrite !list_lookup_fmap.
    destruct (xs !! i) as [x |]; simpl; [| done]. intros [= Hx]. by rewrite Hwc.
  - unfold above, df_filter, gt_mask. cbn [index]. by apply select_sublist.
Qed.

Lemma filter_absent_nil (d : DataFrame) (ths : list (string * Threshold)) :
  (forall m, m ∈ ths.*1 -> m ∉ names d) ->
  filter (fun it => it.1 ∈ names d) ths = [].
Proof.
  induction ths as [| [m t] ths IH]; intros H; [done |].
  rewrite filter_cons. cbn [fst]. case_decide as Hm.
  - exfalso. apply (H m); [rewrite fmap_cons; apply list_elem_of_here | done].
  - apply IH. intros m' Hm'. apply H. rewrite fmap_cons. by apply list_elem_of_further.
Qed.

(** C10.  The anomaly detector behaves on a threshold map exactly as on the
    map without the entries whose metric is not a column of the table: such
    an entry yields neither an anomaly entry nor an error.  When it returns,
    the metrics with an anomaly entry are those that have a threshold entry
    and are columns of the table; when no threshold entry names a column it
    returns the empty map and leaves the store alone; and it does return
    when the table has a row and the named columns are numeric. *)
Theorem anomalies_only_for_thresholded_columns :
  forall (df : loc) (thresholds : list (string * Threshold)) (h : heap)
         (d : DataFrame),
    h !! df = Some d ->
    detect_anomalies df thresholds h
    = detect_anomalies df (filter (fun it => it.1 ∈ names d) thresholds) h /\
    (forall anomalies h',
        detect_anomalies df thresholds h = (Ok anomalies, h') ->
        forall m, is_Some (assoc m anomalies)
                  <-> is_Some (assoc m thresholds) /\ m ∈ names d) /\
    ((forall m, m ∈ thresholds.*1 -> m ∉ names d) ->
     detect_anomalies df thresholds h = (Ok [], h)) /\
    ((0 < df_len d)%nat ->
     (forall m, m ∈ thresholds.*1 -> m ∈ names d ->
                exists xs, numeric_col d m = Ok xs) ->
     exists anomalies h', detect_anomalies df thresholds h = (Ok anomalies, h')).
Proof.
  intros df ths h d Hd. unfold detect_anomalies. split; [| split; [| split]].
  - by apply detect_loop_ignores_absent.
  - intros an h' Hrun m.
    rewrite !assoc_is_Some, (detect_loop_keys df d ths [] h an h' Hd Hrun m).
    rewrite fmap_nil, elem_of_nil. tauto.
  - intros Habs. rewrite (detect_loop_ignores_absent df d ths [] h Hd).
    by rewrite (filter_absent_nil d ths Habs).
  - intros Hlen Hnum. exact (detect_loop_returns df d ths Hlen Hnum [] h Hd).
Qed.

(** ** The distribution analyzer, one column at a time *)

Section Distribution.

Variable sqrtQ : Q -> Q.
Variable shapiro : list Q -> float * float.
Variable kstest : list Q -> float -> float -> float * float.
Variable skew : list Q -> float.
Variable kurtosis_of : list Q -> float.

Lemma distribution_run df h d :
  h !! df = Some d ->
  analyze_data_distribution sqrtQ shapiro kstest skew kurtosis_of df h
  = (fold_entries (distribution_entry sqrtQ shapiro kstest skew kurtosis_of d)
                   metrics [], h).
Proof.
  intros Hd. unfold analyze_data_distribution. apply per_key_loop.
  intros acc k. run_reads Hd. unfold distribution_entry.
  case_bool_decide as Hk.
  - run_reads Hd. destruct (elem_getitem_Ok d k Hk) as [s ->].
    by destruct (as_floats (dropna s)).
  - by rewrite (not_elem_getitem d k Hk).
Qed.

Lemma distribution_returns df h d :
  h !! df = Some d -> numeric_metrics d = true ->
  exists res,
    analyze_data_distribution sqrtQ shapiro kstest skew kurtosis_of df h
    = (Ok res, h).
Proof.
  intros Hd Hn. rewrite (distribution_run _ _ _ Hd).
  destruct (fold_entries _ metrics []) as [res | e] eqn:E; [by eexists |].
  apply fold_entries_Raise in E as (k & Hk & He). exfalso.
  unfold distribution_entry in He. destruct (getitem d k) as [s |] eqn:Es; [| done].
  destruct (numeric_metrics_as_floats d k s Hn Hk Es) as [_ [x Hx]].
  by rewrite Hx in He.
Qed.

(** C5, amended.  For a metric column of the table whose values without
    nulls are [data], the analyzer returns an entry whose Shapiro-Wilk
    outputs are those of the test on [data] exactly when [data] has at most
    5000 values (5000 included) and are NaN, not computed, otherwise.  The
    verdict is (Shapiro p-value > 0.05) when the Shapiro p-value of the
    entry is a number, which needs a sample of at most 5000 values, and
    (KS p-value > 0.05) when it is NaN: for a sample of more than 5000
    values, and also when the test was run and returned NaN. *)
Theorem normality_verdict_follows_sample_size :
  forall (df : loc) (h : heap) (d : DataFrame) (metric : string)
         (s : Series) (x : list float),
    h !! df = Some d ->
    numeric_metrics d = true ->
    metric ∈ metrics ->
    getitem d metric = Ok s ->
    as_floats (dropna s) = Ok x ->
    exists res r,
      analyze_data_distribution sqrtQ shapiro kstest skew kurtosis_of df h
      = (Ok res, h) /\
      assoc metric res = Some r /\
      (ks_statistic r, ks_p_value r)
      = kstest (dropna_floats x) (mean x) (std sqrtQ x) /\
      ((length (dropna_floats x) <= 5000)%nat ->
       (shapiro_statistic r, shapiro_p_value r) = shapiro (dropna_floats x)) /\
      ((5000 < length (dropna_floats x))%nat ->
       shapiro_statistic r = NaN /\ shapiro_p_value r = NaN) /\
      (isnan (shapiro_p_value r) = false ->
       (length (dropna_floats x) <= 5000)%nat /\
       is_normal r = fgt (shapiro_p_value r) (Some (5 # 100))) /\
      (isnan (shapiro_p_value r) = true ->
       is_normal r = fgt (ks_p_value r) (Some (5 # 100))).
Proof.
  intros df h d metric s x Hd Hn Hm Hcol Hx.
  destruct (distribution_returns df h d Hd Hn) as [res Hrun].
  pose proof Hrun as Hfold. rewrite (distribution_run _ _ _ Hd) in Hfold.
  apply pair_fst_eq in Hfold.
  pose proof (fold_entries_Ok _ _ _ _ Hfold metric) as Ha.
  rewrite bool_decide_eq_true_2 in Ha by done.
  unfold distribution_entry in Ha. rewrite Hcol, Hx in Ha.
  exists res, (distribution_of sqrtQ shapiro kstest skew kurtosis_of x).
  split; [done |]. split; [done |].
  unfold distribution_of. cbn [shapiro_statistic shapiro_p_value ks_statistic
                               ks_p_value is_normal].
  split; [by destruct (kstest _ _ _) |].
  destruct (Nat.leb_spec (length (dropna_floats x)) 5000) as [Hle | Hgt].
  - split; [intros _; by destruct (shapiro _) |]. split; [lia |].
    split; [intros ->; done | intros ->; done].
  - split; [lia |]. split; [done |]. cbn [snd isnan negb]. split; done.
Qed.

End Distribution.

(** ** Absent metric columns in the per-metric stages *)

Lemma descriptive_run sqrtQ df h d :
  h !! df = Some d ->
  calculate_descriptive_statistics sqrtQ df h
  = (fold_entries (descriptive_entry sqrtQ d) metrics [], h).
Proof.
  intros Hd. unfold calculate_descriptive_statistics. apply per_key_loop.
  intros acc k. run_reads Hd. unfold descriptive_entry.
  case_bool_decide as Hk.
  - run_reads Hd. destruct (elem_getitem_Ok d k Hk) as [s ->].
    run_reads Hd. by destruct (as_floats s).
  - by rewrite (not_elem_getitem d k Hk).
Qed.

(** A stage whose entry function skips the columns that the table lacks and
    has an entry for those it has: it raises nothing when the metric
    columns are numeric, and its result has exactly the metrics that are
    columns of the table. *)
Lemma present_metrics_only {V} (entry : string -> result (option V)) d :
  (forall k, k ∉ names d -> entry k = Ok None) ->
  (forall k, k ∈ metrics -> k ∈ names d -> exists v, entry k = Ok (Some v)) ->
  exists res,
    fold_entries entry metrics [] = Ok res /\
    forall k, is_Some (assoc k res) <-> k ∈ metrics /\ k ∈ names d.
Proof.
  intros Habs Hpres.
  destruct (fold_entries entry metrics []) as [res | e] eqn:E.
  - exists res. split; [done |]. intros k.
    rewrite (fold_entries_Ok _ _ _ _ E k). case_bool_decide as Hk.
    + destruct (decide (k ∈ names d)) as [Hn | Hn].
      * destruct (Hpres k Hk Hn) as [v ->]. split; [done | by eexists].
      * rewrite (Habs k Hn). cbn [assoc]. split; [by intros [? [=]] | tauto].
    + cbn [assoc]. split; [by intros [? [=]] | tauto].
  - exfalso. apply fold_entries_Raise in E as (k & Hk & He).
    destruct (decide (k ∈ names d)) as [Hn | Hn].
    + destruct (Hpres k Hk Hn) as [v Hv]. congruence.
    + rewrite (Habs k Hn) in He. done.
Qed.

Lemma descriptive_statistics_skip_absent_metrics sqrtQ df h d :
  h !! df = Some d -> numeric_metrics d = true ->
  exists res,
    calculate_descriptive_statistics sqrtQ df h = (Ok res, h) /\
    forall k, is_Some (assoc k res) <-> k ∈ metrics /\ k ∈ names d.
Proof.
  intros Hd Hn. rewrite (descriptive_run _ _ _ _ Hd).
  destruct (present_metrics_only (descriptive_entry sqrtQ d) d) as (res & -> & Hk).
  - intros k Hk. unfold descriptive_entry. by rewrite (not_elem_getitem d k Hk).
  - intros k Hk Hin. unfold descriptive_entry.
    destruct (elem_getitem_Ok d k Hin) as [s Hs]. rewrite Hs.
    destruct (numeric_metrics_as_floats d k s Hn Hk Hs) as [[x ->] _]. by eexists.
  - by exists res.
Qed.

Lemma distribution_analysis_skips_absent_metrics
      sqrtQ shapiro kstest skew kurt df h d :
  h !! df = Some d -> numeric_metrics d = true ->
  exists res,
    analyze_data_distribution sqrtQ shapiro kstest skew kurt df h = (Ok res, h) /\
    forall k, is_Some (assoc k res) <-> k ∈ metrics /\ k ∈ names d.
Proof.
  intros Hd Hn. rewrite (distribution_run _ _ _ _ _ _ _ _ Hd).
  destruct (present_metrics_only
              (distribution_entry sqrtQ shapiro kstest skew kurt d) d)
    as (res & -> & Hk).
  - intros k Hk. unfold distribution_entry. by rewrite (not_elem_getitem d k Hk).
  - intros k Hk Hin. unfold distribution_entry.
    destruct (elem_getitem_Ok d k Hin) as [s Hs]. rewrite Hs.
    destruct (numeric_metrics_as_floats d k s Hn Hk Hs) as [_ [x ->]]. by eexists.
  - by exists res.
Qed.

Lemma threshold_calculation_skips_absent_metrics sqrtQ df method h d :
  h !! df = Some d -> numeric_metrics d = true -> known_method method = true ->
  exists res,
    calculate_alertness_thresholds sqrtQ df method h = (Ok res, h) /\
    forall k, is_Some (assoc k res) <-> k ∈ metrics /\ k ∈ names d.
Proof.
  intros Hd Hn Hm. rewrite (thresholds_run _ _ _ _ _ Hd).
  destruct (present_metrics_only (threshold_entry sqrtQ d method) d)
    as (res & -> & Hk).
  - intros k Hk. unfold threshold_entry. by rewrite (not_elem_getitem d k Hk).
  - intros k Hk Hin. unfold threshold_entry.
    destruct (elem_getitem_Ok d k Hin) as [s Hs]. rewrite Hs, Hm.
    destruct (numeric_metrics_as_floats d k s Hn Hk Hs) as [_ [x ->]].
    destruct (known_method_threshold sqrtQ method x Hm) as [t ->]. by eexists.
  - by exists res.
Qed.

(** ** The time-pattern aggregator *)

Lemma getitem_setitem_eq d k v : getitem (setitem d k v) k = Ok v.
Proof. unfold getitem, setitem. cbn [columns]. by rewrite assoc_dict_set_eq. Qed.

Lemma getitem_setitem_ne d k k' v :
  k <> k' -> getitem (setitem d k v) k' = getitem d k'.
Proof.
  intros Hne. unfold getitem, setitem. cbn [columns].
  by rewrite assoc_dict_set_ne.
Qed.

Lemma names_setitem d k v m : m ∈ names (setitem d k v) <-> m = k \/ m ∈ names d.
Proof. unfold names, setitem. cbn [columns]. apply elem_of_dict_set. Qed.

Lemma metric_not_derived m :
  m ∈ metrics -> m <> "Hour" /\ m <> "DayOfWeek" /\ m <> "Date".
Proof.
  unfold metrics. rewrite !elem_of_cons, elem_of_nil.
  intros [-> | [-> | [-> | [-> | []]]]]; done.
Qed.

Lemma getitem_with_time_columns d ts m :
  m ∈ metrics -> getitem (with_time_columns d ts) m = getitem d m.
Proof.
  intros (H1 & H2 & H3)%metric_not_derived. unfold with_time_columns.
  by rewrite !getitem_setitem_ne.
Qed.

Lemma names_with_time_columns d ts m :
  m ∈ metrics -> m ∈ names (with_time_columns d ts) <-> m ∈ names d.
Proof.
  intros (H1 & H2 & H3)%metric_not_derived. unfold with_time_columns.
  rewrite !names_setitem. tauto.
Qed.

Lemma set_col_run l name s h d :
  h !! l = Some d ->
  set_col l name s h = (Ok tt, <[l := setitem d name s]> h).
Proof. intros Hd. unfold set_col, modify. by rewrite Hd. Qed.

Lemma lookup_last (h : heap) d : (h ++ [d]) !! length h = Some d.
Proof. by rewrite lookup_app_r, Nat.sub_diag by lia. Qed.

Lemma insert_last (h : heap) d d' : <[length h := d']> (h ++ [d]) = h ++ [d'].
Proof. by rewrite insert_app_r_alt, Nat.sub_diag by lia. Qed.

Lemma df_copy_run l h d : h !! l = Some d -> df_copy l h = (Ok (length h), h ++ [d]).
Proof. intros Hd. unfold df_copy, bind, deref, alloc. by rewrite Hd. Qed.

(** A loop whose body only reads the store is a fold over its items. *)
Lemma for_each_pure {A B} (body : B -> A -> M B) (step : B -> A -> result B)
      (h : heap) :
  (forall acc x, body acc x h = (step acc x, h)) ->
  forall xs acc, for_each xs acc body h = (fold_result step xs acc, h).
Proof.
  intros Hb. induction xs as [| x xs IH]; intros acc; simpl; [done |].
  unfold bind. rewrite Hb. destruct (step acc x); [apply IH | done].
Qed.

Lemma fst_map_pair {A B} (f : A -> B) (l : list A) :
  (map (fun k => (k, f k)) l).*1 = l.
Proof. induction l as [| x l IH]; [done |]. simpl. f_equal. exact IH. Qed.

Section TimePatterns.

Variable sqrtQ : Q -> Q.

(** The columns that a [groupby] selection aggregates, read one by one. *)
Lemma selected_columns_run df h d cols :
  h !! df = Some d ->
  (forall c, c ∈ cols -> exists xs, numeric_col d c = Ok xs) ->
  forall acc,
    exists sel,
      for_each cols acc
        (fun acc c => (s <- col df c ;; xs <- lift (as_floats s) ;;
                       ret (acc ++ [(c, xs)]))%py) h
      = (Ok (acc ++ sel), h) /\ sel.*1 = cols.
Proof.
  intros Hd Hnum acc.
  rewrite (for_each_pure _
             (fun acc c => match numeric_col d c with
                           | Ok xs => Ok (acc ++ [(c, xs)])
                           | Raise e => Raise e
                           end)).
  2:{ intros acc' c. run_reads Hd. unfold numeric_col.
      destruct (getitem d c) as [s |]; [| done]. by destruct (as_floats s). }
  revert acc. induction cols as [| c cols IH]; intros acc; cbn [fold_result].
  - exists []. by rewrite app_nil_r.
  - destruct (Hnum c) as [xs ->]; [apply list_elem_of_here |].
    destruct (IH (fun c' Hc' => Hnum c' (list_elem_of_further _ _ _ Hc'))
                 (acc ++ [(c, xs)])) as (sel & Hrun & Hsel).
    exists ((c, xs) :: sel). apply pair_fst_eq in Hrun.
    rewrite Hrun, <- app_assoc. split; [done |].
    by rewrite fmap_cons, Hsel.
Qed.

Lemma groupby_returns df by_ cols h d key keys :
  h !! df = Some d ->
  getitem d by_ = Ok key -> key_values key = Ok keys ->
  (forall c, c ∈ cols -> c ∈ names d /\ exists xs, numeric_col d c = Ok xs) ->
  exists table,
    groupby_agg sqrtQ df by_ cols h = (Ok table, h) /\
    table.*1 = merge_sort Z.le (distinct keys) /\
    Forall (fun row => row.2.*1 = cols) table.
Proof.
  intros Hd Hkey Hkeys Hcols. unfold groupby_agg. run_reads Hd.
  rewrite Hkey, Hkeys. run_reads Hd.
  assert (Hall : forallb (fun c => bool_decide (c ∈ names d)) cols = true).
  { apply forallb_forall. intros c Hc%list_elem_of_In.
    apply bool_decide_eq_true_2, Hcols, Hc. }
  rewrite Hall. cbn [negb].
  destruct (selected_columns_run df h d cols Hd (fun c Hc => proj2 (Hcols c Hc)) [])
    as (sel & Hrun & Hsel).
  rewrite bind_unfold, Hrun. run_reads Hd. cbn [app].
  eexists. split; [done |]. split.
  - apply fst_map_pair.
  - apply Forall_forall. intros row Hrow%list_elem_of_In.
    apply in_map_iff in Hrow as (k & <- & _). cbn [snd].
    rewrite <- Hsel. clear. induction sel as [| [c xs] sel IH]; [done |].
    simpl. f_equal. exact IH.
Qed.

Lemma groupby_missing df by_ cols h d key keys c :
  h !! df = Some d ->
  getitem d by_ = Ok key -> key_values key = Ok keys ->
  c ∈ cols -> c ∉ names d ->
  groupby_agg sqrtQ df by_ cols h = (Raise KeyError, h).
Proof.
  intros Hd Hkey Hkeys Hc Hn. unfold groupby_agg. run_reads Hd.
  rewrite Hkey, Hkeys. run_reads Hd.
  assert (Hall : forallb (fun c => bool_decide (c ∈ names d)) cols = false).
  { apply not_true_is_false. rewrite forallb_forall. intros Hall.
    apply list_elem_of_In in Hc. specialize (Hall c Hc).
    by apply bool_decide_eq_true_1 in Hall. }
  rewrite Hall. cbn [negb]. by run_reads Hd.
Qed.

End TimePatterns.

(** ** Which exceptions a computation can raise *)

Lemma raises_only_ret P {A} (a : A) : raises_only P (ret a).
Proof. by intros h e h'. Qed.

Lemma raises_only_raise P {A} e : P e -> raises_only P (@raise A e).
Proof. intros He h e' h' [= <- _]. exact He. Qed.

Lemma raises_only_lift P {A} (r : result A) :
  (forall e, r = Raise e -> P e) -> raises_only P (lift r).
Proof. intros Hr h e h' [= -> _]. by apply Hr. Qed.

Lemma raises_only_bind P {A B} (m : M A) (k : A -> M B) :
  raises_only P m -> (forall a, raises_only P (k a)) -> raises_only P (bind m k).
Proof.
  intros Hm Hk h e h'. rewrite bind_unfold.
  destruct (m h) as [[a | e0] h0] eqn:E.
  - apply Hk.
  - intros [= <- _]. by eapply Hm.
Qed.

Lemma raises_only_if P {A} (b : bool) (m1 m2 : M A) :
  raises_only P m1 -> raises_only P m2 -> raises_only P (if b then m1 else m2).
Proof. by destruct b. Qed.

Lemma raises_only_for_each P {A B} (xs : list A) (body : B -> A -> M B) acc :
  (forall acc x, raises_only P (body acc x)) ->
  raises_only P (for_each xs acc body).
Proof.
  intros Hb. revert acc. induction xs as [| x xs IH]; intros acc; simpl.
  - apply raises_only_ret.
  - apply raises_only_bind; [apply Hb | intros a; apply IH].
Qed.

Lemma raises_only_deref P l : P KeyError -> raises_only P (deref l).
Proof.
  intros HP h e h'. unfold deref. destruct (h !! l); [done |].
  by intros [= <- _].
Qed.

Lemma raises_only_alloc P d : raises_only P (alloc d).
Proof. by intros h e h'. Qed.

Lemma raises_only_modify P l f : P KeyError -> raises_only P (modify l f).
Proof.
  intros HP h e h'. unfold modify. destruct (h !! l); [done |].
  by intros [= <- _].
Qed.

Lemma getitem_raises d k e : getitem d k = Raise e -> e = KeyError.
Proof. unfold getitem. destruct (assoc k (columns d)); congruence. Qed.

Lemma as_floats_raises s e : as_floats s = Raise e -> e = TypeError.
Proof. destruct s; simpl; congruence. Qed.

Lemma key_values_raises s e : key_values s = Raise e -> e = TypeError.
Proof. destruct s; simpl; congruence. Qed.

Lemma dt_raises s e : dt s = Raise e -> e = AttributeError.
Proof. destruct s; simpl; congruence. Qed.

Lemma time_patterns_no_ValueError_after_guard sqrtQ df (cols : list string) :
  bool_decide ("Time" ∈ cols) = true ->
  raises_only (fun e => e <> ValueError)
    (if negb (bool_decide ("Time" ∈ cols)) then raise ValueError
     else
       df <- df_copy df ;;
       t <- col df "Time" ;; ts <- lift (dt t) ;;
       set_col df "Hour" (dt_hour ts) ;;;
       t <- col df "Time" ;; ts <- lift (dt t) ;;
       set_col df "DayOfWeek" (dt_dayofweek ts) ;;;
       t <- col df "Time" ;; ts <- lift (dt t) ;;
       set_col df "Date" (dt_date ts) ;;;
       let time_patterns := [] in
       hourly_stats <- groupby_agg sqrtQ df "Hour" metrics ;;
       let time_patterns := dict_set "hourly" hourly_stats time_patterns in
       date <- col df "Date" ;;
       dates <- lift (key_values date) ;;
       if (1 <? length (distinct dates))%nat then
         daily_stats <- groupby_agg sqrtQ df "Date" metrics ;;
         ret (dict_set "daily" daily_stats time_patterns)
       else ret time_patterns)%py.
Proof.
  intros ->. cbn [negb].
  unfold df_copy, col, set_col, groupby_agg, df_columns.
  repeat first
    [ apply raises_only_ret
    | apply raises_only_alloc
    | apply raises_only_deref; done
    | apply raises_only_modify; done
    | apply raises_only_raise; done
    | apply raises_only_lift; intros e He;
      first [ apply getitem_raises in He | apply as_floats_raises in He
            | apply key_values_raises in He | apply dt_raises in He ];
      by subst
    | apply raises_only_if
    | apply raises_only_for_each; intros
    | apply raises_only_bind; [| intros] ].
Qed.

Section TimePatternsRun.

Variable sqrtQ : Q -> Q.

Lemma time_patterns_without_Time df h d :
  h !! df = Some d -> "Time" ∉ names d ->
  analyze_time_patterns sqrtQ df h = (Raise ValueError, h).
Proof.
  intros Hd Ht. unfold analyze_time_patterns. run_reads Hd.
  by rewrite bool_decide_eq_false_2.
Qed.

(** With a datetime [Time] column the aggregator copies the table, assigns
    the three derived columns to the copy and goes on to the groupings,
    which read the copy. *)
Lemma time_patterns_prologue df h d ts :
  h !! df = Some d -> getitem d "Time" = Ok (Stamps ts) ->
  analyze_time_patterns sqrtQ df h =
  (hourly_stats <- groupby_agg sqrtQ (length h) "Hour" metrics ;;
   let time_patterns := dict_set "hourly" hourly_stats [] in
   date <- col (length h) "Date" ;;
   dates <- lift (key_values date) ;;
   if (1 <? length (distinct dates))%nat then
     daily_stats <- groupby_agg sqrtQ (length h) "Date" metrics ;;
     ret (dict_set "daily" daily_stats time_patterns)
   else ret time_patterns)%py (h ++ [with_time_columns d ts]).
Proof.
  intros Hd Ht. unfold analyze_time_patterns.
  rewrite bind_unfold, (df_columns_run _ _ _ Hd).
  rewrite bool_decide_eq_true_2 by by eapply getitem_Ok_elem. cbn [negb].
  rewrite bind_unfold, (df_copy_run _ _ _ Hd).
  pose proof (lookup_last h d) as H0.
  rewrite bind_unfold, (col_run _ _ _ _ H0), Ht.
  rewrite bind_unfold, lift_unfold. cbn [dt].
  rewrite bind_unfold, (set_col_run _ _ _ _ _ H0), insert_last.
  set (d1 := setitem d "Hour" (dt_hour ts)).
  pose proof (lookup_last h d1) as H1.
  rewrite bind_unfold, (col_run _ _ _ _ H1).
  unfold d1 at 1. rewrite getitem_setitem_ne, Ht by done.
  rewrite bind_unfold, lift_unfold. cbn [dt].
  rewrite bind_unfold, (set_col_run _ _ _ _ _ H1), insert_last.
  set (d2 := setitem d1 "DayOfWeek" (dt_dayofweek ts)).
  pose proof (lookup_last h d2) as H2.
  rewrite bind_unfold, (col_run _ _ _ _ H2).
  unfold d2 at 1, d1 at 1. rewrite !getitem_setitem_ne, Ht by done.
  rewrite bind_unfold, lift_unfold. cbn [dt].
  rewrite bind_unfold, (set_col_run _ _ _ _ _ H2), insert_last.
  done.
Qed.

Lemma time_patterns_run df h d ts :
  h !! df = Some d ->
  getitem d "Time" = Ok (Stamps ts) ->
  (forall m, m ∈ metrics -> m ∈ names d) ->
  numeric_metrics d = true ->
  exists hourly daily,
    analyze_time_patterns sqrtQ df h
    = (Ok (if (1 <? length (distinct (map (option_map date_of) ts)))%nat
           then [("hourly", hourly); ("daily", daily)]
           else [("hourly", hourly)]),
       h ++ [with_time_columns d ts]) /\
    hourly.*1 = merge_sort Z.le (distinct (map (option_map hour_of) ts)) /\
    daily.*1 = merge_sort Z.le (distinct (map (option_map date_of) ts)).
Proof.
  intros Hd Ht Hall Hnum. rewrite (time_patterns_prologue _ _ _ _ Hd Ht).
  set (d3 := with_time_columns d ts).
  pose proof (lookup_last h d3) as H3.
  assert (Hcols : forall c, c ∈ metrics ->
                            c ∈ names d3 /\ exists xs, numeric_col d3 c = Ok xs).
  { intros c Hc. split; [by apply names_with_time_columns, Hall |].
    unfold numeric_col, d3. rewrite getitem_with_time_columns by done.
    destruct (elem_getitem_Ok d c (Hall c Hc)) as [s Hs]. rewrite Hs.
    by destruct (numeric_metrics_as_floats d c s Hnum Hc Hs) as [Hx _]. }
  assert (Hhour : getitem d3 "Hour" = Ok (dt_hour ts)).
  { unfold d3, with_time_columns.
    by rewrite !getitem_setitem_ne, getitem_setitem_eq by done. }
  assert (Hdate : getitem d3 "Date" = Ok (dt_date ts)).
  { unfold d3, with_time_columns. by rewrite getitem_setitem_eq. }
  destruct (groupby_returns sqrtQ _ "Hour" metrics _ d3 _ _ H3 Hhour eq_refl Hcols)
    as (hourly & Hh & Hhk & _).
  destruct (groupby_returns sqrtQ _ "Date" metrics _ d3 _ _ H3 Hdate eq_refl Hcols)
    as (daily & Hdl & Hdk & _).
  exists hourly, daily. split; [| done].
  rewrite bind_unfold, Hh. cbv zeta.
  rewrite bind_unfold, (col_run _ _ _ _ H3), Hdate.
  rewrite bind_unfold, lift_unfold. cbn [dt_date key_values].
  destruct (1 <? _)%nat; [| done].
  by rewrite bind_unfold, Hdl.
Qed.

(** A metric column that the table lacks stops the hourly grouping. *)
Lemma time_patterns_missing_metric df h d ts m :
  h !! df = Some d ->
  getitem d "Time" = Ok (Stamps ts) ->
  m ∈ metrics -> m ∉ names d ->
  analyze_time_patterns sqrtQ df h
  = (Raise KeyError, h ++ [with_time_columns d ts]).
Proof.
  intros Hd Ht Hm Hn. rewrite (time_patterns_prologue _ _ _ _ Hd Ht).
  set (d3 := with_time_columns d ts).
  pose proof (lookup_last h d3) as H3.
  assert (Hhour : getitem d3 "Hour" = Ok (dt_hour ts)).
  { unfold d3, with_time_columns.
    by rewrite !getitem_setitem_ne, getitem_setitem_eq by done. }
  rewrite bind_unfold.
  rewrite (groupby_missing sqrtQ _ "Hour" metrics _ d3 _ _ m H3 Hhour eq_refl Hm);
    [done |].
  unfold d3. by rewrite names_with_time_columns.
Qed.

(** C7, amended.  For a table with a datetime column named [Time] and
    the four metric columns, the time-pattern aggregator returns, always
    with the hourly grouping, and with the calendar-date grouping exactly
    when the timestamps fall on more than one distinct calendar date; for
    a single date the daily output is absent. *)
Theorem daily_grouping_only_for_several_dates :
  forall (df : loc) (h : heap) (d : DataFrame) (ts : list (option Z)),
    h !! df = Some d ->
    getitem d "Time" = Ok (Stamps ts) ->
    (forall m, m ∈ metrics -> m ∈ names d) ->
    numeric_metrics d = true ->
    exists time_patterns h',
      analyze_time_patterns sqrtQ df h = (Ok time_patterns, h') /\
      is_Some (assoc "hourly" time_patterns) /\
      (is_Some (assoc "daily" time_patterns)
       <-> (1 < length (distinct (map (option_map date_of) ts)))%nat).
Proof.
  intros df h d ts Hd Ht Hall Hnum.
  destruct (time_patterns_run df h d ts Hd Ht Hall Hnum)
    as (hourly & daily & Hrun & _).
  do 2 eexists. split; [exact Hrun |].
  destruct (Nat.ltb_spec 1 (length (distinct (map (option_map date_of) ts))))
    as [Hlt | Hge]; cbn [assoc String.eqb Ascii.eqb Bool.eqb].
  - split; [by eexists |]. split; [done | by eexists].
  - split; [by eexists |]. split; [intros [? [=]] | lia].
Qed.

(** C8, amended.  The time-pattern aggregator fails with the validation
    error exactly when the table has no column named [Time]; a [dteday]
    column does not stand in for it.  With a datetime [Time] column and
    the four metric columns it returns without error. *)
Theorem validation_error_iff_no_Time_column :
  forall (df : loc) (h : heap) (d : DataFrame),
    h !! df = Some d ->
    ((analyze_time_patterns sqrtQ df h).1 = Raise ValueError
     <-> "Time" ∉ names d) /\
    (forall ts,
        getitem d "Time" = Ok (Stamps ts) ->
        (forall m, m ∈ metrics -> m ∈ names d) ->
        numeric_metrics d = true ->
        exists time_patterns h',
          analyze_time_patterns sqrtQ df h = (Ok time_patterns, h')).
Proof.
  intros df h d Hd. split; [split |].
  - intros Hv Ht. revert Hv. unfold analyze_time_patterns.
    rewrite bind_unfold, (df_columns_run _ _ _ Hd).
    pose proof (time_patterns_no_ValueError_after_guard sqrtQ df (names d)
                  (bool_decide_eq_true_2 _ Ht) h) as Hno.
    destruct (_ h) as [[tp | e] h'] eqn:E in Hno |- *; [done |].
    cbn [fst]. intros [= ->]. by eapply Hno.
  - intros Ht. by rewrite (time_patterns_without_Time _ _ _ Hd Ht).
  - intros ts Ht Hall Hnum.
    destruct (time_patterns_run df h d ts Hd Ht Hall Hnum)
      as (hourly & daily & Hrun & _).
    by do 2 eexists.
Qed.

End TimePatternsRun.

(** * The definitions at work *)

Lemma sqrt_approx_nonneg : forall q, (0 <= sqrt_approx q)%Q.
Proof.
  intros q. unfold sqrt_approx. apply Qle_shift_div_l.
  - change 0%Q with (inject_Z 0). rewrite <- Zlt_Qlt. lia.
  - rewrite Qmult_0_l. change 0%Q with (inject_Z 0). rewrite <- Zle_Qle.
    apply Z.sqrt_nonneg.
Qed.

Example percentile_thresholds_of_cpu :
  exists t w c,
    assoc "CPU_Usage" server_thresholds = Some t /\
    warning t = Some w /\ critical t = Some c /\
    (w == 974 # 10)%Q /\ (c == 982 # 10)%Q.
Proof. do 3 eexists. repeat split; vm_compute; reflexivity. Qed.

(** C1.  On a table with a metric column and no row the threshold
    calculator returns (NaN cutoffs), and the anomaly detector, given those
    thresholds, divides by the row count zero. *)
Theorem empty_table_anomaly_percentage_divides_by_zero :
  calculate_alertness_thresholds sqrt_approx 0 "percentile" [empty_table]
  = (Ok [("CPU_Usage", {| warning := NaN; critical := NaN; method := "percentile" |})],
     [empty_table]) /\
  (detect_anomalies 0
     [("CPU_Usage", {| warning := NaN; critical := NaN; method := "percentile" |})]
     [empty_table]).1
  = Raise ZeroDivisionError.
Proof. split; vm_compute; reflexivity. Qed.

(** C2.  On a table with [Time] and [CPU_Usage] only, the descriptive
    statistics, the distribution analyzer and the threshold calculator skip
    the three absent metrics and return an entry for [CPU_Usage]; the
    time-pattern aggregator raises KeyError for them. *)
Theorem time_patterns_do_not_skip_absent_metrics :
  (exists st, (calculate_descriptive_statistics sqrt_approx 0 [cpu_only_table]).1
              = Ok [("CPU_Usage", st)]) /\
  (exists r, (analyze_data_distribution sqrt_approx sample_shapiro sample_kstest
                sample_moment sample_moment 0 [cpu_only_table]).1
             = Ok [("CPU_Usage", r)]) /\
  (exists t, (calculate_alertness_thresholds sqrt_approx 0 "percentile"
                [cpu_only_table]).1
             = Ok [("CPU_Usage", t)]) /\
  (analyze_time_patterns sqrt_approx 0 [cpu_only_table]).1 = Raise KeyError.
Proof.
  split; [| split; [| split]].
  - eexists. vm_compute. reflexivity.
  - eexists. vm_compute. reflexivity.
  - eexists. vm_compute. reflexivity.
  - vm_compute. reflexivity.
Qed.

Lemma has_all_metrics_elem d :
  has_all_metrics d = true -> forall m, m ∈ metrics -> m ∈ names d.
Proof.
  unfold has_all_metrics. rewrite forallb_forall.
  intros H m Hm%list_elem_of_In. apply H in Hm.
  by apply bool_decide_eq_true_1 in Hm.
Qed.

(** C3: the claim fails for the std method on a single reading, whose sample
    standard deviation is NaN: both cutoffs are NaN and NaN >= NaN is
    false. *)
Lemma single_reading_std_cutoffs_are_nan :
  getitem single_row_table "CPU_Usage" = Ok (Floats [num 50]) /\
  count [num 50] = 1%nat /\
  calculate_alertness_thresholds sqrt_approx 0 "std" [single_row_table]
  = (Ok [("CPU_Usage",
          {| warning := NaN; critical := NaN; method := "standard_deviation" |})],
     [single_row_table]) /\
  fge NaN NaN = false.
Proof. repeat split; vm_compute; reflexivity. Qed.

Lemma critical_at_least_warning_witness :
  exists ths t,
    calculate_alertness_thresholds sqrt_approx 0 "std" [server_table]
    = (Ok ths, [server_table]) /\
    assoc "CPU_Usage" ths = Some t /\
    fge (critical t) (warning t) = true.
Proof.
  apply (critical_at_least_warning sqrt_approx 0 "std" [server_table] server_table
           "CPU_Usage" (Floats [num 70; num 80; num 90; num 95; num 99])
           [num 70; num 80; num 90; num 95; num 99] sqrt_approx_nonneg).
  - reflexivity.
  - reflexivity.
  - apply list_elem_of_here.
  - reflexivity.
  - reflexivity.
  - reflexivity.
  - vm_compute. lia.
  - intros _. vm_compute. lia.
Defined.

Lemma critical_anomalies_within_warning_anomalies_witness :
  exists anomalies h' a,
    detect_anomalies 0 server_thresholds [server_table] = (Ok anomalies, h') /\
    assoc "CPU_Usage" anomalies = Some a /\
    exists xs w c,
      h' !! warning_data a = Some (above server_table xs w) /\
      h' !! critical_data a = Some (above server_table xs c) /\
      (forall i, gt_mask xs c !! i = Some true -> gt_mask xs w !! i = Some true) /\
      sublist (index (above server_table xs c)) (index (above server_table xs w)).
Proof.
  do 3 eexists. split; [vm_compute; reflexivity |]. split; [vm_compute; reflexivity |].
  eapply (critical_anomalies_within_warning_anomalies sqrt_approx 0 "percentile"
            [server_table] [server_table] server_thresholds 0 [server_table] _
            server_table _ "CPU_Usage" _ sqrt_approx_nonneg).
  - vm_compute. reflexivity.
  - reflexivity.
  - vm_compute. reflexivity.
  - vm_compute. reflexivity.
Defined.

(** C5: the claim fails when the Shapiro-Wilk test is run and returns NaN
    as its p-value.  On two readings the test is run (two is at most 5000),
    its p-value is NaN, and the verdict is (KS p-value > 0.05), here true,
    where (Shapiro p-value > 0.05) is false. *)
Lemma nan_shapiro_p_value_gives_the_ks_verdict :
  exists res r,
    analyze_data_distribution sqrt_approx small_sample_shapiro sample_kstest
      sample_moment sample_moment 0 [dteday_table]
    = (Ok res, [dteday_table]) /\
    assoc "CPU_Usage" res = Some r /\
    getitem dteday_table "CPU_Usage" = Ok (Floats [num 70; num 80]) /\
    (length (dropna_floats [num 70; num 80]) <=? 5000)%nat = true /\
    (shapiro_statistic r, shapiro_p_value r)
    = small_sample_shapiro (dropna_floats [num 70; num 80]) /\
    fgt (shapiro_p_value r) (Some (5 # 100)) = false /\
    fgt (ks_p_value r) (Some (5 # 100)) = true /\
    is_normal r = true.
Proof. do 2 eexists. repeat split; vm_compute; reflexivity. Qed.

Lemma normality_verdict_follows_sample_size_witness :
  exists res r,
    analyze_data_distribution sqrt_approx sample_shapiro sample_kstest
      sample_moment sample_moment 0 [server_table]
    = (Ok res, [server_table]) /\
    assoc "Temperature" res = Some r /\
    shapiro_p_value r = Some (40 # 100) /\
    is_normal r = true.
Proof.
  destruct (normality_verdict_follows_sample_size sqrt_approx sample_shapiro
              sample_kstest sample_moment sample_moment 0 [server_table]
              server_table "Temperature"
              (Floats [num 40; num 42; NaN; num 55; num 47])
              [num 40; num 42; num 55; num 47])
    as (res & r & Hrun & Ha & _ & Hsmall & _ & Hnum & _).
  - reflexivity.
  - reflexivity.
  - do 3 apply list_elem_of_further. apply list_elem_of_here.
  - reflexivity.
  - reflexivity.
  - exists res, r. specialize (Hsmall ltac:(vm_compute; lia)).
    injection Hsmall as _ Hp. destruct Hnum as [_ Hv]; [by rewrite Hp |].
    rewrite Hv, Hp. repeat split; [exact Hrun | exact Ha].
Defined.

Lemma unknown_method_yields_no_thresholds_witness :
  calculate_alertness_thresholds sqrt_approx 0 "median" [server_table]
  = (Ok [], [server_table]).
Proof.
  apply (unknown_method_yields_no_thresholds sqrt_approx 0 "median" [server_table]
           server_table); [reflexivity | discriminate | discriminate | discriminate].
Defined.

(** C7: a table whose timestamp column is [dteday] has a timestamp column
    and the four metrics, and gets no hourly grouping: the aggregator stops
    at its check for [Time]. *)
Lemma dteday_table_gets_no_hourly_grouping :
  getitem dteday_table "dteday" = Ok (Stamps [Some 0; Some 86400]%Z) /\
  has_all_metrics dteday_table = true /\
  numeric_metrics dteday_table = true /\
  analyze_time_patterns sqrt_approx 0 [dteday_table]
  = (Raise ValueError, [dteday_table]).
Proof. repeat split; vm_compute; reflexivity. Qed.

Lemma daily_grouping_only_for_several_dates_witness :
  exists time_patterns h',
    analyze_time_patterns sqrt_approx 0 [server_table] = (Ok time_patterns, h') /\
    is_Some (assoc "hourly" time_patterns) /\
    (is_Some (assoc "daily" time_patterns)
     <-> (1 < length (distinct (map (option_map date_of)
                                   [Some 0; Some 3600; Some 7200; Some 90000;
                                    Some 93600]%Z)))%nat).
Proof.
  apply (daily_grouping_only_for_several_dates sqrt_approx 0 [server_table]
           server_table).
  - reflexivity.
  - reflexivity.
  - apply has_all_metrics_elem. reflexivity.
  - reflexivity.
Defined.

Example single_day_has_no_daily_grouping :
  exists hourly,
    (analyze_time_patterns sqrt_approx 0 [single_day_table]).1
    = Ok [("hourly", hourly)].
Proof. eexists. vm_compute. reflexivity. Qed.

(** C8: with a recognized timestamp column, [dteday], present, the
    aggregator still fails with the validation error. *)
Lemma dteday_column_is_not_accepted_for_Time :
  "dteday" ∈ names dteday_table /\
  (analyze_time_patterns sqrt_approx 0 [dteday_table]).1 = Raise ValueError.
Proof. split; [apply list_elem_of_here | vm_compute; reflexivity]. Qed.

Lemma validation_error_iff_no_Time_column_witness :
  ((analyze_time_patterns sqrt_approx 0 [server_table]).1 = Raise ValueError
   <-> "Time" ∉ names server_table) /\
  (forall ts,
      getitem server_table "Time" = Ok (Stamps ts) ->
      (forall m, m ∈ metrics -> m ∈ names server_table) ->
      numeric_metrics server_table = true ->
      exists time_patterns h',
        analyze_time_patterns sqrt_approx 0 [server_table]
        = (Ok time_patterns, h')).
Proof.
  apply (validation_error_iff_no_Time_column sqrt_approx 0 [server_table]
           server_table).
  reflexivity.
Defined.

Lemma anomalies_only_for_thresholded_columns_witness :
  exists anomalies h',
    detect_anomalies 0 mixed_thresholds [server_table] = (Ok anomalies, h') /\
    (is_Some (assoc "CPU_Usage" anomalies)) /\
    ~ is_Some (assoc "Disk_Usage" anomalies).
Proof.
  assert (Hdisk : "Disk_Usage" ∉ names server_table).
  { apply (bool_decide_eq_false_1 ("Disk_Usage" ∈ names server_table)).
    vm_compute. reflexivity. }
  destruct (anomalies_only_for_thresholded_columns 0 mixed_thresholds
              [server_table] server_table) as (_ & Hkeys & _ & Hret);
    [reflexivity |].
  destruct Hret as (anomalies & h' & Hrun).
  - vm_compute. lia.
  - intros m Hm Hn. cbn in Hm.
    apply elem_of_cons in Hm as [-> | Hm]; [by eexists |].
    apply elem_of_cons in Hm as [-> | Hm]; [done | by apply elem_of_nil in Hm].
  - exists anomalies, h'. split; [exact Hrun |]. split.
    + apply (Hkeys _ _ Hrun). split; [by eexists |].
      apply list_elem_of_further, list_elem_of_here.
    + intros Hd. by apply (Hkeys _ _ Hrun) in Hd as [_ Hd].
Defined.

(** * Further properties of the anomaly detector *)

Lemma select_length_le {A} (mask : list bool) (l : list A) :
  (length (select mask l) <= length l)%nat.
Proof.
  revert l. induction mask as [| b mask IH]; intros [| x l]; simpl; try lia.
  specialize (IH l). destruct b; simpl; lia.
Qed.

Lemma select_own_mask {A} (f : A -> bool) (xs : list A) :
  select (map f xs) xs = List.filter f xs.
Proof.
  induction xs as [| x xs IH]; [done |]. simpl. destruct (f x); by rewrite IH.
Qed.

Lemma select_map {A B} (g : A -> B) (mask : list bool) (l : list A) :
  select mask (map g l) = map g (select mask l).
Proof.
  revert l. induction mask as [| b mask IH]; intros [| x l]; simpl; try done.
  destruct b; simpl; by rewrite IH.
Qed.

Lemma select_length_eq {A B} (mask : list bool) (l : list A) (k : list B) :
  length l = length k -> length (select mask l) = length (select mask k).
Proof.
  revert l k. induction mask as [| b mask IH]; intros [| x l] [| y k]; simpl;
    try done.
  intros [= Hlen]. specialize (IH l k Hlen). destruct b; simpl; lia.
Qed.

Lemma assoc_map_values {A B} (f : A -> B) k (l : list (string * A)) :
  assoc k (map (fun '(n, s) => (n, f s)) l) = option_map f (assoc k l).
Proof.
  induction l as [| [k' v] l IH]; [done |]. simpl.
  by destruct (String.eqb k k').
Qed.

Lemma names_df_filter d mask : names (df_filter d mask) = names d.
Proof.
  unfold names, df_filter. cbn [columns].
  induction (columns d) as [| [n s] l IH]; [done |]. simpl. f_equal. exact IH.
Qed.

Lemma as_floats_select mask s xs :
  as_floats s = Ok xs -> as_floats (select_series mask s) = Ok (select mask xs).
Proof.
  destruct s; simpl; try done; intros [= <-]; [done |].
  by rewrite select_map.
Qed.

Lemma numeric_col_above d m xs threshold :
  numeric_col d m = Ok xs ->
  numeric_col (above d xs threshold) m
  = Ok (List.filter (fun x => fgt x threshold) xs).
Proof.
  unfold numeric_col, above, df_filter, getitem. cbn [columns].
  rewrite assoc_map_values. destruct (assoc m (columns d)) as [s |]; [| done].
  simpl. intros Hs. rewrite (as_floats_select _ _ _ Hs). unfold gt_mask.
  by rewrite select_own_mask.
Qed.

Lemma as_floats_length s xs : as_floats s = Ok xs -> length xs = series_len s.
Proof.
  destruct s; simpl; try done; intros [= <-]; [done |]. apply length_map.
Qed.

Lemma well_formed_numeric_col d m xs :
  well_formed d = true -> numeric_col d m = Ok xs -> length xs = df_len d.
Proof.
  unfold well_formed, numeric_col, getitem. rewrite forallb_forall.
  intros Hwf. destruct (assoc m (columns d)) as [s |] eqn:Es; [| done].
  intros Hs. rewrite (as_floats_length _ _ Hs).
  assert (Hin : In (m, s) (columns d)).
  { clear Hwf Hs. induction (columns d) as [| [k v] l IH]; [done |].
    simpl in Es. destruct (String.eqb_spec m k) as [-> | Hne].
    - injection Es as ->. by left.
    - right. by apply IH. }
  apply Hwf in Hin. by apply Nat.eqb_eq in Hin.
Qed.

(** An invariant of the detector's loop: a property of the entries that
    holds for each record when it is stored, and survives the allocations
    that follow. *)
Lemma detect_loop_inv df d (P : string -> Anomaly -> heap -> Prop) :
  (forall m a (h k : heap), P m a h -> P m a (h ++ k)) ->
  forall ths,
    (forall m t xs (h : heap) a,
        (m, t) ∈ ths -> h !! df = Some d -> numeric_col d m = Ok xs ->
        anomaly_record d (above d xs (warning t)) (above d xs (critical t))
                       (length h) (S (length h)) = Ok a ->
        P m a (h ++ [above d xs (warning t); above d xs (critical t)])) ->
    forall acc (h : heap) an h',
      h !! df = Some d ->
      Forall (fun it => P it.1 it.2 h) acc ->
      for_each ths acc (detect_metric df) h = (Ok an, h') ->
      Forall (fun it => P it.1 it.2 h') an.
Proof.
  intros Hext. induction ths as [| [metric t] ths IH]; intros Hstep acc h an h' Hd Hacc;
    cbn [for_each].
  - by intros [= <- <-].
  - assert (Hstep' : forall m t xs (h : heap) a,
               (m, t) ∈ ths -> h !! df = Some d -> numeric_col d m = Ok xs ->
               anomaly_record d (above d xs (warning t)) (above d xs (critical t))
                              (length h) (S (length h)) = Ok a ->
               P m a (h ++ [above d xs (warning t); above d xs (critical t)])).
    { intros m t' xs h0 a Hin. apply Hstep. by apply list_elem_of_further. }
    rewrite bind_unfold, (detect_metric_run _ _ _ _ _ _ Hd).
    case_bool_decide as Hm; [| by apply IH].
    destruct (numeric_col d metric) as [xs |] eqn:Ex; [| done]. cbv zeta.
    destruct (anomaly_record _ _ _ _ _) as [a |] eqn:Ea; [| done].
    apply IH; [done | by apply lookup_app_l_Some |].
    apply (Forall_dict_set (fun m a => P m a (h ++ _))).
    + apply (Hstep metric t xs h a); [apply list_elem_of_here | done | done | done].
    + eapply Forall_impl; [exact Hacc |]. intros it. apply Hext.
Qed.

Lemma anomaly_record_Ok d dw dc lw lc a :
  anomaly_record d dw dc lw lc = Ok a ->
  (0 < df_len d)%nat /\
  a = {| warning_count := df_len dw;
         critical_count := df_len dc;
         warning_data := lw;
         critical_data := lc;
         warning_percentage :=
           Some (inject_Z (Z.of_nat (df_len dw)) / inject_Z (Z.of_nat (df_len d)) * 100)%Q;
         critical_percentage :=
           Some (inject_Z (Z.of_nat (df_len dc)) / inject_Z (Z.of_nat (df_len d)) * 100)%Q |}.
Proof.
  unfold anomaly_record, py_div. destruct (df_len d) as [| n] eqn:En; [done |].
  intros [= <-]. split; [lia | done].
Qed.

Lemma percentage_bounds (n len : nat) :
  (n <= len)%nat -> (0 < len)%nat ->
  (0 <= inject_Z (Z.of_nat n) / inject_Z (Z.of_nat len) * 100 <= 100)%Q.
Proof.
  intros Hn Hlen.
  assert (H0 : (0 < inject_Z (Z.of_nat len))%Q).
  { change 0%Q with (inject_Z 0). rewrite <- Zlt_Qlt. lia. }
  assert (Hn0 : (0 <= inject_Z (Z.of_nat n))%Q).
  { change 0%Q with (inject_Z 0). rewrite <- Zle_Qle. lia. }
  assert (Hnl : (inject_Z (Z.of_nat n) <= inject_Z (Z.of_nat len))%Q).
  { rewrite <- Zle_Qle. lia. }
  assert (Hq0 : (0 <= inject_Z (Z.of_nat n) / inject_Z (Z.of_nat len))%Q).
  { apply Qle_shift_div_l; [done |]. by rewrite Qmult_0_l. }
  assert (Hq1 : (inject_Z (Z.of_nat n) / inject_Z (Z.of_nat len) <= 1)%Q).
  { apply Qle_shift_div_r; [done |]. by rewrite Qmult_1_l. }
  split; lra.
Qed.

Lemma df_len_above d xs threshold : (df_len (above d xs threshold) <= df_len d)%nat.
Proof. unfold above, df_filter, df_len. cbn [index]. apply select_length_le. Qed.

(** X1.  In every entry that the anomaly detector returns, the two counts
    are at most the number of rows of the table, which is positive, and the
    two percentages are the numbers 100 * count / rows, between 0 and
    100. *)
Theorem anomaly_percentages_between_0_and_100 :
  forall (df : loc) (thresholds : list (string * Threshold)) (h h' : heap)
         (d : DataFrame) (anomalies : list (string * Anomaly))
         (metric : string) (a : Anomaly),
    h !! df = Some d ->
    detect_anomalies df thresholds h = (Ok anomalies, h') ->
    assoc metric anomalies = Some a ->
    (0 < df_len d)%nat /\
    (warning_count a <= df_len d)%nat /\ (critical_count a <= df_len d)%nat /\
    exists pw pc,
      warning_percentage a = Some pw /\ critical_percentage a = Some pc /\
      (pw == inject_Z (Z.of_nat (warning_count a))
             / inject_Z (Z.of_nat (df_len d)) * 100)%Q /\
      (pc == inject_Z (Z.of_nat (critical_count a))
             / inject_Z (Z.of_nat (df_len d)) * 100)%Q /\
      (0 <= pw <= 100)%Q /\ (0 <= pc <= 100)%Q.
Proof.
  intros df ths h h' d an metric a Hd Hrun Ha.
  set (P := fun (_ : string) (a : Anomaly) (_ : heap) =>
              (0 < df_len d)%nat /\
              (warning_count a <= df_len d)%nat /\ (critical_count a <= df_len d)%nat /\
              exists pw pc,
                warning_percentage a = Some pw /\ critical_percentage a = Some pc /\
                (pw == inject_Z (Z.of_nat (warning_count a))
                       / inject_Z (Z.of_nat (df_len d)) * 100)%Q /\
                (pc == inject_Z (Z.of_nat (critical_count a))
                       / inject_Z (Z.of_nat (df_len d)) * 100)%Q /\
                (0 <= pw <= 100)%Q /\ (0 <= pc <= 100)%Q).
  assert (Hall : Forall (fun it => P it.1 it.2 h') an).
  { apply (detect_loop_inv df d P) with (ths := ths) (acc := []) (h := h);
      [done | | done | by apply Forall_nil_2 | exact Hrun].
    intros m t xs h0 a0 _ _ _ Hrec.
    apply anomaly_record_Ok in Hrec as [Hlen ->]. unfold P.
    cbn [warning_count critical_count warning_percentage critical_percentage].
    pose proof (df_len_above d xs (warning t)) as Hw.
    pose proof (df_len_above d xs (critical t)) as Hc.
    repeat split; [done | done | done |].
    do 2 eexists. repeat split; try reflexivity;
      by apply percentage_bounds. }
  exact (Forall_assoc (fun m a => P m a h') an metric a Hall Ha).
Qed.

Lemma percentage_mono (n m len : nat) :
  (n <= m)%nat -> (0 < len)%nat ->
  (inject_Z (Z.of_nat n) / inject_Z (Z.of_nat len) * 100
   <= inject_Z (Z.of_nat m) / inject_Z (Z.of_nat len) * 100)%Q.
Proof.
  intros Hnm Hlen.
  assert (H0 : (0 < inject_Z (Z.of_nat len))%Q).
  { change 0%Q with (inject_Z 0). rewrite <- Zlt_Qlt. lia. }
  assert (Hle : (inject_Z (Z.of_nat n) <= inject_Z (Z.of_nat m))%Q).
  { rewrite <- Zle_Qle. lia. }
  apply Qmult_le_compat_r; [| done]. unfold Qdiv.
  apply Qmult_le_compat_r; [done |]. apply Qinv_le_0_compat. lra.
Qed.

(** X2.  For every threshold map that the threshold calculator returned, the
    detector's critical count is at most its warning count, and the critical
    percentage at most the warning percentage, in every entry. *)
Theorem critical_count_at_most_warning_count :
  forall sqrtQ (df0 : loc) (sel : string) (h0 h1 : heap)
         (thresholds : list (string * Threshold))
         (df : loc) (h h' : heap) (d : DataFrame)
         (anomalies : list (string * Anomaly)) (metric : string) (a : Anomaly),
    (forall q, 0 <= sqrtQ q)%Q ->
    calculate_alertness_thresholds sqrtQ df0 sel h0 = (Ok thresholds, h1) ->
    h !! df = Some d ->
    detect_anomalies df thresholds h = (Ok anomalies, h') ->
    assoc metric anomalies = Some a ->
    (critical_count a <= warning_count a)%nat /\
    fge (warning_percentage a) (critical_percentage a) = true.
Proof.
  intros sqrtQ df0 sel h0 h1 ths df h h' d an metric a Hs Hcalc Hd Hrun Ha.
  pose proof (thresholds_ordered _ _ _ _ _ _ Hs Hcalc) as Hord.
  set (P := fun (_ : string) (a : Anomaly) (_ : heap) =>
              (critical_count a <= warning_count a)%nat /\
              fge (warning_percentage a) (critical_percentage a) = true).
  assert (Hall : Forall (fun it => P it.1 it.2 h') an).
  { apply (detect_loop_inv df d P) with (ths := ths) (acc := []) (h := h);
      [done | | done | by apply Forall_nil_2 | exact Hrun].
    intros m t xs h2 a0 Hin _ _ Hrec.
    apply anomaly_record_Ok in Hrec as [Hlen ->]. unfold P.
    cbn [warning_count critical_count warning_percentage critical_percentage].
    rewrite Forall_forall in Hord. specialize (Hord (m, t) Hin). cbn [snd] in Hord.
    assert (Hcw : (df_len (above d xs (critical t))
                   <= df_len (above d xs (warning t)))%nat).
    { unfold above, df_filter, df_len, gt_mask. cbn [index].
      apply sublist_length, select_sublist. intros x. by apply fgt_ordered. }
    split; [done |]. cbn [fge]. apply Qle_bool_iff. by apply percentage_mono. }
  exact (Forall_assoc (fun m a => P m a h') an metric a Hall Ha).
Qed.

(** X3.  The warning set of an entry is the table's rows whose metric value
    is strictly greater than the warning cutoff of a threshold entry for
    that metric, and likewise the critical set: each keeps the columns of
    the table, its metric column holds exactly the values above the cutoff
    (a null value is never selected), and in a table with one value per row
    and column the count is the number of such values. *)
Theorem anomaly_sets_hold_the_rows_above_the_cutoffs :
  forall (df : loc) (thresholds : list (string * Threshold)) (h h' : heap)
         (d : DataFrame) (anomalies : list (string * Anomaly))
         (metric : string) (a : Anomaly),
    h !! df = Some d ->
    detect_anomalies df thresholds h = (Ok anomalies, h') ->
    assoc metric anomalies = Some a ->
    exists t xs dw dc,
      (metric, t) ∈ thresholds /\
      numeric_col d metric = Ok xs /\
      h' !! warning_data a = Some dw /\ h' !! critical_data a = Some dc /\
      names dw = names d /\ names dc = names d /\
      numeric_col dw metric = Ok (List.filter (fun x => fgt x (warning t)) xs) /\
      numeric_col dc metric = Ok (List.filter (fun x => fgt x (critical t)) xs) /\
      (well_formed d = true ->
       warning_count a = length (List.filter (fun x => fgt x (warning t)) xs) /\
       critical_count a = length (List.filter (fun x => fgt x (critical t)) xs)).
Proof.
  intros df ths h h' d an metric a Hd Hrun Ha.
  set (P := fun (m : string) (a : Anomaly) (h : heap) =>
              exists t xs,
                (m, t) ∈ ths /\ numeric_col d m = Ok xs /\
                h !! warning_data a = Some (above d xs (warning t)) /\
                h !! critical_data a = Some (above d xs (critical t)) /\
                warning_count a = df_len (above d xs (warning t)) /\
                critical_count a = df_len (above d xs (critical t))).
  assert (Hall : Forall (fun it => P it.1 it.2 h') an).
  { apply (detect_loop_inv df d P) with (ths := ths) (acc := []) (h := h);
      [| | done | by apply Forall_nil_2 | exact Hrun].
    - intros m a0 h2 k (t & xs & Hin & Hx & Hw & Hc & Hcw & Hcc). exists t, xs.
      split; [done |]. split; [done |].
      split; [by apply lookup_app_l_Some |].
      split; [by apply lookup_app_l_Some | done].
    - intros m t xs h2 a0 Hin _ Hx Hrec.
      apply anomaly_record_Ok in Hrec as [Hlen ->]. exists t, xs.
      cbn [warning_count critical_count warning_data critical_data].
      repeat split; try done.
      + by rewrite lookup_app_r, Nat.sub_diag by lia.
      + rewrite lookup_app_r by lia.
        by replace (S (length h2) - length h2)%nat with 1%nat by lia. }
  destruct (Forall_assoc (fun m a => P m a h') an metric a Hall Ha)
    as (t & xs & Hin & Hx & Hw & Hc & Hcw & Hcc).
  exists t, xs, (above d xs (warning t)), (above d xs (critical t)).
  repeat split; try done.
  - apply names_df_filter.
  - apply names_df_filter.
  - by apply numeric_col_above.
  - by apply numeric_col_above.
  - rewrite Hcw. unfold above, df_filter, df_len, gt_mask. cbn [index].
    rewrite <- select_own_mask. apply select_length_eq.
    symmetry. by apply well_formed_numeric_col with (m := metric).
  - rewrite Hcc. unfold above, df_filter, df_len, gt_mask. cbn [index].
    rewrite <- select_own_mask. apply select_length_eq.
    symmetry. by apply well_formed_numeric_col with (m := metric).
Qed.

(** * Further properties of the threshold calculator *)

Lemma dropna_floats_Some (l : list Q) : dropna_floats (map Some l) = l.
Proof. induction l as [| x l IH]; [done |]. simpl. f_equal. exact IH. Qed.

Lemma as_floats_dropna s xs :
  as_floats s = Ok xs ->
  exists x', as_floats (dropna s) = Ok x' /\ dropna_floats x' = dropna_floats xs.
Proof.
  destruct s as [ys | zs | |]; simpl; try done; intros [= <-].
  - eexists. split; [done |]. apply dropna_floats_Some.
  - eexists. split; [done |].
    induction zs as [| [z |] zs IH]; [done | | exact IH].
    simpl. f_equal. exact IH.
Qed.

Lemma threshold_of_ext sqrtQ sel x y :
  dropna_floats x = dropna_floats y ->
  threshold_of sqrtQ sel x = threshold_of sqrtQ sel y.
Proof.
  intros H. unfold threshold_of, quantile, mean, std. by rewrite H.
Qed.

(** The entry of a metric in a returned threshold map is the record computed
    from the column's values. *)
Lemma thresholds_entry_of_column sqrtQ df sel h d metric s xs ths h' t :
  h !! df = Some d ->
  getitem d metric = Ok s -> as_floats s = Ok xs ->
  calculate_alertness_thresholds sqrtQ df sel h = (Ok ths, h') ->
  assoc metric ths = Some t ->
  threshold_of sqrtQ sel xs = Some t.
Proof.
  intros Hd Hs Hxs Hrun Ht. rewrite (thresholds_run _ _ _ _ _ Hd) in Hrun.
  apply pair_fst_eq in Hrun.
  rewrite (fold_entries_Ok _ _ _ _ Hrun metric) in Ht.
  case_bool_decide; [| done]. unfold threshold_entry in Ht. rewrite Hs in Ht.
  destruct (as_floats_dropna s xs Hxs) as (x' & Hx' & Heq). rewrite Hx' in Ht.
  destruct (known_method sel); [| done].
  rewrite (threshold_of_ext sqrtQ sel x' xs Heq) in Ht.
  by destruct (threshold_of sqrtQ sel xs).
Qed.

Lemma quantile_isnan x q : isnan (quantile x q) = (count x =? 0)%nat.
Proof.
  unfold quantile, quantile_sorted, count.
  rewrite <- (sort_length (dropna_floats x)).
  by destruct (sort (dropna_floats x)).
Qed.

Lemma mean_isnan x : isnan (mean x) = (count x =? 0)%nat.
Proof. unfold mean, mean_of, count. by destruct (dropna_floats x). Qed.

Lemma std_isnan sqrtQ x : isnan (std sqrtQ x) = (count x <? 2)%nat.
Proof.
  unfold std, variance, count. by destruct (dropna_floats x) as [| a [| b l]].
Qed.

Lemma isnan_fadd x y : isnan (fadd x y) = isnan x || isnan y.
Proof. by destruct x, y. Qed.
Lemma isnan_fsub x y : isnan (fsub x y) = isnan x || isnan y.
Proof. by destruct x, y. Qed.
Lemma isnan_fmul x y : isnan (fmul x y) = isnan x || isnan y.
Proof. by destruct x, y. Qed.

Lemma threshold_of_isnan sqrtQ sel xs t :
  threshold_of sqrtQ sel xs = Some t ->
  isnan (warning t) = insufficient sel xs /\
  isnan (critical t) = insufficient sel xs.
Proof.
  unfold threshold_of, insufficient.
  pose proof (mean_isnan xs) as Hm. pose proof (std_isnan sqrtQ xs) as Hs.
  pose proof (quantile_isnan xs (90 # 100)) as H90.
  pose proof (quantile_isnan xs (95 # 100)) as H95.
  pose proof (quantile_isnan xs (25 # 100)) as H25.
  pose proof (quantile_isnan xs (75 # 100)) as H75.
  destruct (String.eqb_spec sel "percentile") as [-> | _].
  { by intros [= <-]. }
  destruct (String.eqb sel "std").
  { intros [= <-]. cbn [warning critical].
    destruct (mean xs), (std sqrtQ xs); cbn in *;
      by destruct (count xs) as [| [| n]]. }
  destruct (String.eqb sel "iqr"); [| done].
  intros [= <-]. cbn [warning critical].
  destruct (quantile xs (75 # 100)), (quantile xs (25 # 100)); cbn in *;
    by destruct (count xs).
Qed.

(** X4.  The cutoffs that the calculator stores for a metric are NaN exactly
    when the column's data are too few for the method: both are NaN when the
    column has no non-null value (fewer than two for the std method), and
    both are numbers otherwise. *)
Theorem cutoffs_are_nan_iff_data_are_insufficient :
  forall sqrtQ (df : loc) (sel : string) (h h' : heap) (d : DataFrame)
         (metric : string) (s : Series) (xs : list float)
         (thresholds : list (string * Threshold)) (t : Threshold),
    h !! df = Some d ->
    getitem d metric = Ok s -> as_floats s = Ok xs ->
    calculate_alertness_thresholds sqrtQ df sel h = (Ok thresholds, h') ->
    assoc metric thresholds = Some t ->
    isnan (warning t) = insufficient sel xs /\
    isnan (critical t) = insufficient sel xs.
Proof.
  intros sqrtQ df sel h h' d metric s xs ths t Hd Hs Hxs Hrun Ht.
  eapply threshold_of_isnan.
  by eapply thresholds_entry_of_column.
Qed.

Lemma dict_set_fresh_keys {A} k (v : A) (l : list (string * A)) :
  k ∉ l.*1 -> (dict_set k v l).*1 = l.*1 ++ [k].
Proof.
  induction l as [| [k' v'] l IH]; [done |]. rewrite fmap_cons. cbn [fst].
  intros Hk. apply not_elem_of_cons in Hk as [Hne Hk]. simpl.
  destruct (String.eqb_spec k k') as [-> | _]; [done |].
  rewrite fmap_cons. cbn [fst]. f_equal. by apply IH.
Qed.

Lemma fold_entries_keys {V} (entry : string -> result (option V)) keys :
  NoDup keys ->
  forall acc res,
    (forall k, k ∈ keys -> k ∉ acc.*1) ->
    fold_entries entry keys acc = Ok res ->
    res.*1 = acc.*1 ++ List.filter (fun k => produces (entry k)) keys.
Proof.
  induction 1 as [| k ks Hk Hks IH]; intros acc res Hfresh; cbn [fold_entries].
  - intros [= <-]. by rewrite app_nil_r.
  - cbn [List.filter]. unfold produces at 1.
    destruct (entry k) as [[v |] |]; cbn [store]; [| | done].
    + intros Hres.
      assert (Hfresh' : forall k', k' ∈ ks -> k' ∉ (dict_set k v acc).*1).
      { intros k' Hk'. rewrite elem_of_dict_set. intros [-> | Hin]; [done |].
        by apply (Hfresh k'); [apply list_elem_of_further |]. }
      rewrite (IH _ _ Hfresh' Hres).
      rewrite dict_set_fresh_keys by apply Hfresh, list_elem_of_here.
      by rewrite <- app_assoc.
    + intros Hres.
      apply (IH _ _ (fun k' Hk' => Hfresh k' (list_elem_of_further _ _ _ Hk')) Hres).
Qed.

Lemma fold_entries_Raise_free {V} (entry : string -> result (option V)) keys acc res :
  fold_entries entry keys acc = Ok res ->
  forall k, k ∈ keys -> ~ exists e, entry k = Raise e.
Proof.
  revert acc. induction keys as [| k0 ks IH]; intros acc; cbn [fold_entries].
  - intros _ k Hk. by apply elem_of_nil in Hk.
  - destruct (entry k0) as [[v |] | e0] eqn:E; cbn [store]; [| | done].
    + intros Hres k [-> | Hk]%elem_of_cons; [intros [e He]; congruence |].
      by apply (IH _ Hres).
    + intros Hres k [-> | Hk]%elem_of_cons; [intros [e He]; congruence |].
      by apply (IH _ Hres).
Qed.

Lemma metrics_NoDup : NoDup metrics.
Proof. apply (bool_decide_unpack _). vm_compute. exact I. Qed.

Lemma thresholds_key_list sqrtQ df sel h d ths h' :
  h !! df = Some d -> known_method sel = true ->
  calculate_alertness_thresholds sqrtQ df sel h = (Ok ths, h') ->
  ths.*1 = List.filter (has_column d) metrics.
Proof.
  intros Hd Hsel Hrun. rewrite (thresholds_run _ _ _ _ _ Hd) in Hrun.
  apply pair_fst_eq in Hrun. pose proof Hrun as Hk.
  apply fold_entries_keys in Hk; [| apply metrics_NoDup | by intros k _ ?%elem_of_nil].
  rewrite Hk. cbn [fmap list_fmap app]. apply List.filter_ext_in.
  intros k Hin%list_elem_of_In. unfold has_column, threshold_entry.
  case_bool_decide as Hc.
  - destruct (elem_getitem_Ok d k Hc) as [s Hs]. rewrite Hs, Hsel.
    destruct (as_floats (dropna s)) as [x |] eqn:Ex.
    + by destruct (known_method_threshold sqrtQ sel x Hsel) as [t ->].
    + exfalso. apply (fold_entries_Raise_free _ _ _ _ Hrun k Hin).
      unfold threshold_entry. rewrite Hs, Hsel, Ex. by eexists.
  - by rewrite (not_elem_getitem d k Hc).
Qed.

(** * The calculator and the detector together *)

Lemma detect_loop_key_list df d ths :
  NoDup ths.*1 ->
  (forall m, m ∈ ths.*1 -> m ∈ names d) ->
  forall acc (h : heap) an h',
    h !! df = Some d ->
    (forall m, m ∈ ths.*1 -> m ∉ acc.*1) ->
    for_each ths acc (detect_metric df) h = (Ok an, h') ->
    an.*1 = acc.*1 ++ ths.*1 /\
    length h' = (length h + 2 * length ths)%nat.
Proof.
  induction ths as [| [metric t] ths IH]; intros Hnd Hcols acc h an h' Hd Hfresh;
    cbn [for_each].
  - intros [= <- <-]. rewrite app_nil_r. simpl. split; [done | lia].
  - rewrite fmap_cons in Hnd, Hcols, Hfresh. cbn [fst] in Hnd, Hcols, Hfresh.
    apply NoDup_cons in Hnd as [Hm Hnd].
    rewrite bind_unfold, (detect_metric_run _ _ _ _ _ _ Hd).
    rewrite bool_decide_eq_true_2 by apply Hcols, list_elem_of_here.
    destruct (numeric_col d metric) as [xs |]; [| done]. cbv zeta.
    destruct (anomaly_record _ _ _ _ _) as [a |]; [| done].
    intros Hrun. apply IH in Hrun as [Hk Hlen].
    + rewrite Hk, Hlen, dict_set_fresh_keys by apply Hfresh, list_elem_of_here.
      rewrite fmap_cons, <- app_assoc, length_app. cbn. split; [done | lia].
    + done.
    + intros m Hin. apply Hcols. by apply list_elem_of_further.
    + by apply lookup_app_l_Some.
    + intros m Hin. rewrite elem_of_dict_set. intros [-> | Hacc]; [done |].
      by apply (Hfresh m); [apply list_elem_of_further |].
Qed.

Lemma NoDup_list_filter {A} (f : A -> bool) (l : list A) :
  NoDup l -> NoDup (List.filter f l).
Proof.
  induction 1 as [| x l Hx Hl IH]; simpl; [constructor |].
  destruct (f x); [| done]. constructor; [| done].
  intros Hin%list_elem_of_In. apply List.filter_In in Hin as [Hin _].
  by apply Hx, list_elem_of_In.
Qed.

Lemma filter_has_column_elem d m :
  m ∈ List.filter (has_column d) metrics -> m ∈ metrics /\ m ∈ names d.
Proof.
  intros Hin%list_elem_of_In. apply List.filter_In in Hin as [Hin Hc].
  split; [by apply list_elem_of_In |]. by apply bool_decide_eq_true_1 in Hc.
Qed.

Lemma thresholds_then_detection_keys sqrtQ df sel h d :
  h !! df = Some d -> numeric_metrics d = true -> known_method sel = true ->
  (0 < df_len d)%nat ->
  exists ths an h',
    calculate_alertness_thresholds sqrtQ df sel h = (Ok ths, h) /\
    detect_anomalies df ths h = (Ok an, h') /\
    ths.*1 = List.filter (has_column d) metrics /\
    an.*1 = ths.*1 /\
    length h' = (length h + 2 * length ths)%nat.
Proof.
  intros Hd Hnum Hsel Hlen.
  destruct (thresholds_returns sqrtQ df sel h d Hd Hnum) as [ths Hcalc].
  pose proof (thresholds_key_list _ _ _ _ _ _ _ Hd Hsel Hcalc) as Hkeys.
  assert (Hcols : forall m, m ∈ ths.*1 -> m ∈ names d).
  { intros m. rewrite Hkeys. by intros [_ ?]%filter_has_column_elem. }
  assert (Hnumcol : forall m, m ∈ ths.*1 -> m ∈ names d ->
                              exists xs, numeric_col d m = Ok xs).
  { intros m Hm Hn. rewrite Hkeys in Hm. apply filter_has_column_elem in Hm as [Hm _].
    destruct (elem_getitem_Ok d m Hn) as [s Hs]. unfold numeric_col. rewrite Hs.
    by destruct (numeric_metrics_as_floats d m s Hnum Hm Hs) as [Hx _]. }
  destruct (detect_loop_returns df d ths Hlen Hnumcol [] h Hd) as (an & h' & Hrun).
  exists ths, an, h'. split; [done |]. split; [done |]. split; [done |].
  apply (detect_loop_key_list df d ths) with (acc := []) (h := h); try done.
  - rewrite Hkeys. apply NoDup_list_filter, metrics_NoDup.
  - intros m _ Hm. by apply elem_of_nil in Hm.
Qed.

(** X5.  On a table with at least one row whose metric columns are numeric,
    computing thresholds by one of the three methods and detecting
    anomalies with them returns without error; both maps list exactly the
    metrics that are columns of the table, in the fixed order CPU, Memory,
    Network, Temperature whatever the order of the columns, and the
    detector leaves two new tables in the store for each of them. *)
Theorem thresholds_then_detection_cover_the_present_metrics :
  forall sqrtQ (df : loc) (sel : string) (h : heap) (d : DataFrame),
    h !! df = Some d ->
    numeric_metrics d = true ->
    known_method sel = true ->
    (0 < df_len d)%nat ->
    exists thresholds anomalies h',
      calculate_alertness_thresholds sqrtQ df sel h = (Ok thresholds, h) /\
      detect_anomalies df thresholds h = (Ok anomalies, h') /\
      thresholds.*1 = List.filter (has_column d) metrics /\
      anomalies.*1 = thresholds.*1 /\
      length h' = (length h + 2 * length thresholds)%nat.
Proof.
  intros sqrtQ df sel h d Hd Hnum Hsel Hlen.
  exact (thresholds_then_detection_keys sqrtQ df sel h d Hd Hnum Hsel Hlen).
Qed.

Lemma assoc_elem_NoDup {A} k (v v' : A) (l : list (string * A)) :
  NoDup l.*1 -> (k, v) ∈ l -> assoc k l = Some v' -> v = v'.
Proof.
  induction l as [| [k0 v0] l IH]; intros Hnd Hin; [by apply elem_of_nil in Hin |].
  rewrite fmap_cons in Hnd. cbn [fst] in Hnd. apply NoDup_cons in Hnd as [Hk Hnd].
  simpl. apply elem_of_cons in Hin as [[= -> ->] | Hin].
  - rewrite String.eqb_refl. congruence.
  - destruct (String.eqb_spec k k0) as [-> | _]; [| by apply IH].
    exfalso. apply Hk. apply list_elem_of_fmap. by exists (k0, v).
Qed.

Lemma gt_mask_nan_selects_nothing {A} (xs : list float) (l : list A) :
  select (gt_mask xs NaN) l = [].
Proof.
  revert l. induction xs as [| x xs IH]; intros [| y l]; simpl; try done.
  destruct x; simpl; apply IH.
Qed.

(** X6.  On a table with at least one row and numeric metric columns, for
    one of the three methods: when the data of a metric column are too few
    for the method (no non-null value, or a single one for the std method),
    the calculator still stores an entry, with NaN cutoffs, and the
    detector then flags no row for that metric: both counts are zero,
    without any error or warning.  (On a table without rows the detector
    divides by zero.) *)
Theorem too_few_data_flag_no_anomaly :
  forall sqrtQ (df : loc) (sel : string) (h : heap) (d : DataFrame)
         (metric : string) (s : Series) (xs : list float),
    h !! df = Some d ->
    numeric_metrics d = true ->
    known_method sel = true ->
    (0 < df_len d)%nat ->
    metric ∈ metrics ->
    getitem d metric = Ok s -> as_floats s = Ok xs ->
    insufficient sel xs = true ->
    exists thresholds anomalies h' t a,
      calculate_alertness_thresholds sqrtQ df sel h = (Ok thresholds, h) /\
      detect_anomalies df thresholds h = (Ok anomalies, h') /\
      assoc metric thresholds = Some t /\
      warning t = NaN /\ critical t = NaN /\
      assoc metric anomalies = Some a /\
      warning_count a = 0%nat /\ critical_count a = 0%nat.
Proof.
  intros sqrtQ df sel h d metric s xs Hd Hnum Hsel Hlen Hm Hs Hxs Hins.
  destruct (thresholds_then_detection_keys sqrtQ df sel h d Hd Hnum Hsel Hlen)
    as (ths & an & h' & Hcalc & Hrun & Hkeys & Hak & _).
  assert (Hin : metric ∈ ths.*1).
  { rewrite Hkeys. apply list_elem_of_In, List.filter_In.
    split; [by apply list_elem_of_In |].
    apply bool_decide_eq_true_2. by eapply getitem_Ok_elem. }
  destruct (assoc_elem_Some _ _ Hin) as [t Ht].
  assert (Hin' : metric ∈ an.*1) by by rewrite Hak.
  destruct (assoc_elem_Some _ _ Hin') as [a Ha].
  destruct (threshold_of_isnan sqrtQ sel xs t) as [Hw Hc].
  { by eapply thresholds_entry_of_column. }
  rewrite Hins in Hw, Hc.
  assert (Hwn : warning t = NaN) by by destruct (warning t).
  assert (Hcn : critical t = NaN) by by destruct (critical t).
  set (P := fun (m : string) (a : Anomaly) (_ : heap) =>
              forall t, assoc m ths = Some t ->
                        warning t = NaN -> critical t = NaN ->
                        warning_count a = 0%nat /\ critical_count a = 0%nat).
  assert (Hall : Forall (fun it => P it.1 it.2 h') an).
  { apply (detect_loop_inv df d P) with (ths := ths) (acc := []) (h := h);
      [done | | done | by apply Forall_nil_2 | exact Hrun].
    intros m t0 xs0 h2 a0 Hin0 _ _ Hrec t1 Ht1 Hw1 Hc1.
    apply anomaly_record_Ok in Hrec as [_ ->].
    cbn [warning_count critical_count].
    assert (t0 = t1) as ->.
    { eapply assoc_elem_NoDup; [| exact Hin0 | exact Ht1].
      rewrite Hkeys. apply NoDup_list_filter, metrics_NoDup. }
    rewrite Hw1, Hc1. unfold above, df_filter, df_len. cbn [index].
    by rewrite !gt_mask_nan_selects_nothing. }
  destruct (Forall_assoc (fun m a => P m a h') an metric a Hall Ha t Ht Hwn Hcn)
    as [Hcw Hcc].
  exists ths, an, h', t, a. repeat split; done.
Qed.

Lemma thresholds_entry_inv sqrtQ df sel h d ths h' metric t :
  h !! df = Some d ->
  calculate_alertness_thresholds sqrtQ df sel h = (Ok ths, h') ->
  assoc metric ths = Some t ->
  exists x, threshold_of sqrtQ sel x = Some t.
Proof.
  intros Hd Hrun Ht. rewrite (thresholds_run _ _ _ _ _ Hd) in Hrun.
  apply pair_fst_eq in Hrun.
  rewrite (fold_entries_Ok _ _ _ _ Hrun metric) in Ht.
  case_bool_decide; [| done]. unfold threshold_entry in Ht.
  destruct (getitem d metric) as [s |]; [| done].
  destruct (known_method sel); [| done].
  destruct (as_floats (dropna s)) as [x |]; [| done].
  exists x. by destruct (threshold_of sqrtQ sel x).
Qed.

Lemma standard_deviation_is_no_selector sqrtQ df h d :
  h !! df = Some d ->
  calculate_alertness_thresholds sqrtQ df "standard_deviation" h = (Ok [], h).
Proof.
  intros Hd. rewrite (thresholds_run _ _ _ _ _ Hd). f_equal.
  unfold metrics. cbn [fold_entries]. unfold threshold_entry.
  change (known_method "standard_deviation") with false.
  by repeat (destruct (getitem d _); cbn [store]).
Qed.

(** X7.  The method name recorded in a threshold entry is the selector for
    percentile and iqr, but "standard_deviation" for the selector std.
    Calling the calculator again with the recorded name reproduces the map
    for percentile and iqr and gives the empty map for std, whose recorded
    name is not a selector. *)
Theorem recorded_method_name_is_not_always_a_selector :
  forall sqrtQ (df : loc) (sel : string) (h h' : heap) (d : DataFrame)
         (thresholds : list (string * Threshold)) (metric : string)
         (t : Threshold),
    h !! df = Some d ->
    calculate_alertness_thresholds sqrtQ df sel h = (Ok thresholds, h') ->
    assoc metric thresholds = Some t ->
    method t = (if String.eqb sel "std" then "standard_deviation" else sel) /\
    calculate_alertness_thresholds sqrtQ df (method t) h
    = (Ok (if String.eqb sel "std" then [] else thresholds), h).
Proof.
  intros sqrtQ df sel h h' d ths metric t Hd Hrun Ht.
  destruct (thresholds_entry_inv _ _ _ _ _ _ _ _ _ Hd Hrun Ht) as [x Hx].
  assert (Hh : h' = h).
  { rewrite (thresholds_run _ _ _ _ _ Hd) in Hrun. congruence. }
  subst h'. revert Hx. unfold threshold_of.
  destruct (String.eqb_spec sel "percentile") as [-> | _].
  { intros [= <-]. cbn [method].
    change (String.eqb "percentile" "std") with false. by split. }
  destruct (String.eqb_spec sel "std") as [-> | _].
  { intros [= <-]. cbn [method]. split; [done |].
    exact (standard_deviation_is_no_selector sqrtQ df h d Hd). }
  destruct (String.eqb_spec sel "iqr") as [-> | _]; [| done].
  intros [= <-]. cbn [method].
  change (String.eqb "iqr" "std") with false. by split.
Qed.

(** * The five-number summary of the descriptive statistics *)

Lemma Qminimum_le x ys : forall y, y ∈ x :: ys -> (Qminimum x ys <= y)%Q.
Proof.
  revert x. induction ys as [| z ys IH]; intros x y Hy; simpl.
  - apply list_elem_of_singleton in Hy as ->. apply Qle_refl.
  - destruct (Qle_bool z x) eqn:E.
    + apply Qle_bool_iff in E.
      apply elem_of_cons in Hy as [-> | Hy].
      * eapply Qle_trans; [apply IH, list_elem_of_here | done].
      * by apply IH.
    + assert (Hxz : (x <= z)%Q).
      { apply Qlt_le_weak, Qnot_le_lt. intros H%Qle_bool_iff. congruence. }
      apply elem_of_cons in Hy as [-> | Hy]; [apply IH, list_elem_of_here |].
      apply elem_of_cons in Hy as [-> | Hy].
      * eapply Qle_trans; [apply IH, list_elem_of_here | done].
      * by apply IH, list_elem_of_further.
Qed.

Lemma Qmaximum_ge x ys : forall y, y ∈ x :: ys -> (y <= Qmaximum x ys)%Q.
Proof.
  revert x. induction ys as [| z ys IH]; intros x y Hy; simpl.
  - apply list_elem_of_singleton in Hy as ->. apply Qle_refl.
  - destruct (Qle_bool x z) eqn:E.
    + apply Qle_bool_iff in E.
      apply elem_of_cons in Hy as [-> | Hy].
      * eapply Qle_trans; [exact E | apply IH, list_elem_of_here].
      * by apply IH.
    + assert (Hzx : (z <= x)%Q).
      { apply Qlt_le_weak, Qnot_le_lt. intros H%Qle_bool_iff. congruence. }
      apply elem_of_cons in Hy as [-> | Hy]; [apply IH, list_elem_of_here |].
      apply elem_of_cons in Hy as [-> | Hy].
      * eapply Qle_trans; [exact Hzx | apply IH, list_elem_of_here].
      * by apply IH, list_elem_of_further.
Qed.

Lemma interpolate_bounds s x0 q a b :
  (1 <= length s)%nat -> (0 <= q)%Q -> (q <= 1)%Q ->
  (forall y, y ∈ s -> a <= y /\ y <= b)%Q ->
  (a <= interpolate s x0 q /\ interpolate s x0 q <= b)%Q.
Proof.
  intros Hn H0 H1 Hab. unfold interpolate.
  set (n := length s) in *. set (N := Z.of_nat (n - 1)).
  assert (HN : (0 <= inject_Z N)%Q).
  { change 0%Q with (inject_Z 0). rewrite <- Zle_Qle. lia. }
  set (pos := (q * inject_Z N)%Q).
  assert (Hp0 : (0 <= pos)%Q) by (subst pos; nra).
  assert (Hp1 : (pos <= inject_Z N)%Q) by (subst pos; nra).
  assert (Hf0 : (0 <= Qfloor pos)%Z).
  { change 0%Z with (Qfloor 0). apply Qfloor_resp_le, Hp0. }
  assert (Hf1 : (Qfloor pos <= N)%Z).
  { rewrite <- (Qfloor_Z N). apply Qfloor_resp_le, Hp1. }
  pose proof (Qfloor_le pos) as Hfl. pose proof (Qlt_floor pos) as Hfu.
  rewrite inject_Z_plus in Hfu. change (inject_Z 1) with 1%Q in Hfu.
  set (i := Z.to_nat (Qfloor pos)).
  assert (Hi : (i <= n - 1)%nat) by (subst i N; lia).
  destruct (Hab (nth i s x0)) as [Hlo1 Hlo2].
  { apply list_elem_of_In, nth_In. fold n. lia. }
  destruct (Hab (nth (Nat.min (i + 1) (n - 1)) s x0)) as [Hhi1 Hhi2].
  { apply list_elem_of_In, nth_In. fold n. lia. }
  set (lo := nth i s x0) in *.
  set (hi := nth (Nat.min (i + 1) (n - 1)) s x0) in *.
  set (F := inject_Z (Qfloor pos)) in *.
  split; nra.
Qed.

Lemma Qfloor_eq z x :
  (inject_Z z <= x)%Q -> (x < inject_Z (z + 1))%Q -> Qfloor x = z.
Proof.
  intros Hl Hu. apply Z.le_antisymm.
  - assert (H : (Qfloor x < z + 1)%Z); [| lia].
    rewrite Zlt_Qlt. eapply Qle_lt_trans; [apply Qfloor_le | exact Hu].
  - rewrite <- (Qfloor_Z z). by apply Qfloor_resp_le.
Qed.

(** The median is the quantile at one half. *)
Lemma median_is_the_half_quantile s x0 :
  (1 <= length s)%nat ->
  ((if Nat.even (length s)
    then (nth (length s / 2 - 1) s x0 + nth (length s / 2) s x0) / 2
    else nth (length s / 2) s x0)
   == interpolate s x0 (1 # 2))%Q.
Proof.
  intros Hn. unfold interpolate. set (n := length s) in *.
  destruct (Nat.even n) eqn:E.
  - apply Nat.even_spec in E as [k Hk].
    assert (Hdiv : (n / 2 = k)%nat).
    { rewrite Hk, Nat.mul_comm. by apply Nat.div_mul. }
    rewrite Hdiv.
    assert (HN : (inject_Z (Z.of_nat (n - 1)) == 2 * inject_Z (Z.of_nat k) - 1)%Q).
    { replace (Z.of_nat (n - 1)) with (2 * Z.of_nat k + -1)%Z by lia.
      rewrite inject_Z_plus, inject_Z_mult. change (inject_Z 2) with 2%Q.
      change (inject_Z (-1)) with (-1)%Q. lra. }
    assert (Hk1 : (inject_Z (Z.of_nat k - 1) == inject_Z (Z.of_nat k) - 1)%Q).
    { replace (Z.of_nat k - 1)%Z with (Z.of_nat k + -1)%Z by lia.
      rewrite inject_Z_plus. change (inject_Z (-1)) with (-1)%Q. lra. }
    assert (Hfl : Qfloor ((1 # 2) * inject_Z (Z.of_nat (n - 1))) = (Z.of_nat k - 1)%Z).
    { apply Qfloor_eq.
      - rewrite Hk1, HN. lra.
      - replace (Z.of_nat k - 1 + 1)%Z with (Z.of_nat k) by lia. rewrite HN. lra. }
    rewrite Hfl, Hk1, HN.
    replace (Z.to_nat (Z.of_nat k - 1)) with (k - 1)%nat by lia.
    replace (Nat.min (k - 1 + 1) (n - 1)) with k by lia.
    set (lo := nth (k - 1) s x0). set (hi := nth k s x0).
    set (K := inject_Z (Z.of_nat k)). field.
  - assert (Ho : Nat.odd n = true) by (by rewrite <- Nat.negb_even, E).
    apply Nat.odd_spec in Ho as [k Hk].
    assert (Hdiv : (n / 2 = k)%nat).
    { rewrite Hk. symmetry. apply (Nat.div_unique _ 2 k 1); lia. }
    rewrite Hdiv.
    assert (HN : (inject_Z (Z.of_nat (n - 1)) == 2 * inject_Z (Z.of_nat k))%Q).
    { replace (Z.of_nat (n - 1)) with (2 * Z.of_nat k)%Z by lia.
      rewrite inject_Z_mult. by change (inject_Z 2) with 2%Q. }
    assert (Hfl : Qfloor ((1 # 2) * inject_Z (Z.of_nat (n - 1))) = Z.of_nat k).
    { apply Qfloor_eq.
      - rewrite HN. lra.
      - rewrite inject_Z_plus, HN. change (inject_Z 1) with 1%Q. lra. }
    rewrite Hfl, HN, Nat2Z.id.
    set (lo := nth k s x0). set (hi := nth (Nat.min (k + 1) (n - 1)) s x0).
    set (K := inject_Z (Z.of_nat k)). field.
Qed.

Lemma descriptive_entry_of_column sqrtQ df h d metric s xs stats h' st :
  h !! df = Some d ->
  getitem d metric = Ok s -> as_floats s = Ok xs ->
  calculate_descriptive_statistics sqrtQ df h = (Ok stats, h') ->
  assoc metric stats = Some st ->
  st = descriptive_of sqrtQ xs.
Proof.
  intros Hd Hs Hxs Hrun Ht. rewrite (descriptive_run _ _ _ _ Hd) in Hrun.
  apply pair_fst_eq in Hrun.
  rewrite (fold_entries_Ok _ _ _ _ Hrun metric) in Ht.
  case_bool_decide; [| done]. unfold descriptive_entry in Ht.
  rewrite Hs, Hxs in Ht. congruence.
Qed.

Lemma five_numbers_ordered (l : list Q) x ys :
  l = x :: ys ->
  exists x0 s',
    sort l = x0 :: s' /\
    (Qminimum x ys <= interpolate (sort l) x0 (1 # 4))%Q /\
    (interpolate (sort l) x0 (1 # 4) <= interpolate (sort l) x0 (1 # 2))%Q /\
    (interpolate (sort l) x0 (1 # 2) <= interpolate (sort l) x0 (3 # 4))%Q /\
    (interpolate (sort l) x0 (3 # 4) <= Qmaximum x ys)%Q.
Proof.
  intros Hl.
  assert (Hn : (1 <= length (sort l))%nat).
  { rewrite sort_length, Hl. simpl. lia. }
  assert (Hb : forall y, y ∈ sort l -> (Qminimum x ys <= y /\ y <= Qmaximum x ys)%Q).
  { intros y Hy. unfold sort in Hy. rewrite merge_sort_Permutation, Hl in Hy.
    split; [by apply Qminimum_le | by apply Qmaximum_ge]. }
  destruct (sort l) as [| x0 s'] eqn:Es; [simpl in Hn; lia |].
  exists x0, s'. split; [done |].
  pose proof (sort_sorted l) as Hs. rewrite Es in Hs.
  destruct (interpolate_bounds (x0 :: s') x0 (1 # 4) (Qminimum x ys) (Qmaximum x ys))
    as [Hlo _]; [done | done | done | exact Hb |].
  destruct (interpolate_bounds (x0 :: s') x0 (3 # 4) (Qminimum x ys) (Qmaximum x ys))
    as [_ Hhi]; [done | done | done | exact Hb |].
  split; [exact Hlo |]. split; [by apply interpolate_mono |].
  split; [by apply interpolate_mono | exact Hhi].
Qed.

(** X8.  The statistics record of a numeric metric column with at least one
    non-null value has numbers for min, q1, median, q3 and max, and they
    are ordered: min <= q1 <= median <= q3 <= max; the count is the number
    of non-null values. *)
Theorem descriptive_statistics_are_ordered :
  forall sqrtQ (df : loc) (h h' : heap) (d : DataFrame) (metric : string)
         (s : Series) (xs : list float) (stats : list (string * DescStats))
         (st : DescStats),
    h !! df = Some d ->
    getitem d metric = Ok s -> as_floats s = Ok xs ->
    (1 <= count xs)%nat ->
    calculate_descriptive_statistics sqrtQ df h = (Ok stats, h') ->
    assoc metric stats = Some st ->
    exists mn q1 md q3 mx,
      st_min st = Some mn /\ st_q1 st = Some q1 /\ st_median st = Some md /\
      st_q3 st = Some q3 /\ st_max st = Some mx /\
      (mn <= q1)%Q /\ (q1 <= md)%Q /\ (md <= q3)%Q /\ (q3 <= mx)%Q /\
      st_count st = length (dropna_floats xs).
Proof.
  intros sqrtQ df h h' d metric s xs stats st Hd Hs Hxs Hc Hrun Hst.
  rewrite (descriptive_entry_of_column _ _ _ _ _ _ _ _ _ _ Hd Hs Hxs Hrun Hst).
  unfold descriptive_of, smin, smax, quantile, quantile_sorted, median, count in *.
  cbn [st_min st_q1 st_median st_q3 st_max st_count].
  destruct (dropna_floats xs) as [| x ys] eqn:El; [simpl in Hc; lia |].
  destruct (five_numbers_ordered (x :: ys) x ys eq_refl)
    as (x0 & s' & Es & H1 & H2 & H3 & H4).
  assert (Hn : (1 <= length (sort (x :: ys)))%nat).
  { rewrite sort_length. simpl. lia. }
  pose proof (median_is_the_half_quantile (sort (x :: ys)) x0 Hn) as Hmed.
  revert H1 H2 H3 H4 Hmed. rewrite Es. intros H1 H2 H3 H4 Hmed.
  destruct (Nat.even (length (x0 :: s'))); do 5 eexists;
    (repeat split; try reflexivity; try done);
    try (by rewrite Hmed).
Qed.

(** * Further properties of the time-pattern aggregator *)

Lemma selected_columns_values df h d cols :
  h !! df = Some d ->
  (forall c, c ∈ cols -> exists xs, numeric_col d c = Ok xs) ->
  forall acc,
    exists sel,
      for_each cols acc
        (fun acc c => (s <- col df c ;; xs <- lift (as_floats s) ;;
                       ret (acc ++ [(c, xs)]))%py) h
      = (Ok (acc ++ sel), h) /\ sel.*1 = cols /\
      Forall (fun it => numeric_col d it.1 = Ok it.2) sel.
Proof.
  intros Hd Hnum acc.
  rewrite (for_each_pure _
             (fun acc c => match numeric_col d c with
                           | Ok xs => Ok (acc ++ [(c, xs)])
                           | Raise e => Raise e
                           end)).
  2:{ intros acc' c. run_reads Hd. unfold numeric_col.
      destruct (getitem d c) as [s |]; [| done]. by destruct (as_floats s). }
  revert acc. induction cols as [| c cols IH]; intros acc; cbn [fold_result].
  - exists []. by rewrite app_nil_r.
  - destruct (Hnum c) as [xs Hxs]; [apply list_elem_of_here |]. rewrite Hxs.
    destruct (IH (fun c' Hc' => Hnum c' (list_elem_of_further _ _ _ Hc'))
                 (acc ++ [(c, xs)])) as (sel & Hrun & Hsel & Hval).
    exists ((c, xs) :: sel). apply pair_fst_eq in Hrun.
    rewrite Hrun, <- app_assoc. split; [done |]. split.
    + by rewrite fmap_cons, Hsel.
    + by constructor.
Qed.

(** The rows of a grouped table: one cell per selected column, which
    aggregates the column's values in the rows of the group. *)
Lemma groupby_rows sqrtQ df by_ cols h d key keys :
  h !! df = Some d ->
  getitem d by_ = Ok key -> key_values key = Ok keys ->
  (forall c, c ∈ cols -> c ∈ names d /\ exists xs, numeric_col d c = Ok xs) ->
  exists table,
    groupby_agg sqrtQ df by_ cols h = (Ok table, h) /\
    table.*1 = merge_sort Z.le (distinct keys) /\
    Forall (fun row =>
              row.2.*1 = cols /\
              forall c xs, c ∈ cols -> numeric_col d c = Ok xs ->
                           (c, agg_group sqrtQ keys row.1 xs) ∈ row.2) table.
Proof.
  intros Hd Hkey Hkeys Hcols. unfold groupby_agg. run_reads Hd.
  rewrite Hkey, Hkeys. run_reads Hd.
  assert (Hall : forallb (fun c => bool_decide (c ∈ names d)) cols = true).
  { apply forallb_forall. intros c Hc%list_elem_of_In.
    apply bool_decide_eq_true_2, Hcols, Hc. }
  rewrite Hall. cbn [negb].
  destruct (selected_columns_values df h d cols Hd (fun c Hc => proj2 (Hcols c Hc)) [])
    as (sel & Hrun & Hsel & Hval).
  rewrite bind_unfold, Hrun. run_reads Hd. cbn [app].
  eexists. split; [done |]. split; [apply fst_map_pair |].
  apply Forall_forall. intros row Hrow%list_elem_of_In.
  apply in_map_iff in Hrow as (k & <- & _). cbn [fst snd]. split.
  - rewrite <- Hsel. clear. induction sel as [| [c xs] sel IH]; [done |].
    simpl. f_equal. exact IH.
  - intros c xs Hc Hxs. rewrite <- Hsel in Hc.
    apply list_elem_of_fmap in Hc as ([c' xs'] & -> & Hin). cbn [fst] in *.
    rewrite Forall_forall in Hval. specialize (Hval _ Hin). cbn [fst snd] in Hval.
    assert (xs' = xs) as -> by congruence.
    apply list_elem_of_fmap. by exists (c', xs).
Qed.

Lemma time_patterns_tables sqrtQ df h d ts :
  h !! df = Some d ->
  getitem d "Time" = Ok (Stamps ts) ->
  (forall m, m ∈ metrics -> m ∈ names d) ->
  numeric_metrics d = true ->
  exists hourly daily,
    analyze_time_patterns sqrtQ df h
    = (Ok (if (1 <? length (distinct (map (option_map date_of) ts)))%nat
           then [("hourly", hourly); ("daily", daily)]
           else [("hourly", hourly)]),
       h ++ [with_time_columns d ts]) /\
    hourly.*1 = merge_sort Z.le (distinct (map (option_map hour_of) ts)) /\
    daily.*1 = merge_sort Z.le (distinct (map (option_map date_of) ts)) /\
    Forall (fun row =>
              row.2.*1 = metrics /\
              forall c xs, c ∈ metrics -> numeric_col d c = Ok xs ->
                (c, agg_group sqrtQ (map (option_map hour_of) ts) row.1 xs) ∈ row.2)
           hourly /\
    Forall (fun row =>
              row.2.*1 = metrics /\
              forall c xs, c ∈ metrics -> numeric_col d c = Ok xs ->
                (c, agg_group sqrtQ (map (option_map date_of) ts) row.1 xs) ∈ row.2)
           daily.
Proof.
  intros Hd Ht Hall Hnum. rewrite (time_patterns_prologue _ _ _ _ _ Hd Ht).
  set (d3 := with_time_columns d ts).
  pose proof (lookup_last h d3) as H3.
  assert (Hsame : forall c, c ∈ metrics -> numeric_col d3 c = numeric_col d c).
  { intros c Hc. unfold numeric_col, d3. by rewrite getitem_with_time_columns. }
  assert (Hcols : forall c, c ∈ metrics ->
                            c ∈ names d3 /\ exists xs, numeric_col d3 c = Ok xs).
  { intros c Hc. split; [by apply names_with_time_columns, Hall |].
    rewrite (Hsame c Hc). unfold numeric_col.
    destruct (elem_getitem_Ok d c (Hall c Hc)) as [s Hs]. rewrite Hs.
    by destruct (numeric_metrics_as_floats d c s Hnum Hc Hs) as [Hx _]. }
  assert (Hhour : getitem d3 "Hour" = Ok (dt_hour ts)).
  { unfold d3, with_time_columns.
    by rewrite !getitem_setitem_ne, getitem_setitem_eq by done. }
  assert (Hdate : getitem d3 "Date" = Ok (dt_date ts)).
  { unfold d3, with_time_columns. by rewrite getitem_setitem_eq. }
  destruct (groupby_rows sqrtQ _ "Hour" metrics _ d3 _ _ H3 Hhour eq_refl Hcols)
    as (hourly & Hh & Hhk & Hhr).
  destruct (groupby_rows sqrtQ _ "Date" metrics _ d3 _ _ H3 Hdate eq_refl Hcols)
    as (daily & Hdl & Hdk & Hdr).
  exists hourly, daily. split; [| split; [done | split; [done | split]]].
  - rewrite bind_unfold, Hh. cbv zeta.
    rewrite bind_unfold, (col_run _ _ _ _ H3), Hdate.
    rewrite bind_unfold, lift_unfold. cbn [dt_date key_values].
    destruct (1 <? _)%nat; [| done].
    by rewrite bind_unfold, Hdl.
  - eapply Forall_impl; [exact Hhr |]. intros row [Hk Hc]. split; [done |].
    intros c xs Hin Hxs. apply Hc; [done |]. by rewrite Hsame.
  - eapply Forall_impl; [exact Hdr |]. intros row [Hk Hc]. split; [done |].
    intros c xs Hin Hxs. apply Hc; [done |]. by rewrite Hsame.
Qed.

Lemma sorted_NoDup_strict (l : list Z) :
  StronglySorted Z.le l -> NoDup l -> StronglySorted Z.lt l.
Proof.
  induction 1 as [| x l Hl IH Hx]; intros Hnd; [constructor |].
  apply NoDup_cons in Hnd as [Hnx Hnd]. constructor; [by apply IH |].
  rewrite Forall_forall in Hx |- *. intros y Hy.
  specialize (Hx y Hy). assert (x <> y) by (by intros ->). lia.
Qed.

Lemma group_keys_sorted (keys : list (option Z)) :
  StronglySorted Z.lt (merge_sort Z.le (distinct keys)).
Proof.
  apply sorted_NoDup_strict.
  - apply StronglySorted_merge_sort; apply _.
  - rewrite merge_sort_Permutation. apply NoDup_remove_dups.
Qed.

Lemma elem_of_group_keys (f : Z -> Z) (ts : list (option Z)) k :
  k ∈ merge_sort Z.le (distinct (map (option_map f) ts))
  <-> exists t, Some t ∈ ts /\ f t = k.
Proof.
  rewrite merge_sort_Permutation. unfold distinct.
  rewrite elem_of_remove_dups, list_elem_of_omap. split.
  - intros (x & Hx & ->).
    apply list_elem_of_fmap in Hx as ([t |] & Heq & Hin); [| done].
    exists t. split; [done |]. simpl in Heq. congruence.
  - intros (t & Hin & <-). exists (Some (f t)). split; [| done].
    apply list_elem_of_fmap. by exists (Some t).
Qed.

Lemma hour_of_range t : (0 <= hour_of t < 24)%Z.
Proof. unfold hour_of. apply Z.mod_pos_bound. lia. Qed.

(** X9.  For a table with a datetime Time column and the four numeric
    metric columns the hourly table has one row for each hour of the day in
    which a non-null timestamp falls, and no other row: the row labels are
    strictly increasing and between 0 and 23, so there are at most 24 rows,
    and every row has a cell for each of the four metrics, in the fixed
    order. *)
Theorem hourly_table_has_a_row_per_hour_of_day :
  forall sqrtQ (df : loc) (h : heap) (d : DataFrame) (ts : list (option Z)),
    h !! df = Some d ->
    getitem d "Time" = Ok (Stamps ts) ->
    (forall m, m ∈ metrics -> m ∈ names d) ->
    numeric_metrics d = true ->
    exists time_patterns h' hourly,
      analyze_time_patterns sqrtQ df h = (Ok time_patterns, h') /\
      assoc "hourly" time_patterns = Some hourly /\
      StronglySorted Z.lt hourly.*1 /\
      (forall k, k ∈ hourly.*1 <-> exists t, Some t ∈ ts /\ hour_of t = k) /\
      Forall (fun k => 0 <= k < 24)%Z hourly.*1 /\
      (length hourly <= 24)%nat /\
      Forall (fun row => row.2.*1 = metrics) hourly.
Proof.
  intros sqrtQ df h d ts Hd Ht Hall Hnum.
  destruct (time_patterns_tables sqrtQ df h d ts Hd Ht Hall Hnum)
    as (hourly & daily & Hrun & Hk & _ & Hrows & _).
  assert (Hrange : Forall (fun k => 0 <= k < 24)%Z hourly.*1).
  { apply Forall_forall. intros k. rewrite Hk, elem_of_group_keys.
    intros (t & _ & <-). apply hour_of_range. }
  do 2 eexists. exists hourly. split; [exact Hrun |]. split.
  { by destruct (1 <? _)%nat. }
  split; [rewrite Hk; apply group_keys_sorted |].
  split; [intros k; rewrite Hk; apply elem_of_group_keys |].
  split; [exact Hrange |]. split.
  - rewrite <- (length_fmap fst hourly).
    change 24%nat with (Z.to_nat 24). rewrite <- (length_seqZ 0 24).
    apply submseteq_length, NoDup_submseteq.
    + rewrite Hk, merge_sort_Permutation. apply NoDup_remove_dups.
    + intros k Hin. rewrite Forall_forall in Hrange. apply elem_of_seqZ.
      specialize (Hrange k Hin). lia.
  - eapply Forall_impl; [exact Hrows |]. by intros row [Hr _].
Qed.

Lemma assoc_of_elem {A} k (v : A) (l : list (string * A)) :
  NoDup l.*1 -> (k, v) ∈ l -> assoc k l = Some v.
Proof.
  intros Hnd Hin.
  destruct (assoc_elem_Some k l) as [v' Hv'].
  { apply list_elem_of_fmap. by exists (k, v). }
  by rewrite Hv', (assoc_elem_NoDup k v v' l Hnd Hin Hv').
Qed.

Lemma well_formed_getitem d name s :
  well_formed d = true -> getitem d name = Ok s -> series_len s = df_len d.
Proof.
  unfold well_formed, getitem. rewrite forallb_forall. intros Hwf.
  destruct (assoc name (columns d)) as [s' |] eqn:Es; [| done]. intros [= ->].
  assert (Hin : In (name, s) (columns d)).
  { clear Hwf. induction (columns d) as [| [k v] l IH]; [done |].
    simpl in Es. destruct (String.eqb_spec name k) as [-> | Hne].
    - injection Es as ->. by left.
    - right. by apply IH. }
  apply Hwf in Hin. by apply Nat.eqb_eq in Hin.
Qed.

Lemma select_nonempty {A B} (f : A -> bool) (ts : list A) (xs : list B) t :
  length xs = length ts -> t ∈ ts -> f t = true ->
  (1 <= length (select (map f ts) xs))%nat.
Proof.
  revert xs. induction ts as [| t0 ts IH]; intros [| x xs] Hlen Hin Hf;
    try (by apply elem_of_nil in Hin); [done |].
  simpl. destruct (f t0) eqn:E; [simpl; lia |].
  apply elem_of_cons in Hin as [-> | Hin]; [congruence |].
  apply IH; [by injection Hlen | done | done].
Qed.

Lemma smax_isnan x : isnan (smax x) = (count x =? 0)%nat.
Proof. unfold smax, count. by destruct (dropna_floats x). Qed.

Lemma isnan_round2 x : isnan (round2 x) = isnan x.
Proof. by destruct x. Qed.

(** X10.  In the hourly table, which cells are NaN is decided by the number
    of values that the metric has in the rows of the input table whose
    timestamp falls in the hour of the row: the mean and the maximum are
    NaN exactly when there is no non-null value among them, and the
    standard deviation exactly when there are fewer than two, so that an
    hour with a single reading has no standard deviation.  In a table with
    one value per row in every column every hour of the hourly table has at
    least one such row. *)
Theorem hourly_cells_are_nan_for_too_few_values :
  forall sqrtQ (df : loc) (h : heap) (d : DataFrame) (ts : list (option Z))
         (metric : string) (xs : list float),
    h !! df = Some d ->
    getitem d "Time" = Ok (Stamps ts) ->
    (forall m, m ∈ metrics -> m ∈ names d) ->
    numeric_metrics d = true ->
    metric ∈ metrics -> numeric_col d metric = Ok xs ->
    exists time_patterns h' hourly,
      analyze_time_patterns sqrtQ df h = (Ok time_patterns, h') /\
      assoc "hourly" time_patterns = Some hourly /\
      forall k cells,
        (k, cells) ∈ hourly ->
        exists a,
          assoc metric cells = Some a /\
          let g := select (map (fun t => bool_decide (option_map hour_of t = Some k)) ts)
                          xs in
          isnan (agg_mean a) = (count g =? 0)%nat /\
          isnan (agg_max a) = (count g =? 0)%nat /\
          isnan (agg_std a) = (count g <? 2)%nat /\
          (well_formed d = true -> (1 <= length g)%nat).
Proof.
  intros sqrtQ df h d ts metric xs Hd Ht Hall Hnum Hm Hxs.
  destruct (time_patterns_tables sqrtQ df h d ts Hd Ht Hall Hnum)
    as (hourly & daily & Hrun & Hk & _ & Hrows & _).
  do 2 eexists. exists hourly. split; [exact Hrun |]. split.
  { by destruct (1 <? _)%nat. }
  intros k cells Hin. rewrite Forall_forall in Hrows.
  destruct (Hrows _ Hin) as [Hcols Hcell]. cbn [fst snd] in Hcols, Hcell.
  specialize (Hcell metric xs Hm Hxs).
  eexists. split.
  { apply assoc_of_elem; [| exact Hcell]. rewrite Hcols. apply metrics_NoDup. }
  unfold agg_group. cbn [agg_mean agg_max agg_std]. rewrite map_map. cbv zeta.
  rewrite !isnan_round2.
  split; [apply mean_isnan |]. split; [apply smax_isnan |].
  split; [apply std_isnan |].
  intros Hwf.
  assert (Hkin : k ∈ hourly.*1).
  { apply list_elem_of_fmap. by exists (k, cells). }
  rewrite Hk in Hkin. apply elem_of_group_keys in Hkin as (t & Hti & Hhour).
  apply (select_nonempty _ ts xs (Some t)); [| done |].
  - rewrite (well_formed_numeric_col d metric xs Hwf Hxs).
    symmetry. exact (well_formed_getitem d "Time" (Stamps ts) Hwf Ht).
  - apply bool_decide_eq_true_2. simpl. by rewrite Hhour.
Qed.

Lemma time_patterns_without_datetime sqrtQ df h d s :
  h !! df = Some d -> getitem d "Time" = Ok s ->
  dt s = Raise AttributeError ->
  analyze_time_patterns sqrtQ df h = (Raise AttributeError, h ++ [d]).
Proof.
  intros Hd Ht Hs. unfold analyze_time_patterns.
  rewrite bind_unfold, (df_columns_run _ _ _ Hd).
  rewrite bool_decide_eq_true_2 by by eapply getitem_Ok_elem. cbn [negb].
  rewrite bind_unfold, (df_copy_run _ _ _ Hd).
  pose proof (lookup_last h d) as H0.
  rewrite bind_unfold, (col_run _ _ _ _ H0), Ht.
  by rewrite bind_unfold, lift_unfold, Hs.
Qed.

Lemma forallb_false_elem {A} (f : A -> bool) (l : list A) :
  forallb f l = false -> exists x, x ∈ l /\ f x = false.
Proof.
  induction l as [| x l IH]; [done |]. simpl.
  destruct (f x) eqn:E.
  - intros (y & Hy & Hf)%IH. exists y. split; [by apply list_elem_of_further | done].
  - intros _. exists x. split; [apply list_elem_of_here | done].
Qed.

(** X11.  What the time-pattern aggregator does once the table has a column
    named Time (the metric columns being numeric).  If that column is not a
    datetime column, the [.dt] accessor raises AttributeError, after the
    copy of the table was made.  If it is, the three derived columns are
    assigned to the copy, and the call returns when the four metric columns
    are present and raises KeyError otherwise.  In each case the store
    gains exactly one table, the copy, and that also when the call
    raises. *)
Theorem time_patterns_outcome_with_a_Time_column :
  forall sqrtQ (df : loc) (h : heap) (d : DataFrame) (s : Series),
    h !! df = Some d ->
    getitem d "Time" = Ok s ->
    numeric_metrics d = true ->
    match s with
    | Stamps ts =>
        if has_all_metrics d
        then exists time_patterns,
               analyze_time_patterns sqrtQ df h
               = (Ok time_patterns, h ++ [with_time_columns d ts])
        else analyze_time_patterns sqrtQ df h
             = (Raise KeyError, h ++ [with_time_columns d ts])
    | _ => analyze_time_patterns sqrtQ df h = (Raise AttributeError, h ++ [d])
    end.
Proof.
  intros sqrtQ df h d s Hd Ht Hnum.
  destruct s as [xs | zs | ts | ds];
    try (by apply (time_patterns_without_datetime sqrtQ df h d _ Hd Ht)).
  destruct (has_all_metrics d) eqn:Hall.
  - destruct (time_patterns_tables sqrtQ df h d ts Hd Ht) as (hourly & daily & Hrun & _).
    + by apply has_all_metrics_elem.
    + done.
    + by eexists.
  - assert (Hex : exists m, m ∈ metrics /\ m ∉ names d).
    { unfold has_all_metrics in Hall.
      apply forallb_false_elem in Hall as (m & Hm & Hf). exists m.
      split; [done |]. unfold has_column in Hf. by apply bool_decide_eq_false_1 in Hf. }
    destruct Hex as (m & Hm & Hn).
    by apply (time_patterns_missing_metric sqrtQ df h d ts m).
Qed.

(** * The recommendation generator *)

(** The list that the generator builds up is the concatenation of what its
    five blocks contribute. *)
Lemma recommendations_by_block nlargest stats_dict anomalies time_patterns :
  generate_optimization_recommendations nlargest stats_dict anomalies time_patterns
  = match peak_rule nlargest time_patterns with
    | Ok peak =>
        Ok (cpu_rules stats_dict anomalies ++ memory_rules stats_dict
            ++ network_rules stats_dict ++ peak ++ temperature_rules stats_dict)
    | Raise e => Raise e
    end.
Proof.
  unfold generate_optimization_recommendations, peak_rule, cpu_rules, memory_rules,
    network_rules, temperature_rules. cbv zeta.
  repeat match goal with
         | |- context [fgt ?a ?b] => destruct (fgt a b)
         | |- context [fge ?a ?b] => destruct (fge a b)
         | |- context [match assoc ?k ?l with _ => _ end] => destruct (assoc k l)
         | |- context [bool_decide ?P] => destruct (bool_decide P)
         | |- context [mean_column ?f ?c] => destruct (mean_column f c)
         end;
    reflexivity.
Qed.

Lemma sorted_slots_app lo mid hi (l k : list Recommendation) :
  (lo <= mid <= hi)%nat ->
  StronglySorted lt (slot <$> l) /\ Forall (fun r => lo <= slot r < mid)%nat l ->
  StronglySorted lt (slot <$> k) /\ Forall (fun r => mid <= slot r < hi)%nat k ->
  StronglySorted lt (slot <$> (l ++ k)) /\
  Forall (fun r => lo <= slot r < hi)%nat (l ++ k).
Proof.
  intros Hm [Hl Hlr] [Hk Hkr]. split.
  - rewrite fmap_app. induction l as [| r l IH]; [done |].
    rewrite fmap_cons in Hl |- *. cbn [app].
    apply StronglySorted_inv in Hl as [Hl Hr].
    apply Forall_cons in Hlr as [Hr0 Hlr].
    constructor; [by apply IH |].
    apply Forall_app. split; [done |].
    rewrite Forall_fmap. eapply Forall_impl; [exact Hkr |]. intros r'. cbn. lia.
  - apply Forall_app. split.
    + eapply Forall_impl; [exact Hlr |]. intros r. cbn. lia.
    + eapply Forall_impl; [exact Hkr |]. intros r. cbn. lia.
Qed.

Lemma sorted_range_length (l : list nat) :
  StronglySorted lt l ->
  forall lo hi, Forall (fun n => lo <= n < hi)%nat l -> (length l <= hi - lo)%nat.
Proof.
  induction 1 as [| x l Hl IH Hx]; intros lo hi Hr; [simpl; lia |].
  apply Forall_cons in Hr as [Hx0 Hr]. cbn [length].
  specialize (IH (S x) hi).
  assert (Hr' : Forall (fun n => S x <= n < hi)%nat l).
  { rewrite Forall_forall in Hx, Hr |- *. intros n Hn.
    specialize (Hx n Hn). specialize (Hr n Hn). lia. }
  specialize (IH Hr'). lia.
Qed.

Lemma cpu_rules_slots stats_dict anomalies :
  StronglySorted lt (slot <$> cpu_rules stats_dict anomalies) /\
  Forall (fun r => 0 <= slot r < 2)%nat (cpu_rules stats_dict anomalies).
Proof.
  unfold cpu_rules. cbv zeta.
  repeat match goal with
         | |- context [fgt ?a ?b] => destruct (fgt a b)
         | |- context [match assoc ?k ?l with _ => _ end] => destruct (assoc k l)
         end;
    (split; repeat constructor; cbn; lia).
Qed.

Lemma memory_rules_slots stats_dict :
  StronglySorted lt (slot <$> memory_rules stats_dict) /\
  Forall (fun r => 2 <= slot r < 4)%nat (memory_rules stats_dict).
Proof.
  unfold memory_rules.
  repeat match goal with
         | |- context [fgt ?a ?b] => destruct (fgt a b)
         | |- context [match assoc ?k ?l with _ => _ end] => destruct (assoc k l)
         end;
    (split; repeat constructor; cbn; lia).
Qed.

Lemma network_rules_slots stats_dict :
  StronglySorted lt (slot <$> network_rules stats_dict) /\
  Forall (fun r => 4 <= slot r < 6)%nat (network_rules stats_dict).
Proof.
  unfold network_rules.
  repeat match goal with
         | |- context [fgt ?a ?b] => destruct (fgt a b)
         | |- context [fge ?a ?b] => destruct (fge a b)
         | |- context [match assoc ?k ?l with _ => _ end] => destruct (assoc k l)
         end;
    (split; repeat constructor; cbn; lia).
Qed.

Lemma peak_rule_slots nlargest time_patterns peak :
  peak_rule nlargest time_patterns = Ok peak ->
  StronglySorted lt (slot <$> peak) /\ Forall (fun r => 6 <= slot r < 7)%nat peak.
Proof.
  unfold peak_rule.
  repeat match goal with
         | |- context [match assoc ?k ?l with _ => _ end] => destruct (assoc k l)
         | |- context [bool_decide ?P] => destruct (bool_decide P)
         | |- context [mean_column ?f ?c] => destruct (mean_column f c)
         end;
    intros [= <-]; (split; repeat constructor; cbn; lia).
Qed.

Lemma temperature_rules_slots stats_dict :
  StronglySorted lt (slot <$> temperature_rules stats_dict) /\
  Forall (fun r => 7 <= slot r < 8)%nat (temperature_rules stats_dict).
Proof.
  unfold temperature_rules.
  repeat match goal with
         | |- context [fgt ?a ?b] => destruct (fgt a b)
         | |- context [match assoc ?k ?l with _ => _ end] => destruct (assoc k l)
         end;
    (split; repeat constructor; cbn; lia).
Qed.

(** X12.  The recommendations come in the fixed order of the rules, each
    message at most once: high or moderate CPU usage (never both), CPU
    spikes, memory concern, memory variability, network saturation, high
    network usage, peak hours, temperature alert.  There are at most eight
    of them. *)
Theorem recommendations_follow_the_order_of_the_rules :
  forall nlargest (stats_dict : list (string * DescStats))
         (anomalies : list (string * Anomaly))
         (time_patterns : list (string * GroupFrame))
         (recommendations : list Recommendation),
    generate_optimization_recommendations nlargest stats_dict anomalies time_patterns
    = Ok recommendations ->
    StronglySorted lt (slot <$> recommendations) /\
    (length recommendations <= 8)%nat /\
    ~ ((exists x, HighCpuUsage x ∈ recommendations) /\
       (exists x, ModerateCpuUsage x ∈ recommendations)).
Proof.
  intros nlargest stats anomalies tp recs. rewrite recommendations_by_block.
  destruct (peak_rule nlargest tp) as [peak |] eqn:Ep; [| done]. intros [= <-].
  pose proof (sorted_slots_app 0 2 8 _ _ ltac:(lia) (cpu_rules_slots stats anomalies)
                (sorted_slots_app 2 4 8 _ _ ltac:(lia) (memory_rules_slots stats)
                   (sorted_slots_app 4 6 8 _ _ ltac:(lia) (network_rules_slots stats)
                      (sorted_slots_app 6 7 8 _ _ ltac:(lia) (peak_rule_slots _ _ _ Ep)
                         (temperature_rules_slots stats))))) as [Hs Hr].
  split; [exact Hs |]. split.
  - rewrite <- (length_fmap slot). change 8%nat with (8 - 0)%nat.
    apply (sorted_range_length _ Hs). by rewrite Forall_fmap.
  - intros [[x Hx] [y Hy]].
    set (l := cpu_rules stats anomalies ++ _) in *. clearbody l.
    clear -Hs Hx Hy. induction l as [| r l IH]; [by apply elem_of_nil in Hx |].
    rewrite fmap_cons in Hs. apply StronglySorted_inv in Hs as [Hs Hr].
    rewrite Forall_fmap, Forall_forall in Hr.
    apply elem_of_cons in Hx as [Ex | Hx]; apply elem_of_cons in Hy as [Ey | Hy].
    + congruence.
    + subst r. specialize (Hr _ Hy). cbn in Hr. lia.
    + subst r. specialize (Hr _ Hx). cbn in Hr. lia.
    + by apply IH.
Qed.

(** ** The rules on the data of the table *)

Lemma elem_of_dropna_floats (xs : list float) q :
  q ∈ dropna_floats xs <-> Some q ∈ xs.
Proof.
  unfold dropna_floats. rewrite list_elem_of_omap. split.
  - by intros (x & Hx & ->).
  - intros Hq. by exists (Some q).
Qed.

Lemma Qmaximum_elem x ys : Qmaximum x ys ∈ x :: ys.
Proof.
  revert x. induction ys as [| z ys IH]; intros x; simpl; [apply list_elem_of_here |].
  destruct (Qle_bool x z).
  - apply list_elem_of_further, IH.
  - specialize (IH x). apply elem_of_cons in IH as [-> | IH].
    + apply list_elem_of_here.
    + by do 2 apply list_elem_of_further.
Qed.

(** The maximum exceeds a limit exactly when some value does. *)
Lemma smax_gt xs c :
  fgt (smax xs) (Some c) = true <-> exists q, Some q ∈ xs /\ (c < q)%Q.
Proof.
  unfold smax. destruct (dropna_floats xs) as [| x ys] eqn:E.
  - split; [done |]. intros (q & Hq & _).
    apply elem_of_dropna_floats in Hq. rewrite E in Hq. by apply elem_of_nil in Hq.
  - cbn [fgt]. rewrite negb_true_iff, <- not_true_iff_false, Qle_bool_iff. split.
    + intros Hlt. exists (Qmaximum x ys). split.
      * apply elem_of_dropna_floats. rewrite E. apply Qmaximum_elem.
      * by apply Qnot_le_lt.
    + intros (q & Hq & Hlt) Hle. apply elem_of_dropna_floats in Hq.
      rewrite E in Hq. apply Qmaximum_ge in Hq.
      apply (Qlt_not_le _ _ Hlt). by eapply Qle_trans.
Qed.

Lemma smax_ge xs c :
  fge (smax xs) (Some c) = true <-> exists q, Some q ∈ xs /\ (c <= q)%Q.
Proof.
  unfold smax. destruct (dropna_floats xs) as [| x ys] eqn:E.
  - split; [done |]. intros (q & Hq & _).
    apply elem_of_dropna_floats in Hq. rewrite E in Hq. by apply elem_of_nil in Hq.
  - cbn [fge]. rewrite Qle_bool_iff. split.
    + intros Hle. exists (Qmaximum x ys). split; [| done].
      apply elem_of_dropna_floats. rewrite E. apply Qmaximum_elem.
    + intros (q & Hq & Hle). apply elem_of_dropna_floats in Hq.
      rewrite E in Hq. apply Qmaximum_ge in Hq. by eapply Qle_trans.
Qed.

(** The statistics map has an entry for a metric exactly when the metric is
    a column, and the entry is the record of the column's values. *)
Lemma descriptive_entry_iff sqrtQ df h d stats h' m st :
  h !! df = Some d ->
  calculate_descriptive_statistics sqrtQ df h = (Ok stats, h') ->
  m ∈ metrics ->
  assoc m stats = Some st
  <-> exists xs, numeric_col d m = Ok xs /\ st = descriptive_of sqrtQ xs.
Proof.
  intros Hd Hrun Hm. rewrite (descriptive_run _ _ _ _ Hd) in Hrun.
  apply pair_fst_eq in Hrun. pose proof Hrun as Hfree.
  rewrite (fold_entries_Ok _ _ _ _ Hrun m), bool_decide_eq_true_2 by done.
  assert (Hno : ~ exists e, descriptive_entry sqrtQ d m = Raise e).
  { by apply (fold_entries_Raise_free _ _ _ _ Hfree m Hm). }
  unfold descriptive_entry, numeric_col in *.
  destruct (getitem d m) as [s |]; cbn [assoc].
  - destruct (as_floats s) as [xs |]; [| exfalso; apply Hno; by eexists].
    split; [intros [= <-]; by eexists | by intros (xs' & [= <-] & ->)].
  - split; [done | by intros (xs & [=] & _)].
Qed.

(** A message is in the list exactly when its block contributes it. *)
Lemma elem_of_blocks (r : Recommendation) lo hi (a b c : list Recommendation) :
  (lo <= slot r < hi)%nat ->
  Forall (fun r => slot r < lo)%nat a ->
  Forall (fun r => hi <= slot r)%nat c ->
  r ∈ a ++ b ++ c <-> r ∈ b.
Proof.
  intros Hr Ha Hc. rewrite !elem_of_app. rewrite Forall_forall in Ha, Hc. split.
  - intros [Hin | [Hin | Hin]]; [| done |].
    + specialize (Ha r Hin). lia.
    + specialize (Hc r Hin). lia.
  - tauto.
Qed.

Lemma elem_of_memory_block nlargest stats_dict anomalies time_patterns recs r :
  generate_optimization_recommendations nlargest stats_dict anomalies time_patterns
  = Ok recs ->
  (2 <= slot r < 4)%nat ->
  r ∈ recs <-> r ∈ memory_rules stats_dict.
Proof.
  rewrite recommendations_by_block.
  destruct (peak_rule nlargest time_patterns) as [peak |] eqn:Ep; [| done].
  intros [= <-] Hr.
  destruct (cpu_rules_slots stats_dict anomalies) as [_ Hc].
  destruct (sorted_slots_app 4 6 8 _ _ ltac:(lia) (network_rules_slots stats_dict)
              (sorted_slots_app 6 7 8 _ _ ltac:(lia) (peak_rule_slots _ _ _ Ep)
                 (temperature_rules_slots stats_dict))) as [_ Hrest].
  apply (elem_of_blocks r 2 4); [done | |].
  - eapply Forall_impl; [exact Hc |]. intros r'. cbn. lia.
  - eapply Forall_impl; [exact Hrest |]. intros r'. cbn. lia.
Qed.

Lemma elem_of_network_block nlargest stats_dict anomalies time_patterns recs r :
  generate_optimization_recommendations nlargest stats_dict anomalies time_patterns
  = Ok recs ->
  (4 <= slot r < 6)%nat ->
  r ∈ recs <-> r ∈ network_rules stats_dict.
Proof.
  rewrite recommendations_by_block.
  destruct (peak_rule nlargest time_patterns) as [peak |] eqn:Ep; [| done].
  intros [= <-] Hr.
  destruct (sorted_slots_app 0 2 4 _ _ ltac:(lia) (cpu_rules_slots stats_dict anomalies)
              (memory_rules_slots stats_dict)) as [_ Hc].
  destruct (sorted_slots_app 6 7 8 _ _ ltac:(lia) (peak_rule_slots _ _ _ Ep)
              (temperature_rules_slots stats_dict)) as [_ Hrest].
  rewrite (app_assoc (cpu_rules _ _)).
  apply (elem_of_blocks r 4 6); [done | |].
  - eapply Forall_impl; [exact Hc |]. intros r'. cbn. lia.
  - eapply Forall_impl; [exact Hrest |]. intros r'. cbn. lia.
Qed.

Lemma elem_of_temperature_block nlargest stats_dict anomalies time_patterns recs r :
  generate_optimization_recommendations nlargest stats_dict anomalies time_patterns
  = Ok recs ->
  (7 <= slot r < 8)%nat ->
  r ∈ recs <-> r ∈ temperature_rules stats_dict.
Proof.
  rewrite recommendations_by_block.
  destruct (peak_rule nlargest time_patterns) as [peak |] eqn:Ep; [| done].
  intros [= <-] Hr.
  destruct (sorted_slots_app 0 2 7 _ _ ltac:(lia) (cpu_rules_slots stats_dict anomalies)
              (sorted_slots_app 2 4 7 _ _ ltac:(lia) (memory_rules_slots stats_dict)
                 (sorted_slots_app 4 6 7 _ _ ltac:(lia) (network_rules_slots stats_dict)
                    (peak_rule_slots _ _ _ Ep)))) as [_ Hc].
  replace (cpu_rules stats_dict anomalies ++ memory_rules stats_dict
           ++ network_rules stats_dict ++ peak ++ temperature_rules stats_dict)
    with ((cpu_rules stats_dict anomalies ++ memory_rules stats_dict
           ++ network_rules stats_dict ++ peak)
          ++ temperature_rules stats_dict ++ [])
    by (by rewrite app_nil_r, <- !app_assoc).
  apply (elem_of_blocks r 7 8); [done | | done].
  eapply Forall_impl; [exact Hc |]. intros r'. cbn. lia.
Qed.

(** X13.  For the statistics that the pipeline computes from a table, the
    three rules on a maximum fire exactly when some reading of the column
    is over the limit: the memory concern when a memory reading is above
    15, the network saturation when a network reading is at least 200, the
    temperature alert when a temperature reading is above 50.  A column
    that is absent, or holds no value, triggers none of them. *)
Theorem limit_rules_fire_when_a_reading_is_over_the_limit :
  forall sqrtQ nlargest (df : loc) (h h' : heap) (d : DataFrame)
         (stats_dict : list (string * DescStats))
         (anomalies : list (string * Anomaly))
         (time_patterns : list (string * GroupFrame))
         (recommendations : list Recommendation),
    h !! df = Some d ->
    calculate_descriptive_statistics sqrtQ df h = (Ok stats_dict, h') ->
    generate_optimization_recommendations nlargest stats_dict anomalies time_patterns
    = Ok recommendations ->
    ((exists x, MemoryConcern x ∈ recommendations)
     <-> exists xs q, numeric_col d "Memory_Usage" = Ok xs /\ Some q ∈ xs /\ (15 < q)%Q) /\
    (NetworkSaturation ∈ recommendations
     <-> exists xs q, numeric_col d "Network_Usage" = Ok xs /\ Some q ∈ xs /\ (200 <= q)%Q) /\
    ((exists x, TemperatureAlert x ∈ recommendations)
     <-> exists xs q, numeric_col d "Temperature" = Ok xs /\ Some q ∈ xs /\ (50 < q)%Q).
Proof.
  intros sqrtQ nlargest df h h' d stats anomalies tp recs Hd Hstats Hrun.
  assert (Hmem : "Memory_Usage" ∈ metrics) by (apply (bool_decide_unpack _); by vm_compute).
  assert (Hnet : "Network_Usage" ∈ metrics) by (apply (bool_decide_unpack _); by vm_compute).
  assert (Htmp : "Temperature" ∈ metrics) by (apply (bool_decide_unpack _); by vm_compute).
  pose proof (fun st => descriptive_entry_iff sqrtQ df h d stats h' _ st Hd Hstats Hmem) as Em.
  pose proof (fun st => descriptive_entry_iff sqrtQ df h d stats h' _ st Hd Hstats Hnet) as En.
  pose proof (fun st => descriptive_entry_iff sqrtQ df h d stats h' _ st Hd Hstats Htmp) as Et.
  split; [| split].
  - split.
    + intros [x Hx].
      apply (elem_of_memory_block _ _ _ _ _ _ Hrun) in Hx; [| cbn; lia].
      unfold memory_rules in Hx.
      destruct (assoc "Memory_Usage" stats) as [st |] eqn:Est;
        [| by apply elem_of_nil in Hx].
      destruct (proj1 (Em st) eq_refl) as (xs & Hxs & ->). cbn [st_max st_std descriptive_of] in Hx.
      destruct (fgt (smax xs) (Some 15%Q)) eqn:Hgt.
      * apply smax_gt in Hgt as (q & Hq & Hlt). by exists xs, q.
      * exfalso. cbn [app] in Hx. destruct (fgt (std sqrtQ xs) _);
          [apply list_elem_of_singleton in Hx; done | by apply elem_of_nil in Hx].
    + intros (xs & q & Hxs & Hq & Hlt).
      assert (Est : assoc "Memory_Usage" stats = Some (descriptive_of sqrtQ xs)).
      { apply Em. by exists xs. }
      exists (smax xs).
      apply (elem_of_memory_block _ _ _ _ _ _ Hrun); [cbn; lia |].
      unfold memory_rules. rewrite Est. cbn [st_max st_std descriptive_of].
      assert (Hgt : fgt (smax xs) (Some 15%Q) = true) by (apply smax_gt; by exists q).
      rewrite Hgt. apply list_elem_of_here.
  - split.
    + intros Hx.
      apply (elem_of_network_block _ _ _ _ _ _ Hrun) in Hx; [| cbn; lia].
      unfold network_rules in Hx.
      destruct (assoc "Network_Usage" stats) as [st |] eqn:Est;
        [| by apply elem_of_nil in Hx].
      destruct (proj1 (En st) eq_refl) as (xs & Hxs & ->). cbn [st_max st_mean descriptive_of] in Hx.
      destruct (fge (smax xs) (Some 200%Q)) eqn:Hge.
      * apply smax_ge in Hge as (q & Hq & Hle). by exists xs, q.
      * exfalso. cbn [app] in Hx. destruct (fgt (mean xs) _);
          [apply list_elem_of_singleton in Hx; done | by apply elem_of_nil in Hx].
    + intros (xs & q & Hxs & Hq & Hle).
      assert (Est : assoc "Network_Usage" stats = Some (descriptive_of sqrtQ xs)).
      { apply En. by exists xs. }
      apply (elem_of_network_block _ _ _ _ _ _ Hrun); [cbn; lia |].
      unfold network_rules. rewrite Est. cbn [st_max st_mean descriptive_of].
      assert (Hge : fge (smax xs) (Some 200%Q) = true) by (apply smax_ge; by exists q).
      rewrite Hge. apply list_elem_of_here.
  - split.
    + intros [x Hx].
      apply (elem_of_temperature_block _ _ _ _ _ _ Hrun) in Hx; [| cbn; lia].
      unfold temperature_rules in Hx.
      destruct (assoc "Temperature" stats) as [st |] eqn:Est;
        [| by apply elem_of_nil in Hx].
      destruct (proj1 (Et st) eq_refl) as (xs & Hxs & ->). cbn [st_max descriptive_of] in Hx.
      destruct (fgt (smax xs) (Some 50%Q)) eqn:Hgt; [| by apply elem_of_nil in Hx].
      apply smax_gt in Hgt as (q & Hq & Hlt). by exists xs, q.
    + intros (xs & q & Hxs & Hq & Hlt).
      assert (Est : assoc "Temperature" stats = Some (descriptive_of sqrtQ xs)).
      { apply Et. by exists xs. }
      exists (smax xs).
      apply (elem_of_temperature_block _ _ _ _ _ _ Hrun); [cbn; lia |].
      unfold temperature_rules. rewrite Est. cbn [st_max descriptive_of].
      assert (Hgt : fgt (smax xs) (Some 50%Q) = true) by (apply smax_gt; by exists q).
      rewrite Hgt. apply list_elem_of_here.
Qed.

Lemma elem_of_cpu_block nlargest stats_dict anomalies time_patterns recs r :
  generate_optimization_recommendations nlargest stats_dict anomalies time_patterns
  = Ok recs ->
  (slot r < 2)%nat ->
  r ∈ recs <-> r ∈ cpu_rules stats_dict anomalies.
Proof.
  rewrite recommendations_by_block.
  destruct (peak_rule nlargest time_patterns) as [peak |] eqn:Ep; [| done].
  intros [= <-] Hr.
  destruct (sorted_slots_app 2 4 8 _ _ ltac:(lia) (memory_rules_slots stats_dict)
              (sorted_slots_app 4 6 8 _ _ ltac:(lia) (network_rules_slots stats_dict)
                 (sorted_slots_app 6 7 8 _ _ ltac:(lia) (peak_rule_slots _ _ _ Ep)
                    (temperature_rules_slots stats_dict)))) as [_ Hrest].
  change (r ∈ [] ++ cpu_rules stats_dict anomalies
              ++ memory_rules stats_dict ++ network_rules stats_dict ++ peak
              ++ temperature_rules stats_dict
          <-> r ∈ cpu_rules stats_dict anomalies).
  apply (elem_of_blocks r 0 2); [lia | done |].
  eapply Forall_impl; [exact Hrest |]. intros r'. cbn. lia.
Qed.

(** The entries of the detector's map: the critical percentage is the
    number 100 * count / rows, and the table has a row. *)
Lemma anomaly_entry_percentage df thresholds h h' d anomalies metric a :
  h !! df = Some d ->
  detect_anomalies df thresholds h = (Ok anomalies, h') ->
  assoc metric anomalies = Some a ->
  (0 < df_len d)%nat /\
  critical_percentage a
  = Some (inject_Z (Z.of_nat (critical_count a)) / inject_Z (Z.of_nat (df_len d)) * 100)%Q.
Proof.
  intros Hd Hrun Ha.
  set (P := fun (_ : string) (a : Anomaly) (_ : heap) =>
              (0 < df_len d)%nat /\
              critical_percentage a
              = Some (inject_Z (Z.of_nat (critical_count a))
                      / inject_Z (Z.of_nat (df_len d)) * 100)%Q).
  assert (Hall : Forall (fun it => P it.1 it.2 h') anomalies).
  { apply (detect_loop_inv df d P) with (ths := thresholds) (acc := []) (h := h);
      [done | | done | by apply Forall_nil_2 | exact Hrun].
    intros m t xs h0 a0 _ _ _ Hrec.
    by apply anomaly_record_Ok in Hrec as [Hlen ->]. }
  exact (Forall_assoc (fun m a => P m a h') anomalies metric a Hall Ha).
Qed.

(** More than five per cent of the rows. *)
Lemma percentage_over_5 (n len : nat) :
  (0 < len)%nat ->
  fgt (Some (inject_Z (Z.of_nat n) / inject_Z (Z.of_nat len) * 100)%Q) (Some 5%Q) = true
  <-> (len < 20 * n)%nat.
Proof.
  intros Hlen. cbn [fgt]. rewrite negb_true_iff, <- not_true_iff_false, Qle_bool_iff.
  assert (H0 : (0 < inject_Z (Z.of_nat len))%Q).
  { change 0%Q with (inject_Z 0). rewrite <- Zlt_Qlt. lia. }
  set (L := inject_Z (Z.of_nat len)) in *. set (N := inject_Z (Z.of_nat n)).
  assert (Hdiv : (N / L * L == N)%Q) by (field; lra).
  assert (Hiff : (L < 20 * N)%Q <-> (len < 20 * n)%nat).
  { unfold L, N. change 20%Q with (inject_Z 20).
    rewrite <- inject_Z_mult, <- Zlt_Qlt. lia. }
  rewrite <- Hiff. split.
  - intros Hn. apply Qnot_le_lt in Hn.
    assert (5 * L < N / L * 100 * L)%Q by (apply Qmult_lt_compat_r; done). nra.
  - intros Hlt Hle.
    assert (N / L * 100 * L <= 5 * L)%Q by (apply Qmult_le_compat_r; lra). nra.
Qed.

(** X14.  With the anomaly map of the detector, the CPU spikes message is
    issued exactly when the statistics have a CPU entry, the anomaly map
    has one too, and more than five per cent of the rows of the table are
    above the critical cutoff, that is, when 20 times the critical count
    exceeds the number of rows. *)
Theorem cpu_spikes_rule_counts_the_critical_rows :
  forall nlargest (df : loc) (thresholds : list (string * Threshold))
         (h h' : heap) (d : DataFrame)
         (stats_dict : list (string * DescStats))
         (anomalies : list (string * Anomaly))
         (time_patterns : list (string * GroupFrame))
         (recommendations : list Recommendation),
    h !! df = Some d ->
    detect_anomalies df thresholds h = (Ok anomalies, h') ->
    generate_optimization_recommendations nlargest stats_dict anomalies time_patterns
    = Ok recommendations ->
    (exists x, CpuSpikes x ∈ recommendations)
    <-> is_Some (assoc "CPU_Usage" stats_dict) /\
        exists a, assoc "CPU_Usage" anomalies = Some a /\
                  (df_len d < 20 * critical_count a)%nat.
Proof.
  intros nlargest df ths h h' d stats anomalies tp recs Hd Hdet Hrun.
  assert (Hcpu : forall x, CpuSpikes x ∈ recs <-> CpuSpikes x ∈ cpu_rules stats anomalies).
  { intros x. apply (elem_of_cpu_block _ _ _ _ _ _ Hrun). cbn. lia. }
  assert (Hin : forall x (l : list Recommendation) c,
             (forall y, CpuSpikes y ∉ l) ->
             CpuSpikes x ∈ l ++ (if fgt c (Some 5%Q) then [CpuSpikes c] else [])
             <-> fgt c (Some 5%Q) = true /\ x = c).
  { intros x l c Hl. rewrite elem_of_app. destruct (fgt c _).
    - rewrite list_elem_of_singleton. split.
      + intros [Hx | [= ->]]; [by apply Hl in Hx | done].
      + intros [_ ->]. by right.
    - split; [intros [Hx | Hx]; [by apply Hl in Hx | by apply elem_of_nil in Hx] |].
      by intros [? _]. }
  assert (Hblock : forall x,
             CpuSpikes x ∈ cpu_rules stats anomalies
             <-> is_Some (assoc "CPU_Usage" stats) /\
                 fgt (match assoc "CPU_Usage" anomalies with
                      | Some a => critical_percentage a
                      | None => Some 0%Q
                      end) (Some 5%Q) = true /\
                 x = match assoc "CPU_Usage" anomalies with
                     | Some a => critical_percentage a
                     | None => Some 0%Q
                     end).
  { intros x. unfold cpu_rules. cbv zeta.
    destruct (assoc "CPU_Usage" stats) as [st |].
    - rewrite Hin.
      + split; [intros [? ?]; split; [by eexists | done] | tauto].
      + intros y Hy. destruct (fgt (st_mean st) (Some 75%Q));
          [by apply list_elem_of_singleton in Hy |].
        destruct (fgt (st_mean st) (Some 60%Q));
          [by apply list_elem_of_singleton in Hy | by apply elem_of_nil in Hy].
    - split; [by intros ?%elem_of_nil | by intros [[? [=]] _]]. }
  split.
  - intros [x Hx]. apply Hcpu, Hblock in Hx as (Hst & Hgt & _). split; [done |].
    destruct (assoc "CPU_Usage" anomalies) as [a |] eqn:Ea; [| done].
    exists a. split; [done |].
    destruct (anomaly_entry_percentage df ths h h' d anomalies _ a Hd Hdet Ea)
      as [Hlen Hpc].
    rewrite Hpc in Hgt. by apply percentage_over_5 in Hgt.
  - intros (Hst & a & Ea & Hlt). exists (critical_percentage a).
    apply Hcpu, Hblock. split; [done |]. rewrite Ea. split; [| done].
    destruct (anomaly_entry_percentage df ths h h' d anomalies _ a Hd Hdet Ea)
      as [Hlen Hpc].
    rewrite Hpc. by apply percentage_over_5.
Qed.

(** X15.  Of the anomaly map the generator reads the critical percentage of
    the CPU entry and nothing else, and of the time patterns the hourly
    table only: the counts, the row sets, the warning percentages, the
    entries of the other metrics and the daily table have no influence on
    the recommendations. *)
Theorem recommendations_read_the_cpu_critical_percentage_only :
  forall nlargest (stats_dict : list (string * DescStats))
         (anomalies anomalies' : list (string * Anomaly))
         (time_patterns time_patterns' : list (string * GroupFrame)),
    option_map critical_percentage (assoc "CPU_Usage" anomalies)
    = option_map critical_percentage (assoc "CPU_Usage" anomalies') ->
    assoc "hourly" time_patterns = assoc "hourly" time_patterns' ->
    generate_optimization_recommendations nlargest stats_dict anomalies time_patterns
    = generate_optimization_recommendations nlargest stats_dict anomalies' time_patterns'.
Proof.
  intros nlargest stats a a' tp tp' Ha Htp. rewrite !recommendations_by_block.
  unfold peak_rule, cpu_rules. rewrite Htp.
  destruct (assoc "CPU_Usage" a), (assoc "CPU_Usage" a'); simplify_eq/=; try done.
  by rewrite Ha.
Qed.

Lemma assoc_frames name (time_patterns : list (string * GroupTable)) :
  assoc name (frames time_patterns)
  = option_map (mkFrame metrics) (assoc name time_patterns).
Proof.
  unfold frames. induction time_patterns as [| [k t] tp IH]; [done |]. simpl.
  by destruct (String.eqb name k).
Qed.

(** X16.  The time patterns of the aggregator always lead to the peak hours
    message, and to one only: the generator does not fail on them, and the
    hours of the message are the labels of what nlargest(3) selects from
    the column of the hourly CPU means, that is from the Series that has,
    for each row of the hourly table in order, the hour of the row as label
    and the mean of its CPU cell as value.  That is so for a table without
    rows as well, where the hourly table is empty. *)
Theorem time_patterns_always_give_the_peak_hours_message :
  forall sqrtQ nlargest (df : loc) (h : heap) (d : DataFrame) (ts : list (option Z))
         (stats_dict : list (string * DescStats))
         (anomalies : list (string * Anomaly)),
    h !! df = Some d ->
    getitem d "Time" = Ok (Stamps ts) ->
    (forall m, m ∈ metrics -> m ∈ names d) ->
    numeric_metrics d = true ->
    exists time_patterns h' hourly recommendations means,
      analyze_time_patterns sqrtQ df h = (Ok time_patterns, h') /\
      assoc "hourly" time_patterns = Some hourly /\
      generate_optimization_recommendations nlargest stats_dict anomalies
        (frames time_patterns) = Ok recommendations /\
      Forall2 (fun (row : Z * list (string * Agg)) (entry : Z * float) =>
                 entry.1 = row.1 /\
                 exists a, assoc "CPU_Usage" row.2 = Some a /\ entry.2 = agg_mean a)
              hourly means /\
      forall peak_hours,
        PeakHoursIdentified peak_hours ∈ recommendations
        <-> peak_hours = (nlargest 3 means).*1.
Proof.
  intros sqrtQ nlargest df h d ts stats anomalies Hd Ht Hall Hnum.
  destruct (time_patterns_tables sqrtQ df h d ts Hd Ht Hall Hnum)
    as (hourly & daily & Hrun & Hk & _ & Hrows & _).
  set (means := map (fun row : Z * list (string * Agg) =>
                       (row.1, match assoc "CPU_Usage" row.2 with
                               | Some a => agg_mean a
                               | None => NaN
                               end)) hourly).
  assert (Hcpu : Forall (fun row : Z * list (string * Agg) =>
                           "CPU_Usage" ∈ row.2.*1) hourly).
  { eapply Forall_impl; [exact Hrows |]. intros row [-> _].
    apply (bool_decide_unpack _). by vm_compute. }
  assert (Hcol : mean_column (mkFrame metrics hourly) "CPU_Usage" = Ok means).
  { unfold mean_column. cbn [rows].
    assert (Hf : forallb (fun row : Z * list (string * Agg) =>
                            bool_decide ("CPU_Usage" ∈ row.2.*1)) hourly = true).
    { apply forallb_forall. intros row Hrow%list_elem_of_In.
      rewrite Forall_forall in Hcpu. by apply bool_decide_eq_true_2, Hcpu. }
    by rewrite Hf. }
  assert (Hpeak : forall tp, assoc "hourly" tp = Some hourly ->
                  peak_rule nlargest (frames tp)
                  = Ok [PeakHoursIdentified (nlargest 3 means).*1]).
  { intros tp Htp. unfold peak_rule. rewrite assoc_frames, Htp. cbn [option_map level0].
    rewrite bool_decide_eq_true_2 by (apply (bool_decide_unpack _); by vm_compute).
    by rewrite Hcol. }
  assert (Hh : forall tp, tp = (if (1 <? length (distinct (map (option_map date_of) ts)))%nat
                                then [("hourly", hourly); ("daily", daily)]
                                else [("hourly", hourly)]) ->
                          assoc "hourly" tp = Some hourly).
  { intros tp ->. by destruct (1 <? _)%nat. }
  do 2 eexists. exists hourly. eexists. exists means.
  split; [exact Hrun |]. split; [by apply Hh |].
  rewrite recommendations_by_block, Hpeak by (by apply Hh).
  split; [done |]. split.
  - unfold means. clear -Hcpu. induction Hcpu as [| row l Hrow Hl IH]; [constructor |].
    cbn [map]. constructor; [| exact IH]. cbn [fst snd]. split; [done |].
    destruct (assoc_elem_Some _ _ Hrow) as [a Ha]. exists a. by rewrite Ha.
  - intros peak_hours.
    destruct (sorted_slots_app 0 2 6 _ _ ltac:(lia) (cpu_rules_slots stats anomalies)
                (sorted_slots_app 2 4 6 _ _ ltac:(lia) (memory_rules_slots stats)
                   (network_rules_slots stats))) as [_ Hlow].
    destruct (temperature_rules_slots stats) as [_ Hhigh].
    replace (cpu_rules stats anomalies ++ memory_rules stats ++ network_rules stats
             ++ [PeakHoursIdentified (nlargest 3 means).*1] ++ temperature_rules stats)
      with ((cpu_rules stats anomalies ++ memory_rules stats ++ network_rules stats)
            ++ [PeakHoursIdentified (nlargest 3 means).*1] ++ temperature_rules stats)
      by (by rewrite <- !app_assoc).
    rewrite (elem_of_blocks (PeakHoursIdentified peak_hours) 6 7).
    + rewrite list_elem_of_singleton. split; [by intros [= ->] | by intros ->].
    + cbn. lia.
    + eapply Forall_impl; [exact Hlow |]. intros r. cbn. lia.
    + eapply Forall_impl; [exact Hhigh |]. intros r. cbn. lia.
Qed.

(** * The further properties at work *)

Lemma anomaly_percentages_between_0_and_100_witness :
  exists anomalies h' a,
    detect_anomalies 0 server_thresholds [server_table] = (Ok anomalies, h') /\
    assoc "CPU_Usage" anomalies = Some a /\
    (0 < df_len server_table)%nat /\
    (warning_count a <= df_len server_table)%nat /\
    (critical_count a <= df_len server_table)%nat /\
    exists pw pc,
      warning_percentage a = Some pw /\ critical_percentage a = Some pc /\
      (pw == inject_Z (Z.of_nat (warning_count a))
             / inject_Z (Z.of_nat (df_len server_table)) * 100)%Q /\
      (pc == inject_Z (Z.of_nat (critical_count a))
             / inject_Z (Z.of_nat (df_len server_table)) * 100)%Q /\
      (0 <= pw <= 100)%Q /\ (0 <= pc <= 100)%Q.
Proof.
  do 3 eexists. split; [vm_compute; reflexivity |]. split; [vm_compute; reflexivity |].
  eapply (anomaly_percentages_between_0_and_100 0 server_thresholds
            [server_table] _ server_table _ "CPU_Usage" _).
  - reflexivity.
  - vm_compute. reflexivity.
  - vm_compute. reflexivity.
Defined.

Lemma critical_count_at_most_warning_count_witness :
  exists anomalies h' a,
    detect_anomalies 0 server_thresholds [server_table] = (Ok anomalies, h') /\
    assoc "CPU_Usage" anomalies = Some a /\
    (critical_count a <= warning_count a)%nat /\
    fge (warning_percentage a) (critical_percentage a) = true.
Proof.
  do 3 eexists. split; [vm_compute; reflexivity |]. split; [vm_compute; reflexivity |].
  eapply (critical_count_at_most_warning_count sqrt_approx 0 "percentile"
            [server_table] [server_table] server_thresholds 0 [server_table] _
            server_table _ "CPU_Usage" _ sqrt_approx_nonneg).
  - vm_compute. reflexivity.
  - reflexivity.
  - vm_compute. reflexivity.
  - vm_compute. reflexivity.
Defined.

Lemma anomaly_sets_hold_the_rows_above_the_cutoffs_witness :
  exists anomalies h' a,
    detect_anomalies 0 mixed_thresholds [server_table] = (Ok anomalies, h') /\
    assoc "CPU_Usage" anomalies = Some a /\
    exists t xs dw dc,
      ("CPU_Usage", t) ∈ mixed_thresholds /\
      numeric_col server_table "CPU_Usage" = Ok xs /\
      h' !! warning_data a = Some dw /\ h' !! critical_data a = Some dc /\
      names dw = names server_table /\ names dc = names server_table /\
      numeric_col dw "CPU_Usage"
      = Ok (List.filter (fun x => fgt x (warning t)) xs) /\
      numeric_col dc "CPU_Usage"
      = Ok (List.filter (fun x => fgt x (critical t)) xs) /\
      (well_formed server_table = true ->
       warning_count a = length (List.filter (fun x => fgt x (warning t)) xs) /\
       critical_count a = length (List.filter (fun x => fgt x (critical t)) xs)).
Proof.
  do 3 eexists. split; [vm_compute; reflexivity |]. split; [vm_compute; reflexivity |].
  eapply (anomaly_sets_hold_the_rows_above_the_cutoffs 0 mixed_thresholds
            [server_table] _ server_table _ "CPU_Usage" _).
  - reflexivity.
  - vm_compute. reflexivity.
  - vm_compute. reflexivity.
Defined.

Lemma cutoffs_are_nan_iff_data_are_insufficient_witness :
  exists thresholds t,
    calculate_alertness_thresholds sqrt_approx 0 "std" [single_row_table]
    = (Ok thresholds, [single_row_table]) /\
    assoc "CPU_Usage" thresholds = Some t /\
    isnan (warning t) = true /\ isnan (critical t) = true.
Proof.
  do 2 eexists. split; [vm_compute; reflexivity |]. split; [vm_compute; reflexivity |].
  eapply (cutoffs_are_nan_iff_data_are_insufficient sqrt_approx 0 "std"
            [single_row_table] [single_row_table] single_row_table "CPU_Usage"
            (Floats [num 50]) [num 50] _ _).
  - reflexivity.
  - reflexivity.
  - reflexivity.
  - vm_compute. reflexivity.
  - vm_compute. reflexivity.
Defined.

Lemma thresholds_then_detection_cover_the_present_metrics_witness :
  exists thresholds anomalies h',
    calculate_alertness_thresholds sqrt_approx 0 "iqr" [cpu_only_table]
    = (Ok thresholds, [cpu_only_table]) /\
    detect_anomalies 0 thresholds [cpu_only_table] = (Ok anomalies, h') /\
    thresholds.*1 = ["CPU_Usage"] /\
    anomalies.*1 = thresholds.*1 /\
    length h' = (1 + 2 * length thresholds)%nat.
Proof.
  apply (thresholds_then_detection_cover_the_present_metrics sqrt_approx 0 "iqr"
           [cpu_only_table] cpu_only_table).
  - reflexivity.
  - vm_compute. reflexivity.
  - reflexivity.
  - vm_compute. lia.
Defined.

Lemma too_few_data_flag_no_anomaly_witness :
  exists thresholds anomalies h' t a,
    calculate_alertness_thresholds sqrt_approx 0 "std" [single_row_table]
    = (Ok thresholds, [single_row_table]) /\
    detect_anomalies 0 thresholds [single_row_table] = (Ok anomalies, h') /\
    assoc "CPU_Usage" thresholds = Some t /\
    warning t = NaN /\ critical t = NaN /\
    assoc "CPU_Usage" anomalies = Some a /\
    warning_count a = 0%nat /\ critical_count a = 0%nat.
Proof.
  apply (too_few_data_flag_no_anomaly sqrt_approx 0 "std" [single_row_table]
           single_row_table "CPU_Usage" (Floats [num 50]) [num 50]).
  - reflexivity.
  - vm_compute. reflexivity.
  - reflexivity.
  - vm_compute. lia.
  - apply list_elem_of_here.
  - reflexivity.
  - reflexivity.
  - vm_compute. reflexivity.
Defined.

Lemma recorded_method_name_is_not_always_a_selector_witness :
  exists thresholds t,
    calculate_alertness_thresholds sqrt_approx 0 "std" [server_table]
    = (Ok thresholds, [server_table]) /\
    assoc "CPU_Usage" thresholds = Some t /\
    method t = "standard_deviation" /\
    calculate_alertness_thresholds sqrt_approx 0 (method t) [server_table]
    = (Ok [], [server_table]).
Proof.
  do 2 eexists. split; [vm_compute; reflexivity |]. split; [vm_compute; reflexivity |].
  eapply (recorded_method_name_is_not_always_a_selector sqrt_approx 0 "std"
           [server_table] [server_table] server_table _ "CPU_Usage" _).
  - reflexivity.
  - vm_compute. reflexivity.
  - vm_compute. reflexivity.
Defined.

Lemma descriptive_statistics_are_ordered_witness :
  exists stats st,
    calculate_descriptive_statistics sqrt_approx 0 [server_table]
    = (Ok stats, [server_table]) /\
    assoc "Temperature" stats = Some st /\
    exists mn q1 md q3 mx,
      st_min st = Some mn /\ st_q1 st = Some q1 /\ st_median st = Some md /\
      st_q3 st = Some q3 /\ st_max st = Some mx /\
      (mn <= q1)%Q /\ (q1 <= md)%Q /\ (md <= q3)%Q /\ (q3 <= mx)%Q /\
      st_count st = 4%nat.
Proof.
  do 2 eexists. split; [vm_compute; reflexivity |]. split; [vm_compute; reflexivity |].
  eapply (descriptive_statistics_are_ordered sqrt_approx 0 [server_table]
            [server_table] server_table "Temperature"
            (Floats [num 40; num 42; NaN; num 55; num 47])
            [num 40; num 42; NaN; num 55; num 47] _ _).
  - reflexivity.
  - reflexivity.
  - reflexivity.
  - vm_compute. lia.
  - vm_compute. reflexivity.
  - vm_compute. reflexivity.
Defined.

Lemma hourly_table_has_a_row_per_hour_of_day_witness :
  exists time_patterns h' hourly,
    analyze_time_patterns sqrt_approx 0 [server_table] = (Ok time_patterns, h') /\
    assoc "hourly" time_patterns = Some hourly /\
    StronglySorted Z.lt hourly.*1 /\
    (forall k, k ∈ hourly.*1
               <-> exists t, Some t ∈ [Some 0; Some 3600; Some 7200; Some 90000; Some 93600]%Z
                             /\ hour_of t = k) /\
    Forall (fun k => 0 <= k < 24)%Z hourly.*1 /\
    (length hourly <= 24)%nat /\
    Forall (fun row => row.2.*1 = metrics) hourly.
Proof.
  apply (hourly_table_has_a_row_per_hour_of_day sqrt_approx 0 [server_table]
           server_table [Some 0; Some 3600; Some 7200; Some 90000; Some 93600]%Z).
  - reflexivity.
  - reflexivity.
  - apply has_all_metrics_elem. reflexivity.
  - vm_compute. reflexivity.
Defined.

Lemma hourly_cells_are_nan_for_too_few_values_witness :
  exists time_patterns h' hourly,
    analyze_time_patterns sqrt_approx 0 [server_table] = (Ok time_patterns, h') /\
    assoc "hourly" time_patterns = Some hourly /\
    forall k cells,
      (k, cells) ∈ hourly ->
      exists a,
        assoc "Temperature" cells = Some a /\
        let g := select (map (fun t => bool_decide (option_map hour_of t = Some k))
                             [Some 0; Some 3600; Some 7200; Some 90000; Some 93600]%Z)
                        [num 40; num 42; NaN; num 55; num 47] in
        isnan (agg_mean a) = (count g =? 0)%nat /\
        isnan (agg_max a) = (count g =? 0)%nat /\
        isnan (agg_std a) = (count g <? 2)%nat /\
        (well_formed server_table = true -> (1 <= length g)%nat).
Proof.
  apply (hourly_cells_are_nan_for_too_few_values sqrt_approx 0 [server_table]
           server_table [Some 0; Some 3600; Some 7200; Some 90000; Some 93600]%Z
           "Temperature" [num 40; num 42; NaN; num 55; num 47]).
  - reflexivity.
  - reflexivity.
  - apply has_all_metrics_elem. reflexivity.
  - vm_compute. reflexivity.
  - do 3 apply list_elem_of_further. apply list_elem_of_here.
  - reflexivity.
Defined.

Lemma time_patterns_outcome_with_a_Time_column_witness :
  analyze_time_patterns sqrt_approx 0 [single_row_table]
  = (Raise KeyError,
     [single_row_table; with_time_columns single_row_table [Some 0%Z]]).
Proof.
  exact (time_patterns_outcome_with_a_Time_column sqrt_approx 0 [single_row_table]
           single_row_table (Stamps [Some 0%Z]) eq_refl eq_refl eq_refl).
Defined.

Lemma recommendations_follow_the_order_of_the_rules_witness :
  exists recommendations,
    generate_optimization_recommendations sample_nlargest
      sample_stats
      [] [("hourly", mkFrame metrics [])]
    = Ok recommendations /\
    StronglySorted lt (slot <$> recommendations) /\
    (length recommendations <= 8)%nat /\
    ~ ((exists x, HighCpuUsage x ∈ recommendations) /\
       (exists x, ModerateCpuUsage x ∈ recommendations)).
Proof.
  eexists. split; [vm_compute; reflexivity |].
  eapply (recommendations_follow_the_order_of_the_rules sample_nlargest sample_stats []
            [("hourly", mkFrame metrics [])] _).
  vm_compute. reflexivity.
Defined.

Lemma limit_rules_fire_when_a_reading_is_over_the_limit_witness :
  exists stats_dict recommendations,
    calculate_descriptive_statistics sqrt_approx 0 [server_table]
    = (Ok stats_dict, [server_table]) /\
    generate_optimization_recommendations sample_nlargest stats_dict [] []
    = Ok recommendations /\
    ((exists x, MemoryConcern x ∈ recommendations)
     <-> exists xs q, numeric_col server_table "Memory_Usage" = Ok xs
                      /\ Some q ∈ xs /\ (15 < q)%Q) /\
    (NetworkSaturation ∈ recommendations
     <-> exists xs q, numeric_col server_table "Network_Usage" = Ok xs
                      /\ Some q ∈ xs /\ (200 <= q)%Q) /\
    ((exists x, TemperatureAlert x ∈ recommendations)
     <-> exists xs q, numeric_col server_table "Temperature" = Ok xs
                      /\ Some q ∈ xs /\ (50 < q)%Q).
Proof.
  do 2 eexists. split; [vm_compute; reflexivity |]. split; [vm_compute; reflexivity |].
  eapply (limit_rules_fire_when_a_reading_is_over_the_limit sqrt_approx
            sample_nlargest 0 [server_table] _ server_table _ [] [] _).
  - reflexivity.
  - vm_compute. reflexivity.
  - vm_compute. reflexivity.
Defined.

Lemma cpu_spikes_rule_counts_the_critical_rows_witness :
  exists anomalies h' recommendations,
    detect_anomalies 0 server_thresholds [server_table] = (Ok anomalies, h') /\
    generate_optimization_recommendations sample_nlargest
      sample_stats
      anomalies []
    = Ok recommendations /\
    ((exists x, CpuSpikes x ∈ recommendations)
     <-> is_Some (assoc "CPU_Usage"
                    sample_stats) /\
         exists a, assoc "CPU_Usage" anomalies = Some a /\
                   (df_len server_table < 20 * critical_count a)%nat).
Proof.
  do 3 eexists. split; [vm_compute; reflexivity |]. split; [vm_compute; reflexivity |].
  eapply (cpu_spikes_rule_counts_the_critical_rows sample_nlargest 0 server_thresholds
            [server_table] _ server_table sample_stats _ [] _).
  - reflexivity.
  - vm_compute. reflexivity.
  - vm_compute. reflexivity.
Defined.

Lemma recommendations_read_the_cpu_critical_percentage_only_witness :
  generate_optimization_recommendations sample_nlargest
    sample_stats
    [] []
  = generate_optimization_recommendations sample_nlargest
      sample_stats
      [("Memory_Usage", mkAnomaly 3 2 1 2 (num 60) (num 40))]
      [("daily", mkFrame metrics [])].
Proof.
  apply recommendations_read_the_cpu_critical_percentage_only; reflexivity.
Defined.

Lemma time_patterns_always_give_the_peak_hours_message_witness :
  exists time_patterns h' hourly recommendations means,
    analyze_time_patterns sqrt_approx 0 [server_table] = (Ok time_patterns, h') /\
    assoc "hourly" time_patterns = Some hourly /\
    generate_optimization_recommendations sample_nlargest [] []
      (frames time_patterns) = Ok recommendations /\
    Forall2 (fun (row : Z * list (string * Agg)) (entry : Z * float) =>
               entry.1 = row.1 /\
               exists a, assoc "CPU_Usage" row.2 = Some a /\ entry.2 = agg_mean a)
            hourly means /\
    forall peak_hours,
      PeakHoursIdentified peak_hours ∈ recommendations
      <-> peak_hours = (sample_nlargest 3 means).*1.
Proof.
  apply (time_patterns_always_give_the_peak_hours_message sqrt_approx sample_nlargest
           0 [server_table] server_table
           [Some 0; Some 3600; Some 7200; Some 90000; Some 93600]%Z [] []).
  - reflexivity.
  - reflexivity.
  - apply has_all_metrics_elem. reflexivity.
  - vm_compute. reflexivity.
Defined.
